(** * Formulary registry: the documentation extractor

    A shallow embedding of [site/scripts/extract-docs.mjs] and the
    properties its specification states about it.

    Conventions of the model.
    - A JavaScript string is kept as the sequence of bytes of its UTF-8
      encoding, a Rocq [string].  Every operation the script applies to
      strings (prefix and suffix tests, splitting on a comma, trimming,
      replacing quotes) acts on ASCII delimiters, which never occur inside
      a multi-byte sequence, so the operations commute with the encoding.
      [Buffer.toString('utf8')] followed by a write of the resulting text
      is the identity on well-formed UTF-8, and is modelled as such.
    - A value produced by [JSON.parse] is a [value]; the property list of
      an object is kept in the order [Object.entries] enumerates it.
    - Code that may throw returns an [outcome]; code with effects on the
      file system or the console runs in the monad [M].
    - In [copyDocs], [finishArchive] and the loops the file system accepts
      every call.  [copyDocsStrict] and [finishArchiveStrict] are the same
      code on a file system that refuses a path that has to be a file and
      a folder at once.  The data of every entry of an archive that was
      opened can be read: a damaged entry has no counterpart. *)

From Stdlib Require Import String Ascii List Bool Arith ZArith NArith Lia.
From Stdlib Require Import DecimalString.
Import ListNotations.

Local Open Scope list_scope.
Local Open Scope string_scope.

(** ** Characters *)

Definition dq : ascii := "034"%char.
Definition sq : ascii := "039"%char.
Definition nl : string := String "010"%char "".
Definition backslash : ascii := "092"%char.

Definition code (c : ascii) : nat := nat_of_ascii c.

Definition between (lo hi : nat) (c : ascii) : bool :=
  (lo <=? code c)%nat && (code c <=? hi)%nat.

Definition byte_is (n : nat) (c : ascii) : bool := (code c =? n)%nat.

(** ** String built-ins of the runtime *)

Module Js.

(** [s.startsWith(p)] *)
Definition startsWith (s p : string) : bool := String.prefix p s.

(** [s.endsWith(p)] *)
Fixpoint endsWith (s p : string) : bool :=
  (s =? p)%string ||
  match s with
  | EmptyString => false
  | String _ r => endsWith r p
  end.

(** [s.toLowerCase()].  Only the letters A to Z change among the ASCII
    characters.  A character outside ASCII is lowered to characters outside
    ASCII, with two exceptions (U+212A to k, U+0130 to i followed by
    U+0307) that cannot produce any of the file names the script compares
    against; its bytes are left as they are. *)
Definition lower (c : ascii) : ascii :=
  if between 65 90 c then ascii_of_nat (code c + 32) else c.

Fixpoint toLowerCase (s : string) : string :=
  match s with
  | EmptyString => EmptyString
  | String c r => String (lower c) (toLowerCase r)
  end.

(** [s.substring(n)] *)
Fixpoint substring_from (n : nat) (s : string) : string :=
  match n, s with
  | 0, _ => s
  | S _, EmptyString => EmptyString
  | S n', String _ r => substring_from n' r
  end.

Fixpoint dropLast (s : string) : string :=
  match s with
  | EmptyString => EmptyString
  | String c EmptyString => EmptyString
  | String c r => String c (dropLast r)
  end.

(** [s.slice(1, -1)] *)
Definition slice_1_m1 (s : string) : string := dropLast (substring_from 1 s).

(** [s.split(sep)] for a one-character separator. *)
Fixpoint split (sep : ascii) (s : string) : list string :=
  match s with
  | EmptyString => [EmptyString]
  | String c r =>
      if Ascii.eqb c sep then EmptyString :: split sep r
      else match split sep r with
           | [] => [String c EmptyString]
           | h :: t => String c h :: t
           end
  end.

(** [l.join(sep)] on strings. *)
Definition join (sep : string) (l : list string) : string := String.concat sep l.

(** [s.replace(/c/g, by)] for a one-character pattern. *)
Fixpoint replaceAll (c : ascii) (by_ : string) (s : string) : string :=
  match s with
  | EmptyString => EmptyString
  | String a r =>
      if Ascii.eqb a c then by_ ++ replaceAll c by_ r
      else String a (replaceAll c by_ r)
  end.

(** The class [\s] of regular expressions, which is also what [trim]
    removes: TAB, LF, VT, FF, CR, SP as single bytes, and the encodings of
    U+00A0, U+1680, U+2000 to U+200A, U+2028, U+2029, U+202F, U+205F,
    U+3000 and U+FEFF. *)
Definition space1 (a : ascii) : bool :=
  between 9 13 a || byte_is 32 a.

Definition space2 (a b : ascii) : bool :=
  byte_is 194 a && byte_is 160 b.

Definition space3 (a b c : ascii) : bool :=
  (byte_is 225 a && byte_is 154 b && byte_is 128 c)
  || (byte_is 226 a && byte_is 128 b
      && (between 128 138 c || byte_is 168 c || byte_is 169 c || byte_is 175 c))
  || (byte_is 226 a && byte_is 129 b && byte_is 159 c)
  || (byte_is 227 a && byte_is 128 b && byte_is 128 c)
  || (byte_is 239 a && byte_is 187 b && byte_is 191 c).

(** A string cut into white-space characters (with their bytes) and
    other bytes. *)
Inductive piece : Type :=
| Space (raw : string)
| Other (c : ascii).

Fixpoint pieces (s : string) : list piece :=
  match s with
  | EmptyString => []
  | String a r =>
      if space1 a then Space (String a "") :: pieces r
      else
        match r with
        | String b r2 =>
            if space2 a b then Space (String a (String b "")) :: pieces r2
            else
              match r2 with
              | String c r3 =>
                  if space3 a b c
                  then Space (String a (String b (String c ""))) :: pieces r3
                  else Other a :: pieces r
              | EmptyString => Other a :: pieces r
              end
        | EmptyString => Other a :: pieces r
        end
  end.

Fixpoint unpieces (ps : list piece) : string :=
  match ps with
  | [] => EmptyString
  | Space raw :: r => raw ++ unpieces r
  | Other c :: r => String c (unpieces r)
  end.

(** [s.replace(/\s+/g, ' ')] *)
Fixpoint collapse (inrun : bool) (ps : list piece) : string :=
  match ps with
  | [] => EmptyString
  | Space _ :: r => if inrun then collapse true r else String " " (collapse true r)
  | Other c :: r => String c (collapse false r)
  end.

Definition collapseSpaces (s : string) : string := collapse false (pieces s).

Fixpoint dropSpaces (ps : list piece) : list piece :=
  match ps with
  | Space _ :: r => dropSpaces r
  | _ => ps
  end.

(** [s.trim()] *)
Definition trim (s : string) : string :=
  unpieces (rev (dropSpaces (rev (dropSpaces (pieces s))))).

(** The replacement of [k.trim().replace(...)] in the fallback branch of
    the normaliser, whose pattern is: a single or double quote at the very
    start, or a single or double quote at the very end.  With the global
    flag a quote at the start is removed, and a quote at the end of what is
    left. *)
Definition is_quote (c : ascii) : bool := Ascii.eqb c sq || Ascii.eqb c dq.

Fixpoint stripTrailingQuote (s : string) : string :=
  match s with
  | EmptyString => EmptyString
  | String c EmptyString => if is_quote c then EmptyString else s
  | String c r => String c (stripTrailingQuote r)
  end.

Definition stripQuotes (s : string) : string :=
  stripTrailingQuote
    match s with
    | String c r => if is_quote c then r else s
    | EmptyString => EmptyString
    end.

(** Line terminators, which [.] does not match in a regular expression:
    LF, CR, U+2028, U+2029. *)
Fixpoint hasLineTerminator (s : string) : bool :=
  match s with
  | EmptyString => false
  | String a r =>
      byte_is 10 a || byte_is 13 a
      || match r with
         | String b (String c _) =>
             byte_is 226 a && byte_is 128 b && (byte_is 168 c || byte_is 169 c)
         | _ => false
         end
      || hasLineTerminator r
  end.

End Js.

(** ** Values of the runtime *)

(** A number literal of JSON, kept exactly: [(-1)^negative * mantissa *
    10^exponent].  The runtime rounds a literal to the nearest double; the
    model stands for it within the precision and the range of doubles. *)
Record number : Type := mkNumber {
  negative : bool;
  mantissa : N;
  exponent : Z
}.

Unset Elimination Schemes.
Inductive value : Type :=
| Undefined
| Null
| Bool (b : bool)
| Num (n : number)
| Str (s : string)
| Arr (elems : list value)
| Obj (props : list (string * value)).
Set Elimination Schemes.

Inductive exn : Type :=
| TypeError
| InvalidZip
| ReadError
| WriteError.

Inductive outcome (A : Type) : Type :=
| Ok (a : A)
| Throw (e : exn).
Arguments Ok {A} a.
Arguments Throw {A} e.

Definition emptyObject : value := Obj [].

Module Num.

Definition decimal (n : N) : string := NilZero.string_of_uint (N.to_uint n).

Fixpoint zeros (n : nat) : string :=
  match n with
  | 0 => EmptyString
  | S n' => String "0" (zeros n')
  end.

(** The digits of a mantissa without its trailing zeros, and how many
    were removed. *)
Fixpoint stripZeros (rev_digits : list ascii) : list ascii * nat :=
  match rev_digits with
  | c :: r =>
      if Ascii.eqb c "0" then let '(d, z) := stripZeros r in (d, S z)
      else (rev_digits, 0)
  | [] => ([], 0)
  end.

(** [Number.prototype.toString], on the decimal the literal denotes.  The
    runtime prints the shortest decimal that reads back as the same double;
    for a literal of at most fifteen significant digits within the range of
    doubles that is the literal's own value, which is what is printed
    here. *)
Definition toString (x : number) : string :=
  if (mantissa x =? 0)%N then "0"
  else
    let '(rd, z) := stripZeros (rev (list_ascii_of_string (decimal (mantissa x)))) in
    let ds := string_of_list_ascii (rev rd) in
    let k := Z.of_nat (String.length ds) in
    let n := (k + exponent x + Z.of_nat z)%Z in
    let body :=
      if ((k <=? n) && (n <=? 21))%Z then ds ++ zeros (Z.to_nat (n - k))
      else if ((0 <? n) && (n <=? 21))%Z then
        String.substring 0 (Z.to_nat n) ds ++ "."
        ++ Js.substring_from (Z.to_nat n) ds
      else if ((-6 <? n) && (n <=? 0))%Z then "0." ++ zeros (Z.to_nat (- n)) ++ ds
      else
        let e := (n - 1)%Z in
        let es := (if (0 <=? e)%Z then "+" else "-") ++ decimal (Z.abs_N e) in
        match ds with
        | String d EmptyString => String d ("e" ++ es)
        | String d r => String d ("." ++ r ++ "e" ++ es)
        | EmptyString => EmptyString
        end
    in (if negative x then "-" else "") ++ body.

End Num.

(** [String(v)], the conversion a template literal and [join] apply.  An
    array prints its elements separated by commas, [null] and [undefined]
    elements as nothing. *)
Fixpoint toString (v : value) : string :=
  match v with
  | Undefined => "undefined"
  | Null => "null"
  | Bool true => "true"
  | Bool false => "false"
  | Num n => Num.toString n
  | Str s => s
  | Arr l =>
      Js.join ","
        (map (fun x => match x with
                       | Undefined | Null => EmptyString
                       | _ => toString x
                       end) l)
  | Obj _ => "[object Object]"
  end.

Definition elemToString (v : value) : string :=
  match v with
  | Undefined | Null => EmptyString
  | _ => toString v
  end.

(** [l.join(sep)] on an array of values. *)
Definition joinValues (sep : string) (l : list value) : string :=
  Js.join sep (map elemToString l).

(** Truthiness, as tested by [if (v)], [!v], [v || d] and [v ? a : b]. *)
Definition truthy (v : value) : bool :=
  match v with
  | Undefined | Null => false
  | Bool b => b
  | Num n => negb (mantissa n =? 0)%N
  | Str s => negb (s =? "")%string
  | Arr _ | Obj _ => true
  end.

Fixpoint lookup (k : string) (l : list (string * value)) : value :=
  match l with
  | [] => Undefined
  | (k', v) :: r => if (k' =? k)%string then v else lookup k r
  end.

(** [v.k] for the property names the script reads (keywords, homepage,
    license, description, arguments), none of which is defined on the
    prototype of objects, arrays, strings, numbers or booleans. *)
Definition get (v : value) (k : string) : outcome value :=
  match v with
  | Undefined | Null => Throw TypeError
  | Obj l => Ok (lookup k l)
  | _ => Ok Undefined
  end.

Definition indexKey (i : nat) : string := Num.decimal (N.of_nat i).

Fixpoint indexed {A : Type} (i : nat) (l : list A) : list (string * A) :=
  match l with
  | [] => []
  | x :: r => (indexKey i, x) :: indexed (S i) r
  end.

(** [Object.entries(v)] where the script calls it, that is on a truthy
    value: the properties of an object, the indexed elements of an array
    or of a string, nothing for a number or a boolean. *)
Definition entries (v : value) : list (string * value) :=
  match v with
  | Obj l => l
  | Arr l => indexed 0 l
  | Str s => indexed 0 (map (fun c => Str (String c "")) (list_ascii_of_string s))
  | _ => []
  end.

(** ** [JSON.parse] *)

Module Json.

Definition is_ws (c : ascii) : bool :=
  byte_is 32 c || byte_is 9 c || byte_is 10 c || byte_is 13 c.

Fixpoint skipWs (s : string) : string :=
  match s with
  | String c r => if is_ws c then skipWs r else s
  | EmptyString => EmptyString
  end.

(** The rest of [s] after the literal [lit], when [s] starts with it. *)
Fixpoint expect (lit s : string) : option string :=
  match lit, s with
  | EmptyString, _ => Some s
  | String a l', String b s' => if Ascii.eqb a b then expect l' s' else None
  | String _ _, EmptyString => None
  end.

Definition is_digit (c : ascii) : bool := between 48 57 c.

Fixpoint takeDigits (s : string) : string * string :=
  match s with
  | String c r =>
      if is_digit c then let '(d, rest) := takeDigits r in (String c d, rest)
      else (EmptyString, s)
  | EmptyString => (EmptyString, EmptyString)
  end.

Fixpoint digitsValue (acc : N) (s : string) : N :=
  match s with
  | String c r => digitsValue (acc * 10 + N.of_nat (code c - 48)) r
  | EmptyString => acc
  end.

(** Integer part of a number: a single 0, or a digit from 1 to 9 followed
    by digits. *)
Definition takeInt (s : string) : option (string * string) :=
  match s with
  | String c r =>
      if byte_is 48 c then Some ("0", r)
      else if is_digit c then Some (takeDigits s)
      else None
  | EmptyString => None
  end.

Definition takeFraction (s : string) : option (string * string) :=
  match s with
  | String "." r =>
      match takeDigits r with
      | (EmptyString, _) => None
      | (d, rest) => Some (d, rest)
      end
  | _ => Some (EmptyString, s)
  end.

Definition takeExponent (s : string) : option (Z * string) :=
  match s with
  | String c r =>
      if Ascii.eqb c "e" || Ascii.eqb c "E" then
        let '(minus, r1) :=
          match r with
          | String "-" r' => (true, r')
          | String "+" r' => (false, r')
          | _ => (false, r)
          end in
        match takeDigits r1 with
        | (EmptyString, _) => None
        | (d, rest) =>
            let e := Z.of_N (digitsValue 0 d) in
            Some (if minus then (- e)%Z else e, rest)
        end
      else Some (0%Z, s)
  | EmptyString => Some (0%Z, s)
  end.

Definition parseNumber (s : string) : option (number * string) :=
  let '(minus, s1) :=
    match s with
    | String "-" r => (true, r)
    | _ => (false, s)
    end in
  match takeInt s1 with
  | None => None
  | Some (i, s2) =>
      match takeFraction s2 with
      | None => None
      | Some (f, s3) =>
          match takeExponent s3 with
          | None => None
          | Some (e, s4) =>
              Some (mkNumber minus (digitsValue 0 (i ++ f))
                      (e - Z.of_nat (String.length f)), s4)
          end
      end
  end.

(** *** String literals *)

Definition hexValue (c : ascii) : option N :=
  if is_digit c then Some (N.of_nat (code c - 48))
  else if between 97 102 c then Some (N.of_nat (code c - 87))
  else if between 65 70 c then Some (N.of_nat (code c - 55))
  else None.

Definition hex4 (a b c d : ascii) : option N :=
  match hexValue a, hexValue b, hexValue c, hexValue d with
  | Some x, Some y, Some z, Some w => Some (((x * 16 + y) * 16 + z) * 16 + w)%N
  | _, _, _, _ => None
  end.

(** What a string literal is made of: a byte of the text, or the code
    unit of a [\uXXXX] escape. *)
Inductive unit16 : Type :=
| Raw (c : ascii)
| Esc (cu : N).

Fixpoint literalUnits (s : string) : option (list unit16 * string) :=
  match s with
  | EmptyString => None
  | String c r =>
      if Ascii.eqb c dq then Some ([], r)
      else if Ascii.eqb c backslash then
        match r with
        | String e r2 =>
            let simple (b : ascii) :=
              match literalUnits r2 with
              | Some (u, rest) => Some (Raw b :: u, rest)
              | None => None
              end in
            if Ascii.eqb e dq then simple dq
            else if Ascii.eqb e backslash then simple backslash
            else if Ascii.eqb e "/" then simple "/"%char
            else if Ascii.eqb e "b" then simple "008"%char
            else if Ascii.eqb e "f" then simple "012"%char
            else if Ascii.eqb e "n" then simple "010"%char
            else if Ascii.eqb e "r" then simple "013"%char
            else if Ascii.eqb e "t" then simple "009"%char
            else if Ascii.eqb e "u" then
              match r2 with
              | String h1 (String h2 (String h3 (String h4 r6))) =>
                  match hex4 h1 h2 h3 h4, literalUnits r6 with
                  | Some cu, Some (u, rest) => Some (Esc cu :: u, rest)
                  | _, _ => None
                  end
              | _ => None
              end
            else None
        | EmptyString => None
        end
      else if (code c <? 32)%nat then None
      else
        match literalUnits r with
        | Some (u, rest) => Some (Raw c :: u, rest)
        | None => None
        end
  end.

Definition byteOf (n : N) : ascii := ascii_of_N n.

(** UTF-8 of a code point (a lone surrogate keeps its three-byte form). *)
Definition utf8 (cp : N) : list ascii :=
  if (cp <? 128)%N then [byteOf cp]
  else if (cp <? 2048)%N then
    [byteOf (192 + cp / 64); byteOf (128 + cp mod 64)]
  else if (cp <? 65536)%N then
    [byteOf (224 + cp / 4096); byteOf (128 + (cp / 64) mod 64);
     byteOf (128 + cp mod 64)]
  else
    [byteOf (240 + cp / 262144); byteOf (128 + (cp / 4096) mod 64);
     byteOf (128 + (cp / 64) mod 64); byteOf (128 + cp mod 64)].

Definition isHigh (cu : N) : bool := (55296 <=? cu)%N && (cu <=? 56319)%N.
Definition isLow (cu : N) : bool := (56320 <=? cu)%N && (cu <=? 57343)%N.

Fixpoint encodeUnits (l : list unit16) : list ascii :=
  match l with
  | [] => []
  | Raw c :: r => c :: encodeUnits r
  | Esc hi :: r =>
      match r with
      | Esc lo :: r' =>
          if isHigh hi && isLow lo
          then (utf8 (65536 + (hi - 55296) * 1024 + (lo - 56320)) ++ encodeUnits r')%list
          else (utf8 hi ++ encodeUnits r)%list
      | _ => (utf8 hi ++ encodeUnits r)%list
      end
  end.

(** The text of a string literal, read after its opening quote. *)
Definition parseString (s : string) : option (string * string) :=
  match literalUnits s with
  | Some (u, rest) => Some (string_of_list_ascii (encodeUnits u), rest)
  | None => None
  end.

(** *** Objects: the order of properties

    [JSON.parse] defines the members of an object in the order of the
    text.  A name that is already defined keeps its place and takes the new
    value; a new name that is an array index (the decimal form of an integer
    below 2^32 - 1) is enumerated with the other array indices, in
    ascending order and before every other name; any other new name is
    enumerated last. *)

Definition arrayIndex (k : string) : option N :=
  match k with
  | EmptyString => None
  | String c r =>
      if forallb is_digit (list_ascii_of_string k)
         && (negb (byte_is 48 c) || (r =? "")%string)
      then
        let n := digitsValue 0 k in
        if (n <? 4294967295)%N then Some n else None
      else None
  end.

Fixpoint hasKey (k : string) (l : list (string * value)) : bool :=
  match l with
  | [] => false
  | (k', _) :: r => (k' =? k)%string || hasKey k r
  end.

Fixpoint replaceKey (k : string) (v : value) (l : list (string * value))
  : list (string * value) :=
  match l with
  | [] => []
  | (k', v') :: r =>
      if (k' =? k)%string then (k', v) :: r else (k', v') :: replaceKey k v r
  end.

Fixpoint insertIndex (i : N) (k : string) (v : value) (l : list (string * value))
  : list (string * value) :=
  match l with
  | [] => [(k, v)]
  | (k', v') :: r =>
      match arrayIndex k' with
      | Some j => if (j <? i)%N then (k', v') :: insertIndex i k v r
                  else (k, v) :: l
      | None => (k, v) :: l
      end
  end.

Definition define (l : list (string * value)) (kv : string * value)
  : list (string * value) :=
  let '(k, v) := kv in
  if hasKey k l then replaceKey k v l
  else match arrayIndex k with
       | Some i => insertIndex i k v l
       | None => (l ++ [(k, v)])%list
       end.

Definition object (members : list (string * value)) : value :=
  Obj (fold_left define members []).

(** *** Values *)

Fixpoint parseValue (fuel : nat) (s : string) {struct fuel}
  : option (value * string) :=
  match fuel with
  | 0 => None
  | S fuel' =>
      match skipWs s with
      | EmptyString => None
      | String c r =>
          if Ascii.eqb c "n" then option_map (pair Null) (expect "ull" r)
          else if Ascii.eqb c "t" then option_map (pair (Bool true)) (expect "rue" r)
          else if Ascii.eqb c "f" then option_map (pair (Bool false)) (expect "alse" r)
          else if Ascii.eqb c dq then
            match parseString r with
            | Some (t, rest) => Some (Str t, rest)
            | None => None
            end
          else if Ascii.eqb c "[" then
            match skipWs r with
            | String "]" rest => Some (Arr [], rest)
            | _ =>
                match parseElements fuel' r with
                | Some (l, rest) => Some (Arr l, rest)
                | None => None
                end
            end
          else if Ascii.eqb c "{" then
            match skipWs r with
            | String "}" rest => Some (Obj [], rest)
            | _ =>
                match parseMembers fuel' r with
                | Some (l, rest) => Some (object l, rest)
                | None => None
                end
            end
          else
            match parseNumber (String c r) with
            | Some (n, rest) => Some (Num n, rest)
            | None => None
            end
      end
  end

with parseElements (fuel : nat) (s : string) {struct fuel}
  : option (list value * string) :=
  match fuel with
  | 0 => None
  | S fuel' =>
      match parseValue fuel' s with
      | None => None
      | Some (v, r) =>
          match skipWs r with
          | String c r' =>
              if Ascii.eqb c "," then
                match parseElements fuel' r' with
                | Some (l, rest) => Some (v :: l, rest)
                | None => None
                end
              else if Ascii.eqb c "]" then Some ([v], r')
              else None
          | EmptyString => None
          end
      end
  end

with parseMembers (fuel : nat) (s : string) {struct fuel}
  : option (list (string * value) * string) :=
  match fuel with
  | 0 => None
  | S fuel' =>
      match skipWs s with
      | String c r =>
          if Ascii.eqb c dq then
            match parseString r with
            | None => None
            | Some (k, r1) =>
                match skipWs r1 with
                | String ":" r2 =>
                    match parseValue fuel' r2 with
                    | None => None
                    | Some (v, r3) =>
                        match skipWs r3 with
                        | String d r4 =>
                            if Ascii.eqb d "," then
                              match parseMembers fuel' r4 with
                              | Some (l, rest) => Some ((k, v) :: l, rest)
                              | None => None
                              end
                            else if Ascii.eqb d "}" then Some ([(k, v)], r4)
                            else None
                        | EmptyString => None
                        end
                    end
                | _ => None
                end
            end
          else None
      | EmptyString => None
      end
  end.

(** [JSON.parse(text)]: the value, or [None] where the runtime throws a
    [SyntaxError].  Every call of the parser on a shorter text takes one
    unit of fuel, and two calls in a row read at least one character. *)
Definition parse (text : string) : option value :=
  match parseValue (2 * String.length text + 2) text with
  | Some (v, rest) =>
      match skipWs rest with
      | EmptyString => Some v
      | _ => None
      end
  | None => None
  end.

End Json.

(** ** [path] (POSIX) *)

Module Path.

(** [normalizeString(path, allowAboveRoot)] on the segments of a path. *)
Fixpoint normalizeSegments (allowAboveRoot : bool) (acc segs : list string)
  : list string :=
  match segs with
  | [] => rev acc
  | seg :: r =>
      if (seg =? "") || (seg =? ".") then normalizeSegments allowAboveRoot acc r
      else if seg =? ".." then
        match acc with
        | top :: acc' =>
            if top =? ".." then normalizeSegments allowAboveRoot (seg :: acc) r
            else normalizeSegments allowAboveRoot acc' r
        | [] =>
            if allowAboveRoot then normalizeSegments allowAboveRoot [seg] r
            else normalizeSegments allowAboveRoot [] r
        end
      else normalizeSegments allowAboveRoot (seg :: acc) r
  end.

Definition isAbsolute (p : string) : bool := Js.startsWith p "/".

(** [path.normalize(p)] *)
Definition normalize (p : string) : string :=
  if p =? "" then "."
  else
    let body :=
      Js.join "/" (normalizeSegments (negb (isAbsolute p)) [] (Js.split "/" p)) in
    let trailing := Js.endsWith p "/" in
    if body =? "" then
      if isAbsolute p then "/" else if trailing then "./" else "."
    else
      (if isAbsolute p then "/" else "") ++ body ++ (if trailing then "/" else "").

(** [path.join(...parts)] *)
Definition join (parts : list string) : string :=
  match filter (fun x => negb (x =? "")) parts with
  | [] => "."
  | l => normalize (Js.join "/" l)
  end.

(** [path.resolve(base, rel)] for an absolute [base]. *)
Definition resolve (base rel : string) : string :=
  let p := if isAbsolute rel then rel else base ++ "/" ++ rel in
  "/" ++ Js.join "/" (normalizeSegments false [] (Js.split "/" p)).

Fixpoint dropWhile {A : Type} (f : A -> bool) (l : list A) : list A :=
  match l with
  | x :: r => if f x then dropWhile f r else l
  | [] => []
  end.

(** [path.dirname(p)] *)
Definition dirname (p : string) : string :=
  match p with
  | EmptyString => "."
  | String c r =>
      let isSlash := Ascii.eqb "/"%char in
      let back := dropWhile (fun x => negb (isSlash x))
                    (dropWhile isSlash (rev (list_ascii_of_string r))) in
      match back with
      | [] => if isSlash c then "/" else "."
      | _ :: before =>
          match before with
          | [] => if isSlash c then "//" else String c ""
          | _ => String c (string_of_list_ascii (rev before))
          end
      end
  end.

End Path.

(** ** The registry and the archives *)

Record VersionRecord : Type := {
  path : string;
  dependencies : list string
}.

Record PackageRecord : Type := {
  description : string;
  owners : list string;
  versions : list (string * VersionRecord);
  latest : string
}.

(** [index.json], as [Object.entries] enumerates it. *)
Definition Registry : Type := list (string * PackageRecord).

(** An entry of an archive, as [adm-zip] presents it, with the data
    [getData] returns: an entry whose data cannot be read is not
    represented. *)
Record ZipEntry : Type := {
  entryName : string;
  isDirectory : bool;
  getData : string
}.

(** What is found at the path of an archive: a zip container with its
    entries in their order, or something [adm-zip] cannot open. *)
Inductive file : Type :=
| Archive (zipEntries : list ZipEntry)
| Unreadable.

(** What the script reads.  The archives are outside the content
    directory, which is the only place the script writes to. *)
Record Env : Type := {
  scriptDir : string;
  indexJson : outcome Registry;
  disk : string -> option file
}.

Definition REGISTRY_ROOT (env : Env) : string := Path.resolve (scriptDir env) "../../".
Definition SITE_ROOT (env : Env) : string := Path.resolve (scriptDir env) "../".
Definition CONTENT_DIR (env : Env) : string :=
  Path.join [SITE_ROOT env; "src/content/packages"].

(** ** What the script writes *)

Record Metadata : Type := {
  m_name : string;
  m_version : string;
  m_description : string;
  m_owners : list string;
  m_dependencies : list string;
  m_latest : bool;
  m_hasDocs : bool;
  m_keywords : value;
  m_homepage : value;
  m_license : value;
  m_searchIndex : string;
  m_functions : value
}.

Inductive content : Type :=
| Bytes (data : string)
| MetadataJson (m : Metadata).

Inductive message : Type :=
| Warn (text : string)
| Error (e : exn).

(** The directories made, the files written (in the order of the writes)
    and the lines sent to the console. *)
Record World : Type := {
  dirs : list string;
  files : list (string * content);
  console : list message
}.

Definition emptyWorld : World := {| dirs := []; files := []; console := [] |}.

(** ** Effects *)

Definition M (A : Type) : Type := World -> outcome A * World.

Definition ret {A : Type} (a : A) : M A := fun w => (Ok a, w).

Definition bind {A B : Type} (m : M A) (k : A -> M B) : M B :=
  fun w =>
    match m w with
    | (Ok a, w') => k a w'
    | (Throw e, w') => (Throw e, w')
    end.

Definition lift {A : Type} (o : outcome A) : M A := fun w => (o, w).

Declare Scope m_scope.
Delimit Scope m_scope with M.
Notation "x <- m ;; k" := (bind m (fun x => k))
  (at level 61, m at next level, right associativity) : m_scope.
Notation "m ;; k" := (bind m (fun _ => k))
  (at level 61, right associativity) : m_scope.
Local Open Scope m_scope.

(** [for (const x of l) body(x)] *)
Fixpoint forEach {A : Type} (l : list A) (body : A -> M unit) : M unit :=
  match l with
  | [] => ret tt
  | x :: r => body x ;; forEach r body
  end.

Definition obind {A B : Type} (o : outcome A) (k : A -> outcome B) : outcome B :=
  match o with
  | Ok a => k a
  | Throw e => Throw e
  end.

Definition mkdir (p : string) (w : World) : World :=
  if existsb (String.eqb p) (dirs w) then w
  else {| dirs := (dirs w ++ [p])%list; files := files w; console := console w |}.

Definition under (dir p : string) : bool := Js.startsWith p (dir ++ "/").

Definition cleared (p : string) (w : World) : World :=
  {| dirs := filter (fun d => negb (under p d)) (dirs w);
     files := filter (fun f => negb (under p (fst f))) (files w);
     console := console w |}.

Definition written (p : string) (c : content) (w : World) : World :=
  {| dirs := dirs w; files := (files w ++ [(p, c)])%list; console := console w |}.

Definition said (m : message) (w : World) : World :=
  {| dirs := dirs w; files := files w; console := (console w ++ [m])%list |}.

(** The calls of [fs-extra] and [fs], on a file system that accepts
    them all; [ensureDirStrict] and [writeFileStrict] below are the calls
    on a file system that refuses a path that has to be a file and a
    folder at once. *)
Definition ensureDir (p : string) : M unit := fun w => (Ok tt, mkdir p w).
Definition emptyDir (p : string) : M unit := fun w => (Ok tt, cleared p w).
Definition writeFile (p : string) (c : content) : M unit := fun w => (Ok tt, written p c w).
Definition say (m : message) : M unit := fun w => (Ok tt, said m w).
Definition warn (text : string) : M unit := say (Warn text).

Notation "'let?' x := o 'in' k" := (obind o (fun x => k))
  (at level 10, x name, o at level 100, k at level 200).

(** ** The script *)

(** *** [generateApiDocs] *)

Definition argumentLine (arg : string * value) : outcome string :=
  let '(argName, argDef) := arg in
  let? d := get argDef "description" in
  Ok ("- `" ++ argName ++ "`: " ++ toString (if truthy d then d else Str "") ++ nl).

Fixpoint argumentLines (args : list (string * value)) : outcome string :=
  match args with
  | [] => Ok ""
  | a :: r =>
      let? line := argumentLine a in
      let? rest := argumentLines r in
      Ok (line ++ rest)
  end.

Definition functionDoc (func : string * value) : outcome string :=
  let '(funcName, funcDef) := func in
  let? d := get funcDef "description" in
  let head :=
    "### `" ++ funcName ++ "`" ++ nl ++ nl
    ++ toString (if truthy d then d else Str "No description provided.")
    ++ nl ++ nl in
  let? a := get funcDef "arguments" in
  if truthy a && (0 <? List.length (entries a))%nat then
    let? lines := argumentLines (entries a) in
    Ok (head ++ "**Arguments**:" ++ nl ++ lines ++ nl)
  else Ok head.

Fixpoint functionDocs (funcs : list (string * value)) : outcome string :=
  match funcs with
  | [] => Ok ""
  | f :: r =>
      let? doc := functionDoc f in
      let? rest := functionDocs r in
      Ok (doc ++ rest)
  end.

Definition generateApiDocs (functionsData : value) : outcome string :=
  if negb (truthy functionsData) then Ok ""
  else
    let? docs := functionDocs (entries functionsData) in
    Ok ("## API Reference" ++ nl ++ nl ++ docs).

(** *** The front matter shared by both kinds of page *)

Definition hexDigit (n : nat) : ascii :=
  if (n <? 10)%nat then ascii_of_nat (48 + n) else ascii_of_nat (87 + n).

(** [JSON.stringify] of one character of a string. *)
Definition escapeChar (c : ascii) : string :=
  if Ascii.eqb c dq then String backslash (String dq "")
  else if Ascii.eqb c backslash then String backslash (String backslash "")
  else if byte_is 8 c then String backslash "b"
  else if byte_is 12 c then String backslash "f"
  else if byte_is 10 c then String backslash "n"
  else if byte_is 13 c then String backslash "r"
  else if byte_is 9 c then String backslash "t"
  else if (code c <? 32)%nat then
    String backslash
      ("u00" ++ String (hexDigit (code c / 16)) (String (hexDigit (code c mod 16)) ""))
  else String c "".

Fixpoint escapeString (s : string) : string :=
  match s with
  | EmptyString => EmptyString
  | String c r => escapeChar c ++ escapeString r
  end.

(** [JSON.stringify(l)] for an array of strings. *)
Definition stringify (l : list string) : string :=
  "[" ++ Js.join "," (map (fun x => String dq (escapeString x ++ String dq "")) l) ++ "]".

Definition optionalLine (label : string) (v : value) : string :=
  if truthy v then nl ++ label ++ ": " ++ toString v else "".

(** The text both templates start with. *)
Definition frontBlock (pkgName version description : string) (isLatest : bool)
    (keywords homepage license : value) (searchIndex : string)
    (deps : list string) : string :=
  "---" ++ nl
  ++ "title: " ++ pkgName ++ nl
  ++ "version: " ++ version ++ nl
  ++ "description: " ++ description ++ nl
  ++ "latest: " ++ (if isLatest then "true" else "false")
  ++ optionalLine "keywords" keywords
  ++ optionalLine "homepage" homepage
  ++ optionalLine "license" license ++ nl
  ++ "searchIndex: "
  ++ String dq (Js.replaceAll dq (String backslash (String dq "")) searchIndex
                ++ String dq "") ++ nl
  ++ "dependencies: " ++ stringify deps ++ nl
  ++ "---" ++ nl ++ nl.

Definition frontmatter (pkgName version : string) (pkgData : PackageRecord)
    (versionData : VersionRecord) (projectConfig : value)
    (searchIndex : string) (isLatest : bool) : outcome string :=
  let? keywords := get projectConfig "keywords" in
  let? homepage := get projectConfig "homepage" in
  let? license := get projectConfig "license" in
  Ok (frontBlock pkgName version (description pkgData) isLatest
        keywords homepage license searchIndex (dependencies versionData)).

(** *** [synthesizeReadme] *)

Definition is_name_char (c : ascii) : bool :=
  between 97 122 c || between 65 90 c || between 48 57 c || byte_is 45 c.

Fixpoint takeName (s : string) : string :=
  match s with
  | String c r => if is_name_char c then String c (takeName r) else EmptyString
  | EmptyString => EmptyString
  end.

(** [match[1]] of [d.match(re)], [re] being the pattern of the script:
    at the start, one or more letters, digits or hyphens, as many as there
    are (group 1); then optionally the two characters greater-than and
    equals, or an at sign; then any characters but line terminators (group
    2); then the end.  The match exists when [d] starts with a character
    of group 1 and holds no line terminator. *)
Definition matchName (d : string) : option string :=
  if (takeName d =? "") || Js.hasLineTerminator d then None
  else Some (takeName d).

Definition depName (d : string) : string :=
  match matchName d with
  | Some name => name
  | None => d
  end.

Definition dependencyLink (d : string) : string :=
  "- [" ++ d ++ "](/packages/" ++ depName d ++ ")".

(** The constant [deps] of [synthesizeReadme]. *)
Definition dependencyText (deps : list string) : string :=
  if (0 <? List.length deps)%nat then Js.join nl (map dependencyLink deps)
  else "_No dependencies_".

Definition callout : string :=
  "<div class=" ++ String dq ("auto-doc-callout" ++ String dq (">" ++ nl))
  ++ "This package does not have a custom README. This page was automatically generated from package metadata."
  ++ nl ++ "</div>" ++ nl.

Definition synthesizeReadme (name version : string) (pkgData : PackageRecord)
    (versionData : VersionRecord) (functionsData projectConfig : value)
    (searchIndex : string) (isLatest : bool) : outcome string :=
  let deps := dependencyText (dependencies versionData) in
  let? front :=
    frontmatter name version pkgData versionData projectConfig searchIndex isLatest in
  let? api := generateApiDocs functionsData in
  Ok (front ++ api ++ nl ++ nl ++ callout).

(** *** [extractDocs]: reading one archive *)

(** [zipEntries.find(e => e.entryName.toLowerCase() === name)] *)
Definition findEntry (name : string) (zipEntries : list ZipEntry) : option ZipEntry :=
  find (fun e => Js.toLowerCase (entryName e) =? name) zipEntries.

Definition readReadme (zipEntries : list ZipEntry) : string :=
  match findEntry "readme.md" zipEntries with
  | Some readmeEntry => getData readmeEntry
  | None => ""
  end.

Definition projectWarning (pkgName version : string) : string :=
  "failed to parse __GSPROJECT__.json for " ++ pkgName ++ "@" ++ version.

Definition functionsWarning (pkgName version : string) : string :=
  "failed to parse functions.json for " ++ pkgName ++ "@" ++ version.

Definition readProjectConfig (pkgName version : string) (zipEntries : list ZipEntry)
  : M value :=
  match findEntry "__gsproject__.json" zipEntries with
  | Some projectEntry =>
      match Json.parse (getData projectEntry) with
      | Some v => ret v
      | None =>
          warn (projectWarning pkgName version) ;;
          ret emptyObject
      end
  | None => ret emptyObject
  end.

Definition readFunctions (pkgName version : string) (zipEntries : list ZipEntry)
  : M value :=
  match findEntry "functions.json" zipEntries with
  | Some functionsEntry =>
      match Json.parse (getData functionsEntry) with
      | Some v => ret v
      | None =>
          warn (functionsWarning pkgName version) ;;
          ret Null
      end
  | None => ret Null
  end.

Definition isDocFile (entry : ZipEntry) : bool :=
  Js.startsWith (entryName entry) "docs/" && negb (isDirectory entry).

Definition docTarget (outputDir : string) (entry : ZipEntry) : string :=
  Path.join [outputDir; "docs"; Js.substring_from 5 (entryName entry)].

(** The [forEach] that copies the [docs/] folder; the result is the final
    value of [hasDocs]. *)
Fixpoint copyDocs (outputDir : string) (zipEntries : list ZipEntry) (hasDocs : bool)
  : M bool :=
  match zipEntries with
  | [] => ret hasDocs
  | entry :: r =>
      if isDocFile entry then
        ensureDir (Path.dirname (docTarget outputDir entry)) ;;
        writeFile (docTarget outputDir entry) (Bytes (getData entry)) ;;
        copyDocs outputDir r true
      else copyDocs outputDir r hasDocs
  end.

(** *** [extractDocs]: the search index *)

Fixpoint functionParts (funcs : list (string * value)) : outcome (list value) :=
  match funcs with
  | [] => Ok []
  | (funcName, funcDef) :: r =>
      let? d := get funcDef "description" in
      let? rest := functionParts r in
      Ok (Str funcName :: (if truthy d then [d] else []) ++ rest)%list
  end.

Definition buildSearchIndex (pkgName : string) (pkgData : PackageRecord)
    (projectConfig functionsData : value) : outcome string :=
  let? keywords := get projectConfig "keywords" in
  let? funcs :=
    if truthy functionsData then functionParts (entries functionsData) else Ok [] in
  let searchIndexParts :=
    ([Str pkgName; Str (description pkgData)]
     ++ (if truthy keywords then [keywords] else [])
     ++ funcs)%list in
  Ok (Js.trim (Js.collapseSpaces (joinValues " " searchIndexParts))).

(** *** [extractDocs]: the keywords *)

Definition bracketed (s : string) : bool :=
  Js.startsWith s "[" && Js.endsWith s "]".

(** The [catch] branch: strip the brackets, split on commas, trim each
    token and remove a quote at either end. *)
Definition splitKeywords (s : string) : string :=
  Js.join ", "
    (map (fun k => Js.stripQuotes (Js.trim k)) (Js.split "," (Js.slice_1_m1 s))).

(** The value assigned to [projectConfig.keywords], from the value read
    from it. *)
Definition normalizeKeywords (raw : value) : value :=
  let keywords := if truthy raw then raw else Str "" in
  match keywords with
  | Arr l => Str (joinValues ", " l)
  | Str s =>
      if bracketed s then
        match Json.parse (Js.replaceAll sq (String dq "") s) with
        | Some (Arr parsed) => Str (joinValues ", " parsed)
        | Some _ => keywords
        | None => Str (splitKeywords s)
        end
      else keywords
  | _ => keywords
  end.

(** [projectConfig.keywords = keywords], in the strict mode of a module:
    a primitive value has no properties to set.  An array that receives
    the property is kept as the object of its elements and this property,
    which reads the same for every later access of the script. *)
Definition assignKeywords (projectConfig keywords : value) : outcome value :=
  match projectConfig with
  | Obj l => Ok (Obj (Json.define l ("keywords", keywords)))
  | Arr l => Ok (Obj (Json.define (indexed 0 l) ("keywords", keywords)))
  | _ => Throw TypeError
  end.

(** *** [extractDocs]: the page and the metadata of one version *)

Record Rendered : Type := {
  indexMd : string;
  metadata : Metadata
}.

Definition composePage (pkgName version : string) (pkgData : PackageRecord)
    (versionData : VersionRecord) (readmeContent : string)
    (functionsData projectConfig : value) (searchIndex : string) (isLatest : bool)
  : outcome string :=
  if readmeContent =? "" then
    synthesizeReadme pkgName version pkgData versionData functionsData
      projectConfig searchIndex isLatest
  else
    let? front :=
      frontmatter pkgName version pkgData versionData projectConfig searchIndex isLatest in
    if truthy functionsData then
      let? api := generateApiDocs functionsData in
      Ok (front ++ readmeContent ++ nl ++ nl ++ api)
    else Ok (front ++ readmeContent).

Definition renderVersion (pkgName : string) (pkgData : PackageRecord)
    (version : string) (versionData : VersionRecord) (readmeContent : string)
    (projectConfig functionsData : value) (hasDocs : bool) : outcome Rendered :=
  let isLatest := latest pkgData =? version in
  let? searchIndex := buildSearchIndex pkgName pkgData projectConfig functionsData in
  let? raw := get projectConfig "keywords" in
  let? projectConfig := assignKeywords projectConfig (normalizeKeywords raw) in
  let? page :=
    composePage pkgName version pkgData versionData readmeContent functionsData
      projectConfig searchIndex isLatest in
  let? keywords := get projectConfig "keywords" in
  let? homepage := get projectConfig "homepage" in
  let? license := get projectConfig "license" in
  Ok {| indexMd := page;
        metadata :=
          {| m_name := pkgName;
             m_version := version;
             m_description := description pkgData;
             m_owners := owners pkgData;
             m_dependencies := dependencies versionData;
             m_latest := isLatest;
             m_hasDocs := hasDocs;
             m_keywords := keywords;
             m_homepage := homepage;
             m_license := license;
             m_searchIndex := searchIndex;
             m_functions := functionsData |} |}.

(** *** [extractDocs]: the loops *)

Definition gspkgPath (env : Env) (versionData : VersionRecord) : string :=
  Path.join [REGISTRY_ROOT env; path versionData].

Definition outputDir (env : Env) (pkgName version : string) : string :=
  Path.join [CONTENT_DIR env; pkgName; version].

Definition notFound (env : Env) (versionData : VersionRecord) : string :=
  "Warning: " ++ gspkgPath env versionData ++ " not found.".

(** What follows the reading of the descriptor and of the manifest: the
    copy of the docs folder, the page and the metadata. *)
Definition finishArchive (env : Env) (pkgName : string) (pkgData : PackageRecord)
    (version : string) (versionData : VersionRecord) (zipEntries : list ZipEntry)
    (projectConfig functionsData : value) : M unit :=
  hasDocs <- copyDocs (outputDir env pkgName version) zipEntries false ;;
  r <- lift (renderVersion pkgName pkgData version versionData
               (readReadme zipEntries) projectConfig functionsData hasDocs) ;;
  writeFile (Path.join [outputDir env pkgName version; "index.md"]) (Bytes (indexMd r)) ;;
  writeFile (Path.join [outputDir env pkgName version; "metadata.json"])
    (MetadataJson (metadata r)).

(** What is done with the entries of an archive that was opened. *)
Definition processArchive (env : Env) (pkgName : string) (pkgData : PackageRecord)
    (version : string) (versionData : VersionRecord) (zipEntries : list ZipEntry)
  : M unit :=
  projectConfig <- readProjectConfig pkgName version zipEntries ;;
  functionsData <- readFunctions pkgName version zipEntries ;;
  finishArchive env pkgName pkgData version versionData zipEntries
    projectConfig functionsData.

(** The body of the inner loop. *)
Definition processVersion (env : Env) (pkgName : string) (pkgData : PackageRecord)
    (version : string) (versionData : VersionRecord) : M unit :=
  ensureDir (outputDir env pkgName version) ;;
  match disk env (gspkgPath env versionData) with
  | None => warn (notFound env versionData)
  | Some Unreadable => lift (Throw InvalidZip)
  | Some (Archive zipEntries) =>
      processArchive env pkgName pkgData version versionData zipEntries
  end.

Definition processPackage (env : Env) (pkg : string * PackageRecord) : M unit :=
  forEach (versions (snd pkg))
    (fun v => processVersion env (fst pkg) (snd pkg) (fst v) (snd v)).

Definition extractDocs (env : Env) : M unit :=
  registry <- lift (indexJson env) ;;
  ensureDir (CONTENT_DIR env) ;;
  emptyDir (CONTENT_DIR env) ;;
  forEach registry (processPackage env).

(** [extractDocs().catch(console.error)] *)
Definition main (env : Env) (w : World) : World :=
  match extractDocs env w with
  | (Ok _, w') => w'
  | (Throw e, w') => said (Error e) w'
  end.

(** The two loops as one: every version of every package, in the order
    the script visits them. *)
Definition Job : Type := (string * PackageRecord) * (string * VersionRecord).

Definition jobs (registry : Registry) : list Job :=
  flat_map (fun pkg => map (pair pkg) (versions (snd pkg))) registry.

Definition processJob (env : Env) (j : Job) : M unit :=
  processVersion env (fst (fst j)) (snd (fst j)) (fst (snd j)) (snd (snd j)).

(** The last content written to a path. *)
Definition fileAt (p : string) (w : World) : option content :=
  option_map snd (find (fun f => fst f =? p) (rev (files w))).

(** [s.includes(sub)] *)
Definition includes (s sub : string) : bool :=
  match String.index 0 sub s with
  | Some _ => true
  | None => false
  end.

(** ** The data model of the specification *)

(** The function manifest: an ordered mapping from function names to
    an optional description and an optional ordered mapping from argument
    names to an optional description. *)
Record Argument : Type := {
  argName : string;
  argDescription : option string
}.

Record Function : Type := {
  funcName : string;
  funcDescription : option string;
  funcArguments : option (list Argument)
}.

Definition Manifest : Type := list Function.

(** *** Reading a value as a manifest

    A value of the runtime has the shape of the data model when it is
    [null] (no manifest) or an object whose properties are objects, with a
    description that is a string or absent and with arguments that are
    absent or an object of the same kind.  The objects may hold other
    properties.  The functions and the arguments are taken in the order of
    [Object.entries]. *)

Definition asText (v : value) : option (option string) :=
  match v with
  | Undefined => Some None
  | Str t => Some (Some t)
  | _ => None
  end.

Fixpoint traverse {A B : Type} (f : A -> option B) (l : list A) : option (list B) :=
  match l with
  | [] => Some []
  | x :: r =>
      match f x, traverse f r with
      | Some y, Some ys => Some (y :: ys)
      | _, _ => None
      end
  end.

Definition asArgument (kv : string * value) : option Argument :=
  match snd kv with
  | Obj ps =>
      match asText (lookup "description" ps) with
      | Some d => Some {| argName := fst kv; argDescription := d |}
      | None => None
      end
  | _ => None
  end.

Definition asArguments (v : value) : option (option (list Argument)) :=
  match v with
  | Undefined => Some None
  | Obj avs => option_map Some (traverse asArgument avs)
  | _ => None
  end.

Definition asFunction (kv : string * value) : option Function :=
  match snd kv with
  | Obj ps =>
      match asText (lookup "description" ps), asArguments (lookup "arguments" ps) with
      | Some d, Some a =>
          Some {| funcName := fst kv; funcDescription := d; funcArguments := a |}
      | _, _ => None
      end
  | _ => None
  end.

Definition asManifest (v : value) : option (option Manifest) :=
  match v with
  | Null => Some None
  | Obj fvs => option_map Some (traverse asFunction fvs)
  | _ => None
  end.

(** *** A manifest as a value *)

Definition optionalProp (k : string) (o : option string) : list (string * value) :=
  match o with
  | Some t => [(k, Str t)]
  | None => []
  end.

Definition argumentValue (a : Argument) : string * value :=
  (argName a, Obj (optionalProp "description" (argDescription a))).

Definition functionProps (f : Function) : list (string * value) :=
  (optionalProp "description" (funcDescription f)
   ++ match funcArguments f with
      | Some args => [("arguments", Obj (map argumentValue args))]
      | None => []
      end)%list.

Definition functionValue (f : Function) : string * value :=
  (funcName f, Obj (functionProps f)).

Definition manifestValue (m : option Manifest) : value :=
  match m with
  | Some funcs => Obj (map functionValue funcs)
  | None => Null
  end.

(** *** The keywords of a descriptor

    Absent, a string (plain, or a bracketed list in single or double
    quotes), or an ordered list of strings. *)
Inductive Keywords : Type :=
| KAbsent
| KText (s : string)
| KList (l : list string).

Definition keywordsValue (k : Keywords) : value :=
  match k with
  | KAbsent => Undefined
  | KText s => Str s
  | KList l => Arr (map Str l)
  end.

Fixpoint hasChar (c : ascii) (s : string) : bool :=
  match s with
  | EmptyString => false
  | String a r => Ascii.eqb a c || hasChar c r
  end.

Definition bracketFree (s : string) : bool :=
  negb (hasChar "[" s) && negb (hasChar "]" s).

Fixpoint concatAll (l : list string) : string :=
  match l with
  | [] => ""
  | x :: r => x ++ concatAll r
  end.

(** *** The API reference, in the words of the specification *)

Definition orText (o : option string) (fallback : string) : string :=
  match o with
  | Some t => if t =? "" then fallback else t
  | None => fallback
  end.

Definition argumentBullet (a : Argument) : string :=
  "- `" ++ argName a ++ "`: " ++ orText (argDescription a) "" ++ nl.

Definition functionSection (f : Function) : string :=
  "### `" ++ funcName f ++ "`" ++ nl ++ nl
  ++ orText (funcDescription f) "No description provided." ++ nl ++ nl
  ++ match funcArguments f with
     | Some (a :: args) =>
         "**Arguments**:" ++ nl ++ concatAll (map argumentBullet (a :: args)) ++ nl
     | _ => ""
     end.

Definition apiReference (m : option Manifest) : string :=
  match m with
  | None => ""
  | Some funcs => "## API Reference" ++ nl ++ nl ++ concatAll (map functionSection funcs)
  end.

(** *** The search index *)

Definition functionText (f : Function) : list string :=
  funcName f ::
  match funcDescription f with
  | Some t => if t =? "" then [] else [t]
  | None => []
  end.

Definition manifestText (m : option Manifest) : list string :=
  match m with
  | Some funcs => flat_map functionText funcs
  | None => []
  end.

(** The contribution of the keywords as the script takes it: the value
    of the descriptor, as it is, when it is truthy. *)
Definition rawKeywordsText (raw : value) : list string :=
  if truthy raw then [elemToString raw] else [].

Definition searchIndexOf (pkgName description : string) (keywords : list string)
    (m : option Manifest) : string :=
  Js.trim (Js.collapseSpaces
             (Js.join " " ([pkgName; description] ++ keywords ++ manifestText m)%list)).

(** The contribution of the keywords as the specification words it: the
    normalised keywords, when not empty. *)
Definition normalizedKeywordsText (raw : value) : list string :=
  match normalizeKeywords raw with
  | Str "" => []
  | v => [elemToString v]
  end.

(** *** The page *)

Definition pageOf (front readme : string) (m : option Manifest) : string :=
  if readme =? "" then front ++ apiReference m ++ nl ++ nl ++ callout
  else
    match m with
    | Some _ => front ++ readme ++ nl ++ nl ++ apiReference m
    | None => front ++ readme
    end.

Definition assigned (props : list (string * value)) : list (string * value) :=
  Json.define props ("keywords", normalizeKeywords (lookup "keywords" props)).

(** The page and the metadata of a version whose descriptor is the object
    of properties [props] and whose [functionsData] reads as [m]. *)
Definition renderedOf (pkgName : string) (pkgData : PackageRecord)
    (version : string) (versionData : VersionRecord) (readme : string)
    (props : list (string * value)) (functionsData : value)
    (m : option Manifest) (hasDocs : bool) : Rendered :=
  let searchIndex :=
    searchIndexOf pkgName (description pkgData)
      (rawKeywordsText (lookup "keywords" props)) m in
  let keywords := normalizeKeywords (lookup "keywords" props) in
  {| indexMd :=
       pageOf (frontBlock pkgName version (description pkgData)
                 (latest pkgData =? version) keywords
                 (lookup "homepage" props) (lookup "license" props)
                 searchIndex (dependencies versionData))
         readme m;
     metadata :=
       {| m_name := pkgName;
          m_version := version;
          m_description := description pkgData;
          m_owners := owners pkgData;
          m_dependencies := dependencies versionData;
          m_latest := latest pkgData =? version;
          m_hasDocs := hasDocs;
          m_keywords := keywords;
          m_homepage := lookup "homepage" props;
          m_license := lookup "license" props;
          m_searchIndex := searchIndex;
          m_functions := functionsData |} |}.

(** *** The files of one version *)

Definition copied (outputDir : string) (zipEntries : list ZipEntry)
  : list (string * content) :=
  map (fun e => (docTarget outputDir e, Bytes (getData e))) (filter isDocFile zipEntries).

Definition indexPath (env : Env) (pkgName version : string) : string :=
  Path.join [outputDir env pkgName version; "index.md"].

Definition metadataPath (env : Env) (pkgName version : string) : string :=
  Path.join [outputDir env pkgName version; "metadata.json"].

(** The world in which the loops start. *)
Definition prepared (env : Env) (w : World) : World :=
  cleared (CONTENT_DIR env) (mkdir (CONTENT_DIR env) w).

(** The world after a version whose archive is missing. *)
Definition skipped (env : Env) (j : Job) (w : World) : World :=
  said (Warn (notFound env (snd (snd j))))
    (mkdir (outputDir env (fst (fst j)) (fst (snd j))) w).

(** A package name in the sense of the pattern of the script. *)
Definition nameChars (s : string) : bool :=
  forallb is_name_char (list_ascii_of_string s).


(** The members of an object of a JSON text that are enumerated in the
    order of the text: their names are distinct and none is an array
    index. *)
Fixpoint plainKeys (acc members : list (string * value)) : bool :=
  match members with
  | [] => true
  | (k, v) :: r =>
      negb (Json.hasKey k acc)
      && match Json.arrayIndex k with
         | None => true
         | Some _ => false
         end
      && plainKeys (acc ++ [(k, v)]) r
  end.

(** *** The statements of the specification that the script departs from *)

(** Normalisation leaves its own result unchanged, and the result is a
    string without an opening bracket at its start or a closing bracket at
    its end. *)
Definition idempotentBracketFree (k : Keywords) : Prop :=
  normalizeKeywords (normalizeKeywords (keywordsValue k))
  = normalizeKeywords (keywordsValue k)
  /\ exists s, normalizeKeywords (keywordsValue k) = Str s
               /\ Js.startsWith s "[" = false
               /\ Js.endsWith s "]" = false.

(** The page decided by the presence of a readme entry: the front matter,
    the text of the entry, the API reference if there is a manifest; the
    synthesised page when there is no entry. *)
Definition pageByEntry (front : string) (zipEntries : list ZipEntry)
    (m : option Manifest) : string :=
  match findEntry "readme.md" zipEntries with
  | Some e =>
      front ++ getData e
      ++ match m with
         | Some _ => nl ++ nl ++ apiReference m
         | None => ""
         end
  | None => front ++ apiReference m ++ nl ++ nl ++ callout
  end.

(** An entry under the docs prefix, directory or not. *)
Definition hasDocsPrefix (e : ZipEntry) : bool := Js.startsWith (entryName e) "docs/".

(** ** Sample data *)

(** A text in which a tilde stands for a double quote. *)
Definition text (s : string) : string := Js.replaceAll "~" (String dq "") s.

Definition entry (name data : string) : ZipEntry :=
  {| entryName := name; isDirectory := false; getData := data |}.

Definition folder (name : string) : ZipEntry :=
  {| entryName := name; isDirectory := true; getData := "" |}.

(** The package [error] of the registry, version 0.2.0. *)
Definition errorPkg : PackageRecord :=
  {| description := "Utilities for handling errors";
     owners := ["Astral1119"];
     versions :=
       [("0.1.0", {| path := "packages/error/0.1.0/error-0.1.0.gspkg";
                     dependencies := [] |});
        ("0.2.0", {| path := "packages/error/0.2.0/error-0.2.0.gspkg";
                     dependencies := [] |})];
     latest := "0.2.0" |}.

Definition errorVersion : VersionRecord :=
  {| path := "packages/error/0.2.0/error-0.2.0.gspkg"; dependencies := [] |}.

Definition errorProject : string :=
  text "{~keywords~: ~['error']~, ~homepage~: ~https://sheets.wiki~, ~license~: ~MIT~}".

Definition errorFunctions : string :=
  text "{~ERRORSTR~: {~description~: ~Converts an error into a string. Note that this does not include the error toast dialogue, only the literal string representation of the error (e.g. \~#N/A\~).~, ~arguments~: {~error~: {~description~: ~An error.~}}}, ~THROW~: {~description~: ~Throws a #REF! error with a custom message.~, ~arguments~: {~message~: {~description~: ~The message to add to the error.~}}}}".

Definition errorEntries : list ZipEntry :=
  [entry "__GSPROJECT__.json" errorProject; entry "functions.json" errorFunctions].

(** The page of [error] 0.2.0 as the repository holds it under
    [site/src/content/packages]. *)
Definition errorPage : string :=
  text "---
title: error
version: 0.2.0
description: Utilities for handling errors
latest: true
keywords: error
homepage: https://sheets.wiki
license: MIT
searchIndex: ~error Utilities for handling errors ['error'] ERRORSTR Converts an error into a string. Note that this does not include the error toast dialogue, only the literal string representation of the error (e.g. \~#N/A\~). THROW Throws a #REF! error with a custom message.~
dependencies: []
---

## API Reference

### `ERRORSTR`

Converts an error into a string. Note that this does not include the error toast dialogue, only the literal string representation of the error (e.g. ~#N/A~).

**Arguments**:
- `error`: An error.

### `THROW`

Throws a #REF! error with a custom message.

**Arguments**:
- `message`: The message to add to the error.



<div class=~auto-doc-callout~>
This package does not have a custom README. This page was automatically generated from package metadata.
</div>
".

Definition errorManifest : Manifest :=
  [ {| funcName := "ERRORSTR";
       funcDescription :=
         Some (text "Converts an error into a string. Note that this does not include the error toast dialogue, only the literal string representation of the error (e.g. ~#N/A~).");
       funcArguments :=
         Some [ {| argName := "error"; argDescription := Some "An error." |} ] |};
    {| funcName := "THROW";
       funcDescription := Some "Throws a #REF! error with a custom message.";
       funcArguments :=
         Some [ {| argName := "message";
                   argDescription := Some "The message to add to the error." |} ] |} ].

(** The API reference of that page. *)
Definition errorApi : string :=
  text "## API Reference

### `ERRORSTR`

Converts an error into a string. Note that this does not include the error toast dialogue, only the literal string representation of the error (e.g. ~#N/A~).

**Arguments**:
- `error`: An error.

### `THROW`

Throws a #REF! error with a custom message.

**Arguments**:
- `message`: The message to add to the error.

".

(** The package [prime] of the registry, with the functions the
    specification lists. *)
Definition primePkg : PackageRecord :=
  {| description := "A small library for prime number utilities.";
     owners := ["Astral1119"];
     versions :=
       [("0.1.0", {| path := "packages/prime/0.1.0/prime-0.1.0.gspkg";
                     dependencies := ["error>=0.2.0"] |})];
     latest := "0.1.0" |}.

Definition primeVersion : VersionRecord :=
  {| path := "packages/prime/0.1.0/prime-0.1.0.gspkg";
     dependencies := ["error>=0.2.0"] |}.

Definition primeManifest : Manifest :=
  [ {| funcName := "ISPRIME";
       funcDescription := Some "Checks whether the provided value is a prime.";
       funcArguments := None |};
    {| funcName := "PRIMEVECTOR";
       funcDescription := Some "Generates a vector of prime numbers.";
       funcArguments := None |} ].

Definition primeProject : string :=
  text "{~keywords~: ~['prime numbers']~, ~license~: ~MIT~}".

Definition primeFunctions : string :=
  text "{~ISPRIME~: {~description~: ~Checks whether the provided value is a prime.~}, ~PRIMEVECTOR~: {~description~: ~Generates a vector of prime numbers.~}}".

Definition primeEntries : list ZipEntry :=
  [ entry "README.md" "# prime";
    entry "__GSPROJECT__.json" primeProject;
    entry "functions.json" primeFunctions;
    folder "docs/";
    entry "docs/guide.md" "How to use prime." ].

(** The value [JSON.parse] gives for a text that parses. *)
Definition parsed (t : string) : value :=
  match Json.parse t with
  | Some v => v
  | None => Undefined
  end.


Definition sampleRegistry : Registry := [("error", errorPkg); ("prime", primePkg)].

(** A checkout in which the archive of [error] 0.1.0 is missing. *)
Definition sampleEnv : Env :=
  {| scriptDir := "/repo/site/scripts";
     indexJson := Ok sampleRegistry;
     disk := fun p =>
       if p =? "/repo/packages/error/0.2.0/error-0.2.0.gspkg"
       then Some (Archive errorEntries)
       else if p =? "/repo/packages/prime/0.1.0/prime-0.1.0.gspkg"
       then Some (Archive primeEntries)
       else None |}.

(** The same checkout, in which the archive of [error] 0.2.0 is not a
    zip container. *)
Definition damagedEnv : Env :=
  {| scriptDir := "/repo/site/scripts";
     indexJson := Ok sampleRegistry;
     disk := fun p =>
       if p =? "/repo/packages/error/0.2.0/error-0.2.0.gspkg"
       then Some Unreadable
       else if p =? "/repo/packages/prime/0.1.0/prime-0.1.0.gspkg"
       then Some (Archive primeEntries)
       else None |}.

(** ** Notions used by the further properties *)

(** A path segment that [path.normalize] keeps as it is: not empty, not a
    dot or two dots, without a slash. *)
Definition plainSegment (s : string) : bool :=
  negb (s =? "") && negb (s =? ".") && negb (s =? "..") && negb (hasChar "/" s).

(** A text whose only white space among TAB, LF, VT, FF, CR and SP is the
    space, never twice in a row and never first when [afterSpace] holds. *)
Fixpoint weakSpaced (afterSpace : bool) (s : string) : bool :=
  match s with
  | EmptyString => true
  | String c r =>
      if Ascii.eqb c " " then negb afterSpace && weakSpaced true r
      else negb (Js.space1 c) && weakSpaced false r
  end.

(** The same, and the text does not end with a space. *)
Fixpoint singleSpaced (afterSpace : bool) (s : string) : bool :=
  match s with
  | EmptyString => negb afterSpace
  | String c r =>
      if Ascii.eqb c " " then negb afterSpace && singleSpaced true r
      else negb (Js.space1 c) && singleSpaced false r
  end.

(** Every double quote of the text comes right after a backslash. *)
Fixpoint quotesEscaped (afterBackslash : bool) (s : string) : bool :=
  match s with
  | EmptyString => true
  | String c r =>
      (negb (Ascii.eqb c dq) || afterBackslash)
      && quotesEscaped (Ascii.eqb c backslash) r
  end.

(** What [JSON.parse] reads back for a character that [JSON.stringify]
    wrote: the code unit of the escape for a control character without a
    short escape, the character otherwise. *)
Definition unitOf (c : ascii) : Json.unit16 :=
  if (code c <? 32)%nat
     && negb (byte_is 8 c || byte_is 9 c || byte_is 10 c || byte_is 12 c || byte_is 13 c)
  then Json.Esc (N_of_ascii c)
  else Json.Raw c.

(** A keyword that can be written between quotes as it is: no control
    character, no quote of either kind, no backslash. *)
Definition safeChar (c : ascii) : bool :=
  negb (code c <? 32)%nat && negb (Ascii.eqb c sq) && negb (Ascii.eqb c dq)
  && negb (Ascii.eqb c backslash).

Fixpoint safeWord (w : string) : bool :=
  match w with
  | EmptyString => true
  | String c r => safeChar c && safeWord r
  end.

(** The text of a list of keywords, each between the quote [q], separated
    by a comma and a space, the whole between brackets. *)
Definition listText (q : ascii) (l : list string) : string :=
  "[" ++ Js.join ", " (map (fun w => String q (w ++ String q "")) l) ++ "]".

(** A descriptor that has no properties to read or to set: [null] or a
    primitive value. *)
Definition notObject (v : value) : bool :=
  match v with
  | Obj _ | Arr _ => false
  | _ => true
  end.

(** The second world holds what the first holds and more: the files
    written are kept, in their order, the directories are kept, the
    console is kept. *)
Definition extends (w w' : World) : Prop :=
  (exists fs, files w' = (files w ++ fs)%list)
  /\ (forall d, In d (dirs w) -> In d (dirs w'))
  /\ (exists ms, console w' = (console w ++ ms)%list).

(** The value [projectConfig] holds once the descriptor was looked up:
    what the entry parses to, the empty object without an entry or when
    its text is not JSON. *)
Definition projectConfigOf (zipEntries : list ZipEntry) : value :=
  match findEntry "__gsproject__.json" zipEntries with
  | Some e =>
      match Json.parse (getData e) with
      | Some v => v
      | None => emptyObject
      end
  | None => emptyObject
  end.

(** The value [functionsData] holds once the manifest was looked up. *)
Definition functionsDataOf (zipEntries : list ZipEntry) : value :=
  match findEntry "functions.json" zipEntries with
  | Some e =>
      match Json.parse (getData e) with
      | Some v => v
      | None => Null
      end
  | None => Null
  end.

(** A relative path made of plain segments only. *)
Definition plainPath (s : string) : bool := forallb plainSegment (Js.split "/" s).

(** An entry that is not copied, or whose name below the docs prefix is
    made of plain segments. *)
Definition safeEntry (e : ZipEntry) : bool :=
  negb (isDocFile e) || plainPath (Js.substring_from 5 (entryName e)).

(** A version whose package name and version are plain segments and whose
    archive, if there is one, holds safe entries only. *)
Definition safeJob (env : Env) (j : Job) : bool :=
  plainSegment (fst (fst j)) && plainSegment (fst (snd j))
  && match disk env (gspkgPath env (snd (snd j))) with
     | Some (Archive zipEntries) => forallb safeEntry zipEntries
     | _ => true
     end.

(** Every file of the second world that the first does not hold is inside
    the directory. *)
Definition writesWithin (dir : string) (w w' : World) : Prop :=
  exists fs, files w' = (files w ++ fs)%list
             /\ Forall (fun f => under dir (fst f) = true) fs.

(** A computation whose outcome, written files and messages are the same
    in whatever world it runs. *)
Definition oblivious {A : Type} (m : M A) : Prop :=
  exists (o : outcome A) (fs : list (string * content)) (ms : list message),
    forall w, exists w',
      m w = (o, w')
      /\ files w' = (files w ++ fs)%list
      /\ console w' = (console w ++ ms)%list.

(** ** Further sample data *)

(** An archive whose descriptor is the JSON text of [null]. *)
Definition primitiveEntries : list ZipEntry :=
  [entry "__GSPROJECT__.json" "null"; entry "docs/guide.md" "A guide."].

(** The checkout in which the archive of [error] 0.2.0 holds it. *)
Definition primitiveEnv : Env :=
  {| scriptDir := "/repo/site/scripts";
     indexJson := Ok sampleRegistry;
     disk := fun p =>
       if p =? "/repo/packages/error/0.2.0/error-0.2.0.gspkg"
       then Some (Archive primitiveEntries)
       else if p =? "/repo/packages/prime/0.1.0/prime-0.1.0.gspkg"
       then Some (Archive primeEntries)
       else None |}.

(** A checkout whose [index.json] cannot be read. *)
Definition lostEnv : Env :=
  {| scriptDir := "/repo/site/scripts";
     indexJson := Throw ReadError;
     disk := fun _ => None |}.

(** What an earlier run and the checkout left: a page inside the content
    directory and a file outside it. *)
Definition oldWorld : World :=
  {| dirs := ["/repo/site/src/content/packages/gone/1.0.0"];
     files := [("/repo/site/src/content/packages/gone/1.0.0/index.md", Bytes "old page");
               ("/repo/README.md", Bytes "# registry")];
     console := [] |}.

(** An archive with an entry of the docs folder that names the parent
    folder. *)
Definition climbingEntries : list ZipEntry :=
  [entry "README.md" "# prime"; entry "docs/../index.md" "not the page"].

(** ** The declared order of a manifest *)

(** The members of the object a JSON text denotes, in the order the text
    declares them (a name declared twice appears twice): what
    [JSON.parse] reads before it defines the properties of the object. *)
Definition declaredMembers (text : string) : option (list (string * value)) :=
  match Json.skipWs text with
  | String c r =>
      if Ascii.eqb c "{" then
        match Json.skipWs r with
        | String "}" _ => Some []
        | _ => option_map fst (Json.parseMembers (2 * String.length text + 1) r)
        end
      else None
  | EmptyString => None
  end.

(** A manifest that declares a function with a plain name before two
    functions whose names are array indices. *)
Definition indexedFunctions : string :=
  text "{~b~: {~description~: ~B~}, ~2~: {~description~: ~two~}, ~1~: {~description~: ~one~}}".

(** Its functions, in the order it declares them. *)
Definition indexedDeclared : Manifest :=
  [ {| funcName := "b"; funcDescription := Some "B"; funcArguments := None |};
    {| funcName := "2"; funcDescription := Some "two"; funcArguments := None |};
    {| funcName := "1"; funcDescription := Some "one"; funcArguments := None |} ].

(** ** Paths that can all be written *)

(** The paths written for a version: the files of the docs folder, the
    page and the metadata. *)
Definition versionTargets (env : Env) (pkgName version : string)
    (zipEntries : list ZipEntry) : list string :=
  (map fst (copied (outputDir env pkgName version) zipEntries)
   ++ [indexPath env pkgName version; metadataPath env pkgName version])%list.

(** No path of the list lies inside another: none has to be a file and a
    folder at once, which is when the file system refuses a write of the
    script. *)
Definition clashFree (paths : list string) : bool :=
  forallb (fun p => forallb (fun q => negb (under q p)) paths) paths.

(** ** A file system that refuses *)

(** What the calls of the script do when a path would have to be a file
    and a folder at once.  A file is at a path when it was written there;
    a path is a folder when it was made, or when it is on the way to a
    folder that was made or to a file that was written. *)
Definition isFileAt (p : string) (w : World) : bool :=
  existsb (fun f => fst f =? p) (files w).

Definition fileAbove (p : string) (w : World) : bool :=
  existsb (fun f => under (fst f) p) (files w).

Definition isFolder (p : string) (w : World) : bool :=
  existsb (fun d => (d =? p) || under p d) (dirs w)
  || existsb (fun f => under p (fst f)) (files w).

(** [fs.ensureDirSync(p)]: refused when a file is at the path or above
    it. *)
Definition ensureDirStrict (p : string) : M unit :=
  fun w =>
    if isFileAt p w || fileAbove p w then (Throw WriteError, w)
    else (Ok tt, mkdir p w).

(** [fs.writeFileSync(p, data)], [fs.writeFile] and [fs.writeJson]:
    refused when the path is a folder or a file is above it. *)
Definition writeFileStrict (p : string) (c : content) : M unit :=
  fun w =>
    if isFolder p w || fileAbove p w then (Throw WriteError, w)
    else (Ok tt, written p c w).

(** The copy of the docs folder, the page and the metadata, with these
    calls. *)
Fixpoint copyDocsStrict (outputDir : string) (zipEntries : list ZipEntry)
    (hasDocs : bool) : M bool :=
  match zipEntries with
  | [] => ret hasDocs
  | entry :: r =>
      if isDocFile entry then
        ensureDirStrict (Path.dirname (docTarget outputDir entry)) ;;
        writeFileStrict (docTarget outputDir entry) (Bytes (getData entry)) ;;
        copyDocsStrict outputDir r true
      else copyDocsStrict outputDir r hasDocs
  end.

Definition finishArchiveStrict (env : Env) (pkgName : string) (pkgData : PackageRecord)
    (version : string) (versionData : VersionRecord) (zipEntries : list ZipEntry)
    (projectConfig functionsData : value) : M unit :=
  hasDocs <- copyDocsStrict (outputDir env pkgName version) zipEntries false ;;
  r <- lift (renderVersion pkgName pkgData version versionData
               (readReadme zipEntries) projectConfig functionsData hasDocs) ;;
  writeFileStrict (Path.join [outputDir env pkgName version; "index.md"])
    (Bytes (indexMd r)) ;;
  writeFileStrict (Path.join [outputDir env pkgName version; "metadata.json"])
    (MetadataJson (metadata r)).

(** Nothing of the world stands in the way of the paths: none is a
    folder, none has a file above it. *)
Definition vacant (w : World) (paths : list string) : bool :=
  forallb (fun p => negb (isFolder p w || fileAbove p w)) paths.

(** An archive with a file of the docs folder and a file inside a folder
    of the same name. *)
Definition clashingEntries : list ZipEntry :=
  [entry "docs/a" "a file"; entry "docs/a/b" "inside it"].

(** * Properties *)

(** ** Strings and values *)

Lemma append_assoc (a b c : string) : (a ++ b) ++ c = a ++ (b ++ c).
Proof.
  induction a as [|x a IH]; simpl; [reflexivity|].
  now rewrite IH.
Qed.

Lemma append_empty_r (a : string) : a ++ "" = a.
Proof.
  induction a as [|x a IH]; simpl; [reflexivity|].
  now rewrite IH.
Qed.

Create Rewrite HintDb strings.
#[local] Hint Rewrite append_assoc append_empty_r : strings.

Lemma concatAll_app (l1 l2 : list string) :
  concatAll (l1 ++ l2)%list = concatAll l1 ++ concatAll l2.
Proof.
  induction l1 as [|x l1 IH]; [reflexivity|].
  cbn [app concatAll]. now rewrite IH, append_assoc.
Qed.

Lemma elemToString_Str (l : list string) : map elemToString (map Str l) = l.
Proof.
  induction l as [|x l IH]; simpl; [reflexivity|].
  now rewrite IH.
Qed.

Lemma joinValues_Str (sep : string) (l : list string) :
  joinValues sep (map Str l) = Js.join sep l.
Proof.
  unfold joinValues. now rewrite elemToString_Str.
Qed.

Lemma toString_list (l : list string) : toString (Arr (map Str l)) = Js.join "," l.
Proof.
  cbn [toString]. f_equal. apply elemToString_Str.
Qed.

(** A description that reads as a text is printed as the specification
    says: as it is, or as the fallback when absent or empty. *)
Lemma asText_orText (v : value) (o : option string) (fallback : string) :
  asText v = Some o ->
  toString (if truthy v then v else Str fallback) = orText o fallback.
Proof.
  destruct v; cbn; intros H; try discriminate; injection H as <-; cbn;
    [reflexivity|].
  now destruct (s =? "").
Qed.

Lemma asText_truthy (v : value) (o : option string) :
  asText v = Some o ->
  (if truthy v then [v] else [])
  = map Str match o with
            | Some t => if t =? "" then [] else [t]
            | None => []
            end.
Proof.
  destruct v; cbn; intros H; try discriminate; injection H as <-; cbn;
    [reflexivity|].
  now destruct (s =? "").
Qed.

(** ** Values that read as a manifest *)

Lemma traverse_cons {A B : Type} (f : A -> option B) (x : A) (r : list A) (ys : list B) :
  traverse f (x :: r) = Some ys ->
  exists y ys', ys = y :: ys' /\ f x = Some y /\ traverse f r = Some ys'.
Proof.
  cbn [traverse]. destruct (f x) as [y|]; [|discriminate].
  destruct (traverse f r) as [ys'|]; [|discriminate].
  intros H. injection H as <-. now exists y, ys'.
Qed.

Lemma traverse_nil {A B : Type} (f : A -> option B) (ys : list B) :
  traverse f [] = Some ys -> ys = [].
Proof.
  cbn. congruence.
Qed.

Lemma asArgument_inv (kv : string * value) (a : Argument) :
  asArgument kv = Some a ->
  exists ps, snd kv = Obj ps
             /\ argName a = fst kv
             /\ asText (lookup "description" ps) = Some (argDescription a).
Proof.
  unfold asArgument. destruct (snd kv) as [| | | | | |ps]; try discriminate.
  destruct (asText (lookup "description" ps)) as [d|] eqn:D; [|discriminate].
  intros H. injection H as <-. exists ps. now rewrite D.
Qed.

Lemma asFunction_inv (kv : string * value) (f : Function) :
  asFunction kv = Some f ->
  exists ps, snd kv = Obj ps
             /\ funcName f = fst kv
             /\ asText (lookup "description" ps) = Some (funcDescription f)
             /\ asArguments (lookup "arguments" ps) = Some (funcArguments f).
Proof.
  unfold asFunction. destruct (snd kv) as [| | | | | |ps]; try discriminate.
  destruct (asText (lookup "description" ps)) as [d|] eqn:D; [|discriminate].
  destruct (asArguments (lookup "arguments" ps)) as [a|] eqn:A; [|discriminate].
  intros H. injection H as <-. exists ps. now rewrite D, A.
Qed.

Lemma asManifest_truthy (v : value) (m : option Manifest) :
  asManifest v = Some m ->
  truthy v = match m with Some _ => true | None => false end.
Proof.
  destruct v as [| | | | | |fvs]; cbn; try discriminate.
  - intros H. now injection H as <-.
  - destruct (traverse asFunction fvs); cbn; [|discriminate].
    intros H. now injection H as <-.
Qed.

Lemma asManifest_entries (v : value) (funcs : Manifest) :
  asManifest v = Some (Some funcs) -> traverse asFunction (entries v) = Some funcs.
Proof.
  destruct v as [| | | | | |fvs]; cbn; try discriminate.
  destruct (traverse asFunction fvs); cbn; [|discriminate].
  congruence.
Qed.

(** Every manifest of the data model is the reading of a value. *)
Lemma lookup_optionalProp (k : string) (o : option string) (rest : list (string * value)) :
  lookup k (optionalProp k o ++ rest)%list
  = match o with
    | Some t => Str t
    | None => lookup k rest
    end.
Proof.
  destruct o; simpl; [now rewrite String.eqb_refl | reflexivity].
Qed.

Lemma asArgument_value (a : Argument) : asArgument (argumentValue a) = Some a.
Proof.
  destruct a as [n [d|]]; reflexivity.
Qed.

Lemma asArguments_values (args : list Argument) :
  traverse asArgument (map argumentValue args) = Some args.
Proof.
  induction args as [|a args IH]; [reflexivity|].
  cbn [map traverse]. now rewrite asArgument_value, IH.
Qed.

Lemma asFunction_value (f : Function) : asFunction (functionValue f) = Some f.
Proof.
  destruct f as [n d a]. unfold asFunction, functionValue, functionProps.
  cbn [snd fst funcName funcDescription funcArguments].
  rewrite lookup_optionalProp.
  destruct d as [t|], a as [args|]; cbn; try reflexivity;
    now rewrite asArguments_values.
Qed.

Lemma asManifest_value (m : option Manifest) : asManifest (manifestValue m) = Some m.
Proof.
  destruct m as [funcs|]; [|reflexivity].
  cbn [manifestValue asManifest].
  assert (T : traverse asFunction (map functionValue funcs) = Some funcs).
  { induction funcs as [|f funcs IH]; [reflexivity|].
    cbn [map traverse]. now rewrite asFunction_value, IH. }
  now rewrite T.
Qed.

(** An object whose names are distinct and not array indices is
    enumerated in the order of its text. *)
Lemma define_plain (acc members : list (string * value)) :
  plainKeys acc members = true ->
  fold_left Json.define members acc = (acc ++ members)%list.
Proof.
  revert acc. induction members as [|[k v] r IH]; intros acc H.
  - now rewrite app_nil_r.
  - cbn [plainKeys] in H.
    apply andb_true_iff in H as [H R]. apply andb_true_iff in H as [F A].
    apply negb_true_iff in F.
    cbn [fold_left]. unfold Json.define at 2. rewrite F.
    destruct (Json.arrayIndex k); [discriminate|].
    rewrite (IH _ R). now rewrite <- app_assoc.
Qed.

(** ** [generateApiDocs] on a manifest *)

Lemma argumentLine_spec (kv : string * value) (a : Argument) :
  asArgument kv = Some a -> argumentLine kv = Ok (argumentBullet a).
Proof.
  intros H. apply asArgument_inv in H as (ps & V & N & D).
  destruct kv as [k v]; cbn [fst snd] in *. subst v.
  unfold argumentLine, argumentBullet; cbn [get obind].
  now rewrite (asText_orText _ _ "" D), N.
Qed.

Lemma argumentLines_spec (avs : list (string * value)) (args : list Argument) :
  traverse asArgument avs = Some args ->
  argumentLines avs = Ok (concatAll (map argumentBullet args)).
Proof.
  revert args. induction avs as [|kv avs IH]; intros args H.
  - apply traverse_nil in H. now subst args.
  - apply traverse_cons in H as (a & args' & -> & A & T).
    cbn [argumentLines map concatAll].
    now rewrite (argumentLine_spec kv a A), (IH args' T).
Qed.

Lemma functionDoc_spec (kv : string * value) (f : Function) :
  asFunction kv = Some f -> functionDoc kv = Ok (functionSection f).
Proof.
  intros H. apply asFunction_inv in H as (ps & V & N & D & A).
  destruct kv as [k v]; cbn [fst snd] in *. subst v.
  unfold functionDoc, functionSection; cbn [get obind].
  rewrite (asText_orText _ _ "No description provided." D), N.
  destruct (lookup "arguments" ps) as [| | | | | |avs]; cbn in A; try discriminate.
  - injection A as <-. cbn. now autorewrite with strings.
  - destruct (traverse asArgument avs) as [args|] eqn:T; cbn in A; [|discriminate].
    injection A as <-. cbn [truthy entries andb].
    rewrite (argumentLines_spec avs args T).
    destruct avs as [|kv avs].
    + apply traverse_nil in T. subst args. cbn. now autorewrite with strings.
    + apply traverse_cons in T as (a & args' & -> & _ & _).
      cbn [List.length Nat.ltb Nat.leb obind].
      now autorewrite with strings.
Qed.

Lemma functionDocs_spec (fvs : list (string * value)) (funcs : Manifest) :
  traverse asFunction fvs = Some funcs ->
  functionDocs fvs = Ok (concatAll (map functionSection funcs)).
Proof.
  revert funcs. induction fvs as [|kv fvs IH]; intros funcs H.
  - apply traverse_nil in H. now subst funcs.
  - apply traverse_cons in H as (f & funcs' & -> & F & T).
    cbn [functionDocs map concatAll].
    now rewrite (functionDoc_spec kv f F), (IH funcs' T).
Qed.

Lemma generateApiDocs_spec (functionsData : value) (m : option Manifest) :
  asManifest functionsData = Some m ->
  generateApiDocs functionsData = Ok (apiReference m).
Proof.
  intros H. unfold generateApiDocs.
  rewrite (asManifest_truthy _ _ H).
  destruct m as [funcs|]; cbn [negb]; [|reflexivity].
  now rewrite (functionDocs_spec _ _ (asManifest_entries _ _ H)).
Qed.

(** ** The search index *)

Lemma functionParts_spec (fvs : list (string * value)) (funcs : Manifest) :
  traverse asFunction fvs = Some funcs ->
  functionParts fvs = Ok (map Str (flat_map functionText funcs)).
Proof.
  revert funcs. induction fvs as [|kv fvs IH]; intros funcs H.
  - apply traverse_nil in H. now subst funcs.
  - apply traverse_cons in H as (f & funcs' & -> & F & T).
    apply asFunction_inv in F as (ps & V & N & D & _).
    destruct kv as [k v]; cbn [fst snd] in *. subst v.
    cbn [functionParts get obind flat_map].
    rewrite (IH funcs' T); cbn [obind].
    rewrite (asText_truthy _ _ D).
    unfold functionText. rewrite N.
    now rewrite map_app.
Qed.

Lemma buildSearchIndex_spec (pkgName : string) (pkgData : PackageRecord)
    (props : list (string * value)) (functionsData : value) (m : option Manifest) :
  asManifest functionsData = Some m ->
  buildSearchIndex pkgName pkgData (Obj props) functionsData
  = Ok (searchIndexOf pkgName (description pkgData)
          (rawKeywordsText (lookup "keywords" props)) m).
Proof.
  intros H.
  unfold buildSearchIndex, searchIndexOf; cbn [get obind].
  assert (F : (if truthy functionsData
               then functionParts (entries functionsData) else Ok [])
              = Ok (map Str (manifestText m))).
  { rewrite (asManifest_truthy _ _ H).
    destruct m as [funcs|]; [|reflexivity].
    apply functionParts_spec. now apply asManifest_entries. }
  rewrite F; cbn [obind].
  do 3 f_equal.
  unfold joinValues, rawKeywordsText. f_equal.
  cbn [map app]. do 2 f_equal.
  rewrite map_app, elemToString_Str.
  now destruct (truthy (lookup "keywords" props)).
Qed.

(** The search index reads the descriptor through its keywords only. *)
Lemma buildSearchIndex_inputs (pkgName : string) (pd1 pd2 : PackageRecord)
    (pc1 pc2 functionsData : value) :
  description pd1 = description pd2 ->
  get pc1 "keywords" = get pc2 "keywords" ->
  buildSearchIndex pkgName pd1 pc1 functionsData
  = buildSearchIndex pkgName pd2 pc2 functionsData.
Proof.
  intros Hd Hk. unfold buildSearchIndex. now rewrite Hd, Hk.
Qed.

Lemma rawKeywordsText_cases (k : Keywords) :
  rawKeywordsText (keywordsValue k)
  = match k with
    | KAbsent => []
    | KText s => if s =? "" then [] else [s]
    | KList l => [Js.join "," l]
    end.
Proof.
  destruct k as [|s|l]; unfold rawKeywordsText; cbn [keywordsValue truthy].
  - reflexivity.
  - now destruct (s =? "").
  - unfold elemToString. now rewrite toString_list.
Qed.

(** ** The keywords *)

Lemma normalizeKeywords_string (k : Keywords) :
  exists s, normalizeKeywords (keywordsValue k) = Str s.
Proof.
  destruct k as [|s|l]; unfold normalizeKeywords; cbn [keywordsValue truthy].
  - now exists "".
  - destruct (s =? ""); cbn [negb].
    + now exists "".
    + destruct (bracketed s); [|now exists s].
      destruct (Json.parse _) as [[| | | | |parsed|]|]; eauto.
  - eauto.
Qed.

Lemma normalizeKeywords_plain (s : string) :
  bracketed s = false -> normalizeKeywords (Str s) = Str s.
Proof.
  intros B. unfold normalizeKeywords; cbn [truthy].
  destruct (String.eqb_spec s "") as [->|_]; cbn [negb]; [reflexivity|].
  now rewrite B.
Qed.

Lemma normalizeKeywords_list (l : list string) :
  normalizeKeywords (keywordsValue (KList l)) = Str (Js.join ", " l).
Proof.
  unfold normalizeKeywords; cbn [keywordsValue truthy].
  now rewrite joinValues_Str.
Qed.

Lemma hasChar_append (c : ascii) (a b : string) :
  hasChar c (a ++ b) = hasChar c a || hasChar c b.
Proof.
  induction a as [|x a IH]; [reflexivity|].
  cbn [append hasChar]. now rewrite IH, orb_assoc.
Qed.

Lemma hasChar_join (c : ascii) (sep : string) (l : list string) :
  hasChar c sep = false ->
  forallb (fun x => negb (hasChar c x)) l = true ->
  hasChar c (Js.join sep l) = false.
Proof.
  intros S. unfold Js.join.
  induction l as [|x l IH]; [reflexivity|].
  cbn [forallb]. intros H. apply andb_true_iff in H as [X R].
  apply negb_true_iff in X.
  destruct l as [|y l]; [exact X|].
  change (String.concat sep (x :: y :: l))
    with (x ++ sep ++ String.concat sep (y :: l)).
  now rewrite !hasChar_append, X, S, (IH R).
Qed.

Lemma startsWith_hasChar (c : ascii) (s : string) :
  Js.startsWith s (String c "") = true -> hasChar c s = true.
Proof.
  unfold Js.startsWith. destruct s as [|a r]; cbn; [discriminate|].
  destruct (ascii_dec c a) as [->|]; [|discriminate].
  now rewrite Ascii.eqb_refl.
Qed.

Lemma endsWith_hasChar (c : ascii) (s : string) :
  Js.endsWith s (String c "") = true -> hasChar c s = true.
Proof.
  induction s as [|a r IH]; cbn [Js.endsWith hasChar].
  - cbn. discriminate.
  - intros H. apply orb_true_iff in H as [H|H].
    + apply String.eqb_eq in H. injection H as -> _.
      now rewrite Ascii.eqb_refl.
    + rewrite (IH H). apply orb_true_r.
Qed.

Lemma bracketFree_ends (s : string) :
  bracketFree s = true ->
  Js.startsWith s "[" = false /\ Js.endsWith s "]" = false.
Proof.
  unfold bracketFree. intros H. apply andb_true_iff in H as [O C].
  apply negb_true_iff in O, C. split.
  - destruct (Js.startsWith s "[") eqn:E; [|reflexivity].
    apply startsWith_hasChar in E. congruence.
  - destruct (Js.endsWith s "]") eqn:E; [|reflexivity].
    apply endsWith_hasChar in E. congruence.
Qed.

Lemma bracketFree_join (l : list string) :
  forallb bracketFree l = true -> bracketFree (Js.join ", " l) = true.
Proof.
  intros H. unfold bracketFree.
  rewrite !hasChar_join; try reflexivity.
  - rewrite forallb_forall in *. intros x I.
    specialize (H x I). unfold bracketFree in H.
    now apply andb_true_iff in H as [_ C].
  - rewrite forallb_forall in *. intros x I.
    specialize (H x I). unfold bracketFree in H.
    now apply andb_true_iff in H as [O _].
Qed.

(** ** The descriptor after the assignment of the keywords *)

Lemma lookup_replaceKey (k : string) (v : value) (l : list (string * value)) (k' : string) :
  lookup k' (Json.replaceKey k v l)
  = if Json.hasKey k l && (k' =? k) then v else lookup k' l.
Proof.
  induction l as [|[k0 v0] l IH]; [reflexivity|].
  cbn [Json.replaceKey Json.hasKey lookup].
  destruct (String.eqb_spec k0 k) as [->|N]; cbn [lookup orb andb].
  - rewrite (String.eqb_sym k' k).
    now destruct (k =? k').
  - rewrite IH.
    destruct (String.eqb_spec k0 k') as [E|N']; [|reflexivity].
    subst k0.
    rewrite (proj2 (String.eqb_neq k' k) N).
    now rewrite andb_false_r.
Qed.

Lemma lookup_snoc (k : string) (v : value) (l : list (string * value)) (k' : string) :
  lookup k' (l ++ [(k, v)])%list
  = if Json.hasKey k' l then lookup k' l
    else if k =? k' then v else Undefined.
Proof.
  induction l as [|[k0 v0] l IH]; [reflexivity|].
  cbn [app lookup Json.hasKey].
  destruct (k0 =? k'); [reflexivity | exact IH].
Qed.

Lemma lookup_missing (k : string) (l : list (string * value)) :
  Json.hasKey k l = false -> lookup k l = Undefined.
Proof.
  induction l as [|[k0 v0] l IH]; [reflexivity|].
  cbn [lookup Json.hasKey].
  destruct (k0 =? k); [discriminate | exact IH].
Qed.

Lemma lookup_assigned (props : list (string * value)) (k : string) :
  lookup k (assigned props)
  = if k =? "keywords" then normalizeKeywords (lookup "keywords" props)
    else lookup k props.
Proof.
  unfold assigned, Json.define.
  destruct (Json.hasKey "keywords" props) eqn:H.
  - now rewrite lookup_replaceKey, H.
  - assert (A : Json.arrayIndex "keywords" = None) by reflexivity.
    rewrite A, lookup_snoc.
    rewrite (String.eqb_sym "keywords" k).
    destruct (String.eqb_spec k "keywords") as [->|N].
    + now rewrite H.
    + destruct (Json.hasKey k props) eqn:H'; [reflexivity|].
      now rewrite lookup_missing.
Qed.

(** ** The page and the metadata of one version *)

Lemma composePage_spec (pkgName version : string) (pkgData : PackageRecord)
    (versionData : VersionRecord) (readme : string) (props : list (string * value))
    (functionsData : value) (m : option Manifest) (searchIndex : string)
    (isLatest : bool) :
  asManifest functionsData = Some m ->
  composePage pkgName version pkgData versionData readme functionsData
    (Obj props) searchIndex isLatest
  = Ok (pageOf (frontBlock pkgName version (description pkgData) isLatest
                  (lookup "keywords" props) (lookup "homepage" props)
                  (lookup "license" props) searchIndex (dependencies versionData))
          readme m).
Proof.
  intros H.
  unfold composePage, pageOf, synthesizeReadme, frontmatter; cbn [get obind].
  rewrite (asManifest_truthy _ _ H), (generateApiDocs_spec _ _ H).
  destruct (readme =? ""); cbn [obind].
  - now autorewrite with strings.
  - destruct m; cbn [obind]; [|reflexivity].
    now autorewrite with strings.
Qed.

Lemma renderVersion_spec (pkgName : string) (pkgData : PackageRecord)
    (version : string) (versionData : VersionRecord) (readme : string)
    (props : list (string * value)) (functionsData : value)
    (m : option Manifest) (hasDocs : bool) :
  asManifest functionsData = Some m ->
  renderVersion pkgName pkgData version versionData readme (Obj props)
    functionsData hasDocs
  = Ok (renderedOf pkgName pkgData version versionData readme props
          functionsData m hasDocs).
Proof.
  intros H. unfold renderVersion.
  rewrite (buildSearchIndex_spec _ _ _ _ _ H); cbn [obind get assignKeywords].
  fold (assigned props).
  rewrite (composePage_spec _ _ _ _ _ _ _ _ _ _ H); cbn [obind].
  unfold renderedOf.
  now rewrite !lookup_assigned.
Qed.

Lemma renderVersion_searchIndex (pkgName : string) (pkgData : PackageRecord)
    (version : string) (versionData : VersionRecord) (readme : string)
    (projectConfig functionsData : value) (hasDocs : bool) (r : Rendered) :
  renderVersion pkgName pkgData version versionData readme projectConfig
    functionsData hasDocs = Ok r ->
  buildSearchIndex pkgName pkgData projectConfig functionsData
  = Ok (m_searchIndex (metadata r)).
Proof.
  unfold renderVersion.
  destruct (buildSearchIndex pkgName pkgData projectConfig functionsData)
    as [si|e]; cbn [obind]; [|discriminate].
  destruct (get projectConfig "keywords") as [raw|e]; cbn [obind]; [|discriminate].
  destruct (assignKeywords projectConfig (normalizeKeywords raw)) as [pc|e];
    cbn [obind]; [|discriminate].
  destruct (composePage _ _ _ _ _ _ _ _ _) as [page|e]; cbn [obind]; [|discriminate].
  destruct (get pc "keywords") as [k|e]; cbn [obind]; [|discriminate].
  destruct (get pc "homepage") as [h|e]; cbn [obind]; [|discriminate].
  destruct (get pc "license") as [l|e]; cbn [obind]; [|discriminate].
  intros H. injection H as <-. reflexivity.
Qed.

(** ** Effects *)

Lemma bind_ok {A B : Type} (m : M A) (k : A -> M B) (w w' : World) (a : A) :
  m w = (Ok a, w') -> bind m k w = k a w'.
Proof.
  intros E. unfold bind. now rewrite E.
Qed.

Lemma bind_throw {A B : Type} (m : M A) (k : A -> M B) (w w' : World) (e : exn) :
  m w = (Throw e, w') -> bind m k w = (Throw e, w').
Proof.
  intros E. unfold bind. now rewrite E.
Qed.

Lemma forEach_app {A : Type} (l1 l2 : list A) (body : A -> M unit) (w : World) :
  forEach (l1 ++ l2)%list body w
  = match forEach l1 body w with
    | (Ok _, w1) => forEach l2 body w1
    | (Throw e, w1) => (Throw e, w1)
    end.
Proof.
  revert w. induction l1 as [|x l1 IH]; intros w; [reflexivity|].
  cbn [app forEach]. unfold bind.
  destruct (body x w) as [[[]|e] w1]; [apply IH | reflexivity].
Qed.

Lemma forEach_map {A B : Type} (f : A -> B) (l : list A) (body : B -> M unit) (w : World) :
  forEach (map f l) body w = forEach l (fun x => body (f x)) w.
Proof.
  revert w. induction l as [|x l IH]; intros w; [reflexivity|].
  cbn [map forEach]. unfold bind.
  destruct (body (f x) w) as [[[]|e] w1]; [apply IH | reflexivity].
Qed.

(** The two loops of the script visit the versions as one loop over
    [jobs] does. *)
Lemma forEach_jobs (env : Env) (registry : Registry) (w : World) :
  forEach registry (processPackage env) w
  = forEach (jobs registry) (processJob env) w.
Proof.
  revert w. induction registry as [|pkg registry IH]; intros w; [reflexivity|].
  cbn [forEach jobs flat_map]. fold (jobs registry).
  rewrite forEach_app, forEach_map. unfold bind.
  change (forEach (versions (snd pkg)) (fun x => processJob env (pkg, x)) w)
    with (processPackage env pkg w).
  destruct (processPackage env pkg w) as [[[]|e] w1]; [apply IH | reflexivity].
Qed.

Lemma processJob_missing (env : Env) (j : Job) (w : World) :
  disk env (gspkgPath env (snd (snd j))) = None ->
  processJob env j w = (Ok tt, skipped env j w).
Proof.
  intros H. unfold processJob, processVersion, bind; cbn [ensureDir].
  now rewrite H.
Qed.

Lemma processJob_unreadable (env : Env) (j : Job) (w : World) :
  disk env (gspkgPath env (snd (snd j))) = Some Unreadable ->
  processJob env j w
  = (Throw InvalidZip, mkdir (outputDir env (fst (fst j)) (fst (snd j))) w).
Proof.
  intros H. unfold processJob, processVersion, bind; cbn [ensureDir].
  now rewrite H.
Qed.

Lemma mkdir_files (p : string) (w : World) : files (mkdir p w) = files w.
Proof.
  unfold mkdir. now destruct (existsb _ _).
Qed.

Lemma mkdir_console (p : string) (w : World) : console (mkdir p w) = console w.
Proof.
  unfold mkdir. now destruct (existsb _ _).
Qed.

Lemma mkdir_In (p : string) (w : World) : In p (dirs (mkdir p w)).
Proof.
  unfold mkdir. destruct (existsb (String.eqb p) (dirs w)) eqn:E.
  - apply existsb_exists in E as (x & I & Q).
    apply String.eqb_eq in Q. now subst x.
  - cbn [dirs]. apply in_or_app. right. now left.
Qed.



(** ** The docs folder and the files of a version *)

Lemma copyDocs_spec (out : string) (zipEntries : list ZipEntry) (b : bool) (w : World) :
  exists w',
    copyDocs out zipEntries b w = (Ok (b || existsb isDocFile zipEntries), w')
    /\ files w' = (files w ++ copied out zipEntries)%list
    /\ console w' = console w.
Proof.
  revert b w. induction zipEntries as [|e es IH]; intros b w.
  - exists w. cbn. rewrite orb_false_r, app_nil_r. now unfold ret.
  - cbn [copyDocs existsb]. unfold copied; cbn [filter].
    destruct (isDocFile e) eqn:D.
    + unfold bind; cbn [ensureDir writeFile].
      destruct (IH true (written (docTarget out e) (Bytes (getData e))
                           (mkdir (Path.dirname (docTarget out e)) w)))
        as (w' & E & F & C).
      exists w'. rewrite E. cbn [orb] in *. rewrite orb_true_r.
      repeat split.
      * rewrite F. cbn [written files map]. rewrite mkdir_files.
        now rewrite <- app_assoc.
      * rewrite C. cbn [written console]. apply mkdir_console.
    + cbn [orb]. apply IH.
Qed.

Lemma existsb_isDocFile (zipEntries : list ZipEntry) :
  existsb isDocFile zipEntries = true
  <-> exists e, In e zipEntries
                /\ Js.startsWith (entryName e) "docs/" = true
                /\ isDirectory e = false.
Proof.
  rewrite existsb_exists. unfold isDocFile.
  split; intros (e & I & H); exists e; split; auto.
  - apply andb_true_iff in H as [H1 H2].
    split; [exact H1 | now destruct (isDirectory e)].
  - destruct H as [H1 H2]. now rewrite H1, H2.
Qed.

(** What [finishArchive] does for a descriptor that is an object and a
    manifest of the shape of the data model. *)
Lemma finishArchive_spec (env : Env) (pkgName : string) (pkgData : PackageRecord)
    (version : string) (versionData : VersionRecord) (zipEntries : list ZipEntry)
    (props : list (string * value)) (functionsData : value)
    (m : option Manifest) (w : World) :
  asManifest functionsData = Some m ->
  exists w',
    finishArchive env pkgName pkgData version versionData zipEntries
      (Obj props) functionsData w = (Ok tt, w')
    /\ files w'
       = (files w ++ copied (outputDir env pkgName version) zipEntries
          ++ (let r := renderedOf pkgName pkgData version versionData
                         (readReadme zipEntries) props functionsData m
                         (existsb isDocFile zipEntries) in
              [(indexPath env pkgName version, Bytes (indexMd r));
               (metadataPath env pkgName version, MetadataJson (metadata r))]))%list
    /\ console w' = console w.
Proof.
  intros H.
  destruct (copyDocs_spec (outputDir env pkgName version) zipEntries false w)
    as (w1 & E & F & C).
  unfold finishArchive.
  rewrite (bind_ok _ _ _ _ _ E).
  unfold bind, lift. rewrite (renderVersion_spec _ _ _ _ _ _ _ _ _ H).
  cbn [writeFile orb].
  eexists; split; [reflexivity|].
  cbn [written files console]. split; [|exact C].
  rewrite F. now rewrite <- !app_assoc.
Qed.

(** ** The lookups of the entries *)





Lemma endsWith_append (a b : string) : Js.endsWith (a ++ b) b = true.
Proof.
  induction a as [|x a IH].
  - destruct b; cbn; [reflexivity|].
    now rewrite Ascii.eqb_refl, String.eqb_refl.
  - cbn [append Js.endsWith]. rewrite IH. apply orb_true_r.
Qed.

Lemma readReadme_empty (zipEntries : list ZipEntry) :
  readReadme zipEntries = ""
  <-> findEntry "readme.md" zipEntries = None
      \/ exists e, findEntry "readme.md" zipEntries = Some e /\ getData e = "".
Proof.
  unfold readReadme.
  destruct (findEntry "readme.md" zipEntries) as [e|]; split.
  - intros H. right. now exists e.
  - intros [H|(e' & H & D)]; [discriminate | congruence].
  - now left.
  - reflexivity.
Qed.

(** ** The name of a dependency *)

Lemma name_char_bytes (a : ascii) :
  is_name_char a = true ->
  byte_is 10 a = false /\ byte_is 13 a = false /\ byte_is 226 a = false.
Proof.
  destruct a as [[] [] [] [] [] [] [] []]; intros H;
    try discriminate H; repeat split.
Qed.

Lemma takeName_append (name rest : string) :
  nameChars name = true -> takeName (name ++ rest) = name ++ takeName rest.
Proof.
  unfold nameChars.
  induction name as [|a name IH]; cbn [list_ascii_of_string forallb append takeName];
    [reflexivity|].
  intros H. apply andb_true_iff in H as [A R].
  now rewrite A, (IH R).
Qed.

Lemma hasLineTerminator_skip (a : ascii) (tail : string) :
  byte_is 10 a = false -> byte_is 13 a = false -> byte_is 226 a = false ->
  Js.hasLineTerminator (String a tail) = Js.hasLineTerminator tail.
Proof.
  intros B1 B2 B3. cbn [Js.hasLineTerminator]. rewrite B1, B2, B3.
  destruct tail as [|b [|c t]]; reflexivity.
Qed.

Lemma hasLineTerminator_append (name rest : string) :
  nameChars name = true ->
  Js.hasLineTerminator (name ++ rest) = Js.hasLineTerminator rest.
Proof.
  unfold nameChars.
  induction name as [|a name IH]; cbn [list_ascii_of_string forallb append]; [reflexivity|].
  intros H. apply andb_true_iff in H as [A R].
  destruct (name_char_bytes a A) as (B1 & B2 & B3).
  now rewrite hasLineTerminator_skip, (IH R).
Qed.

(** The name the pattern of the script captures in a specifier made of a
    package name (letters, digits and hyphens) and a constraint. *)
Lemma depName_of_specifier (name op rest : string) :
  name <> "" ->
  nameChars name = true ->
  Js.hasLineTerminator rest = false ->
  op = "@" \/ op = ">=" ->
  depName name = name /\ depName (name ++ op ++ rest) = name.
Proof.
  intros N C L O.
  assert (E : forall tail, takeName tail = "" -> Js.hasLineTerminator tail = false ->
                           depName (name ++ tail) = name).
  { intros tail T H. unfold depName, matchName.
    rewrite takeName_append, T, append_empty_r by exact C.
    rewrite hasLineTerminator_append, H by exact C.
    now rewrite (proj2 (String.eqb_neq _ _) N). }
  split.
  - rewrite <- (append_empty_r name) at 1. now apply E.
  - apply E; destruct O as [-> | ->]; try reflexivity;
      cbn [append]; rewrite !hasLineTerminator_skip; auto.
Qed.
(** ** Paths *)

Lemma split_nonempty (sep : ascii) (s : string) : Js.split sep s <> [].
Proof.
  destruct s as [|c r]; cbn [Js.split]; [discriminate|].
  destruct (Ascii.eqb c sep); [discriminate|].
  destruct (Js.split sep r); discriminate.
Qed.

Lemma split_plain (p : string) : hasChar "/" p = false -> Js.split "/" p = [p].
Proof.
  induction p as [|c r IH]; [reflexivity|].
  cbn [hasChar Js.split]. intros H. apply orb_false_iff in H as [C R].
  rewrite C, (IH R). reflexivity.
Qed.

Lemma split_append (a b : string) :
  Js.split "/" (a ++ "/" ++ b) = (Js.split "/" a ++ Js.split "/" b)%list.
Proof.
  induction a as [|c a IH]; [reflexivity|].
  cbn [append Js.split]. change ("/" ++ b) with (String "/" b) in IH.
  destruct (Ascii.eqb c "/").
  - cbn [Js.split app]. cbn [append] in IH. now rewrite IH.
  - cbn [append] in IH. rewrite IH.
    destruct (Js.split "/" a) as [|h t] eqn:E; [now apply split_nonempty in E|].
    reflexivity.
Qed.

Lemma split_slashfree (s : string) :
  Forall (fun x => hasChar "/" x = false) (Js.split "/" s).
Proof.
  induction s as [|c r IH]; [repeat constructor|].
  cbn [Js.split]. destruct (Ascii.eqb c "/") eqn:C.
  - constructor; [reflexivity | exact IH].
  - destruct (Js.split "/" r) as [|h t]; [repeat constructor; cbn; now rewrite C|].
    inversion IH as [|? ? H T]; subst.
    constructor; [cbn; now rewrite C, H | exact T].
Qed.

Lemma plainSegment_inv (p : string) :
  plainSegment p = true ->
  (p =? "") = false /\ (p =? ".") = false /\ (p =? "..") = false
  /\ hasChar "/" p = false.
Proof.
  unfold plainSegment. intros H.
  apply andb_true_iff in H as [H S]. apply andb_true_iff in H as [H D2].
  apply andb_true_iff in H as [E D1].
  now rewrite !negb_true_iff in *.
Qed.

Lemma normalizeSegments_plain (allow : bool) (acc segs plain : list string) :
  Forall (fun p => plainSegment p = true) plain ->
  Path.normalizeSegments allow acc (segs ++ plain)
  = (Path.normalizeSegments allow acc segs ++ plain)%list.
Proof.
  intros P. revert acc. induction segs as [|s segs IH]; intros acc.
  - cbn [app Path.normalizeSegments]. revert acc.
    induction P as [|p plain Hp _ IHp]; intros acc.
    + now rewrite app_nil_r.
    + cbn [Path.normalizeSegments].
      destruct (plainSegment_inv p Hp) as (E & D1 & D2 & _).
      rewrite E, D1, D2. cbn [orb]. rewrite IHp. cbn [rev].
      now rewrite <- app_assoc.
  - cbn [app Path.normalizeSegments].
    destruct ((s =? "") || (s =? ".")); [apply IH|].
    destruct (s =? "..").
    + destruct acc as [|top acc'].
      * destruct allow; apply IH.
      * destruct (top =? ".."); apply IH.
    + apply IH.
Qed.

(** The segments [path.normalize] keeps of an absolute path are plain. *)
Lemma normalizeSegments_keeps_plain (acc segs : list string) :
  Forall (fun p => plainSegment p = true) acc ->
  Forall (fun x => hasChar "/" x = false) segs ->
  Forall (fun p => plainSegment p = true) (Path.normalizeSegments false acc segs).
Proof.
  intros A S. revert acc A. induction S as [|s segs Hs _ IH]; intros acc A.
  - cbn. now apply Forall_rev.
  - cbn [Path.normalizeSegments].
    destruct (s =? "") eqn:E; [apply IH, A|].
    destruct (s =? ".") eqn:D1; [apply IH, A|]. cbn [orb].
    destruct (s =? "..") eqn:D2.
    + destruct acc as [|top acc']; [apply IH, A|].
      inversion A as [|? ? Ht At]; subst.
      destruct (top =? "..") eqn:T.
      * apply plainSegment_inv in Ht as (_ & _ & T' & _). congruence.
      * apply IH, At.
    + apply IH. constructor; [|exact A].
      unfold plainSegment. now rewrite E, D1, D2, Hs.
Qed.

Lemma join_snoc (l : list string) (x : string) :
  Js.join "/" (l ++ [x]) = concatAll (map (fun s => s ++ "/") l) ++ x.
Proof.
  unfold Js.join. induction l as [|a l IH]; [reflexivity|].
  cbn [app map concatAll].
  destruct (l ++ [x])%list as [|b t] eqn:E; [now destruct l|].
  change (String.concat "/" (a :: b :: t)) with (a ++ "/" ++ String.concat "/" (b :: t)).
  now rewrite IH, !append_assoc.
Qed.

Lemma join_app_plain (l : list string) (x : string) (r : list string) :
  Js.join "/" (l ++ x :: r)
  = concatAll (map (fun s => s ++ "/") l) ++ Js.join "/" (x :: r).
Proof.
  unfold Js.join. induction l as [|a l IH]; [reflexivity|].
  cbn [app map concatAll].
  destruct (l ++ x :: r)%list as [|b t] eqn:E; [now destruct l|].
  change (String.concat "/" (a :: b :: t)) with (a ++ "/" ++ String.concat "/" (b :: t)).
  now rewrite IH, !append_assoc.
Qed.

Lemma split_join (l : list string) :
  l <> [] ->
  Forall (fun x => hasChar "/" x = false) l ->
  Js.split "/" (Js.join "/" l) = l.
Proof.
  intros N F. induction F as [|x l Hx F IH]; [contradiction|].
  destruct l as [|y l].
  - cbn. now apply split_plain.
  - change (Js.join "/" (x :: y :: l)) with (x ++ "/" ++ Js.join "/" (y :: l)).
    rewrite split_append, (split_plain x Hx), IH; [reflexivity | discriminate].
Qed.

Lemma endsWith_slash_plain (a v : string) :
  hasChar "/" v = false -> v <> "" -> Js.endsWith (a ++ v) "/" = false.
Proof.
  intros H N. induction a as [|x a IH].
  - cbn [append]. destruct (Js.endsWith v "/") eqn:E; [|reflexivity].
    apply endsWith_hasChar in E. congruence.
  - cbn [append Js.endsWith]. rewrite IH, orb_false_r.
    apply String.eqb_neq. intros Q. injection Q as _ Q.
    destruct a; [cbn in Q; contradiction | discriminate].
Qed.

Lemma join_plain_nonempty (l : list string) :
  l <> [] -> Forall (fun p => plainSegment p = true) l -> Js.join "/" l <> "".
Proof.
  intros N F. destruct F as [|x l Hx F]; [contradiction|].
  apply plainSegment_inv in Hx as (E & _).
  apply String.eqb_neq in E.
  destruct l as [|y l]; [exact E|].
  change (Js.join "/" (x :: y :: l)) with (x ++ "/" ++ Js.join "/" (y :: l)).
  destruct x; [contradiction | discriminate].
Qed.

Lemma plain_slashfree (l : list string) :
  Forall (fun p => plainSegment p = true) l ->
  Forall (fun x => hasChar "/" x = false) l.
Proof.
  intros F. eapply Forall_impl; [|exact F].
  intros p H. now apply plainSegment_inv in H.
Qed.

(** The segments of a path in canonical form are its own. *)
Lemma segments_canonical (N : list string) :
  Forall (fun p => plainSegment p = true) N ->
  Path.normalizeSegments false [] (Js.split "/" ("/" ++ Js.join "/" N)) = N.
Proof.
  intros F. change ("/" ++ Js.join "/" N) with ("" ++ "/" ++ Js.join "/" N).
  rewrite split_append.
  destruct N as [|x N]; [reflexivity|].
  rewrite split_join; [|discriminate | now apply plain_slashfree].
  exact (normalizeSegments_plain false [] [] (x :: N) F).
Qed.

Lemma isAbsolute_slash (s : string) : Path.isAbsolute (String "/" s) = true.
Proof.
  unfold Path.isAbsolute, Js.startsWith. cbn [String.prefix].
  destruct (ascii_dec "/" "/") as [_|C]; [now destruct s | contradiction].
Qed.

Lemma normalize_canonical (N extra : list string) :
  Forall (fun p => plainSegment p = true) N ->
  Forall (fun p => plainSegment p = true) extra ->
  extra <> [] ->
  Path.normalize (("/" ++ Js.join "/" N) ++ "/" ++ Js.join "/" extra)
  = "/" ++ Js.join "/" (N ++ extra).
Proof.
  intros FN FE NE. unfold Path.normalize.
  assert (A : Path.isAbsolute (("/" ++ Js.join "/" N) ++ "/" ++ Js.join "/" extra) = true)
    by apply isAbsolute_slash.
  rewrite A. cbn [negb].
  assert (Z : ((("/" ++ Js.join "/" N) ++ "/" ++ Js.join "/" extra) =? "") = false)
    by reflexivity.
  rewrite Z.
  rewrite split_append, (split_join extra NE (plain_slashfree _ FE)).
  rewrite (normalizeSegments_plain false [] _ extra FE), (segments_canonical N FN).
  assert (B : Js.join "/" (N ++ extra) <> "").
  { apply join_plain_nonempty; [destruct N, extra; try discriminate; contradiction|].
    apply Forall_app. now split. }
  apply String.eqb_neq in B. rewrite B.
  assert (T : Js.endsWith (("/" ++ Js.join "/" N) ++ "/" ++ Js.join "/" extra) "/" = false).
  { destruct (exists_last NE) as (l & x & ->).
    apply Forall_app in FE as [_ Fx]. inversion Fx as [|? ? Hx _]; subst.
    apply plainSegment_inv in Hx as (E & _ & _ & S).
    rewrite join_snoc, <- !append_assoc.
    apply endsWith_slash_plain; [exact S | now apply String.eqb_neq]. }
  rewrite T. now rewrite append_empty_r.
Qed.

Lemma join_canonical (N extra : list string) :
  Forall (fun p => plainSegment p = true) N ->
  Forall (fun p => plainSegment p = true) extra ->
  extra <> [] ->
  Path.join (("/" ++ Js.join "/" N) :: extra) = "/" ++ Js.join "/" (N ++ extra).
Proof.
  intros FN FE NE. unfold Path.join.
  assert (K : filter (fun x => negb (x =? "")) (("/" ++ Js.join "/" N) :: extra)
              = ("/" ++ Js.join "/" N) :: extra).
  { cbn [filter append String.eqb negb]. f_equal.
    apply forallb_filter_id. apply forallb_forall. intros x I.
    rewrite Forall_forall in FE. apply FE, plainSegment_inv in I as (E & _).
    now rewrite E. }
  rewrite K.
  destruct extra as [|x extra]; [contradiction|].
  change (Js.join "/" (("/" ++ Js.join "/" N) :: x :: extra))
    with (("/" ++ Js.join "/" N) ++ "/" ++ Js.join "/" (x :: extra)).
  now apply normalize_canonical.
Qed.

Lemma join_trailing (N : list string) :
  N <> [] -> Js.join "/" N ++ "/" = concatAll (map (fun s => s ++ "/") N).
Proof.
  intros NE. destruct (exists_last NE) as (l & x & ->).
  rewrite join_snoc, map_app, concatAll_app. cbn [map concatAll].
  now rewrite append_empty_r, append_assoc.
Qed.

(** Joining plain segments to a canonical directory appends them. *)
Lemma join_canonical_append (N extra : list string) :
  Forall (fun p => plainSegment p = true) N ->
  Forall (fun p => plainSegment p = true) extra ->
  N <> [] -> extra <> [] ->
  Path.join (("/" ++ Js.join "/" N) :: extra)
  = ("/" ++ Js.join "/" N) ++ "/" ++ Js.join "/" extra.
Proof.
  intros FN FE NN NE. rewrite (join_canonical N extra FN FE NE).
  destruct extra as [|x extra]; [contradiction|].
  rewrite join_app_plain, <- (join_trailing N NN).
  now rewrite !append_assoc.
Qed.

(** ** The layout of the content directory *)

Lemma startsWith_append (a b : string) : Js.startsWith (a ++ b) a = true.
Proof.
  unfold Js.startsWith. induction a as [|c a IH]; [now destruct b|].
  cbn [append String.prefix].
  destruct (ascii_dec c c) as [_|C]; [exact IH | contradiction].
Qed.

Lemma append_cancel (a x y : string) : a ++ x = a ++ y -> x = y.
Proof.
  induction a as [|c a IH]; [trivial|].
  cbn [append]. intros H. injection H as H. now apply IH.
Qed.

Lemma siteRoot_canonical (env : Env) :
  exists N, Forall (fun p => plainSegment p = true) N
            /\ SITE_ROOT env = "/" ++ Js.join "/" N.
Proof.
  unfold SITE_ROOT, Path.resolve.
  assert (A : Path.isAbsolute "../" = false) by reflexivity. rewrite A.
  eexists. split; [|reflexivity].
  apply normalizeSegments_keeps_plain; [constructor | apply split_slashfree].
Qed.

(** The content directory is an absolute path in canonical form that ends
    with the three folders the script names. *)
Lemma contentDir_site (env : Env) :
  exists N, Forall (fun p => plainSegment p = true) N
            /\ SITE_ROOT env = "/" ++ Js.join "/" N
            /\ CONTENT_DIR env
               = "/" ++ Js.join "/" (N ++ ["src"; "content"; "packages"]).
Proof.
  destruct (siteRoot_canonical env) as (N & F & E).
  exists N. split; [exact F|]. split; [exact E|].
  unfold CONTENT_DIR. rewrite E.
  unfold Path.join.
  assert (K : filter (fun x => negb (x =? ""))
                ["/" ++ Js.join "/" N; "src/content/packages"]
              = ["/" ++ Js.join "/" N; "src/content/packages"]) by reflexivity.
  rewrite K.
  change (Js.join "/" ["/" ++ Js.join "/" N; "src/content/packages"])
    with (("/" ++ Js.join "/" N) ++ "/" ++ Js.join "/" ["src"; "content"; "packages"]).
  apply normalize_canonical; [exact F | | discriminate].
  repeat constructor.
Qed.

Lemma contentDir_canonical (env : Env) :
  exists N, Forall (fun p => plainSegment p = true) N /\ N <> []
            /\ CONTENT_DIR env = "/" ++ Js.join "/" N.
Proof.
  destruct (contentDir_site env) as (N & F & _ & E).
  exists (N ++ ["src"; "content"; "packages"])%list. split; [|split; [|exact E]].
  - apply Forall_app. split; [exact F | repeat constructor].
  - destruct N; discriminate.
Qed.

Lemma outputDir_canonical (env : Env) (pkgName version : string) :
  plainSegment pkgName = true -> plainSegment version = true ->
  exists N, Forall (fun p => plainSegment p = true) N /\ N <> []
            /\ outputDir env pkgName version = "/" ++ Js.join "/" N
            /\ outputDir env pkgName version
               = CONTENT_DIR env ++ "/" ++ pkgName ++ "/" ++ version.
Proof.
  intros P V. destruct (contentDir_canonical env) as (N & F & NE & E).
  assert (FE : Forall (fun p => plainSegment p = true) [pkgName; version])
    by (repeat constructor; assumption).
  exists (N ++ [pkgName; version])%list. split; [|split; [|split]].
  - apply Forall_app. now split.
  - destruct N; discriminate.
  - unfold outputDir. rewrite E. apply join_canonical; [exact F | exact FE | discriminate].
  - unfold outputDir. rewrite E.
    now rewrite (join_canonical_append N [pkgName; version] F FE NE) by discriminate.
Qed.

Lemma join_file (dir : string) (N : list string) (name : string) :
  Forall (fun p => plainSegment p = true) N -> N <> [] ->
  plainSegment name = true ->
  dir = "/" ++ Js.join "/" N ->
  Path.join [dir; name] = dir ++ "/" ++ name.
Proof.
  intros F NE P ->.
  now rewrite (join_canonical_append N [name] F (Forall_cons _ P (Forall_nil _)) NE)
    by discriminate.
Qed.

Lemma under_append (dir rest : string) : under dir (dir ++ "/" ++ rest) = true.
Proof.
  unfold under. rewrite <- append_assoc. apply startsWith_append.
Qed.


Lemma outputDir_layout (env : Env) (pkgName version : string) :
  plainSegment pkgName = true -> plainSegment version = true ->
  outputDir env pkgName version
  = CONTENT_DIR env ++ "/" ++ pkgName ++ "/" ++ version
  /\ indexPath env pkgName version
     = outputDir env pkgName version ++ "/index.md"
  /\ metadataPath env pkgName version
     = outputDir env pkgName version ++ "/metadata.json"
  /\ under (CONTENT_DIR env) (outputDir env pkgName version) = true
  /\ under (CONTENT_DIR env) (indexPath env pkgName version) = true
  /\ under (CONTENT_DIR env) (metadataPath env pkgName version) = true.
Proof.
  intros P V. destruct (outputDir_canonical env pkgName version P V) as (N & F & NE & C & E).
  assert (I : indexPath env pkgName version = outputDir env pkgName version ++ "/index.md")
    by (apply (join_file _ N); auto).
  assert (M : metadataPath env pkgName version
              = outputDir env pkgName version ++ "/metadata.json")
    by (apply (join_file _ N); auto).
  repeat split; trivial.
  - rewrite E. apply under_append.
  - rewrite I, E, !append_assoc. apply under_append.
  - rewrite M, E, !append_assoc. apply under_append.
Qed.


(** ** The page and the metadata beside the copied files *)

Lemma isAbsolute_inv (p : string) :
  Path.isAbsolute p = true -> exists r, p = String "/" r.
Proof.
  destruct p as [|c r]; [discriminate|].
  unfold Path.isAbsolute, Js.startsWith. cbn [String.prefix].
  destruct (ascii_dec "/" c) as [<-|]; [now exists r | discriminate].
Qed.

Lemma normalize_absolute (p : string) :
  Path.isAbsolute p = true -> Path.isAbsolute (Path.normalize p) = true.
Proof.
  intros A. destruct (isAbsolute_inv p A) as (r & ->).
  unfold Path.normalize. rewrite A.
  assert (Z : (String "/" r =? "") = false) by reflexivity. rewrite Z.
  destruct (Js.join "/" _ =? ""); [reflexivity|]. apply isAbsolute_slash.
Qed.

Lemma outputDir_absolute (env : Env) (pkgName version : string) :
  Path.isAbsolute (outputDir env pkgName version) = true.
Proof.
  destruct (contentDir_canonical env) as (N & _ & _ & E).
  unfold outputDir, Path.join. rewrite E.
  cbn [filter append String.eqb negb].
  assert (J : forall l, Path.isAbsolute (Js.join "/" (String "/" (Js.join "/" N) :: l)) = true).
  { intros [|y l]; [apply isAbsolute_slash|].
    change (Js.join "/" (String "/" (Js.join "/" N) :: y :: l))
      with (String "/" (Js.join "/" N ++ "/" ++ Js.join "/" (y :: l))).
    apply isAbsolute_slash. }
  apply normalize_absolute, J.
Qed.

(** A file name joined to an absolute directory is the last segment of
    the result. *)
Lemma join_name (dir name : string) :
  Path.isAbsolute dir = true -> plainSegment name = true ->
  Path.join [dir; name]
  = "/" ++ concatAll (map (fun s => s ++ "/")
                        (Path.normalizeSegments false [] (Js.split "/" dir)))
    ++ name.
Proof.
  intros A P. destruct (isAbsolute_inv dir A) as (r & ->).
  pose proof (plainSegment_inv name P) as (E & _ & _ & S).
  unfold Path.join. cbn [filter String.eqb negb]. rewrite E. cbn [negb].
  change (Js.join "/" [String "/" r; name]) with (String "/" r ++ "/" ++ name).
  unfold Path.normalize.
  assert (A' : Path.isAbsolute (String "/" r ++ "/" ++ name) = true)
    by apply isAbsolute_slash.
  rewrite A'. cbn [negb].
  assert (Z : ((String "/" r ++ "/" ++ name) =? "") = false) by reflexivity.
  rewrite Z, split_append, (split_plain name S).
  rewrite (normalizeSegments_plain false [] _ [name] (Forall_cons _ P (Forall_nil _))).
  rewrite join_snoc.
  assert (B : (concatAll (map (fun s => s ++ "/")
                 (Path.normalizeSegments false [] (Js.split "/" (String "/" r))))
               ++ name =? "") = false).
  { apply String.eqb_neq. intros Q. apply String.eqb_neq in E.
    destruct (concatAll _); [cbn in Q; contradiction | discriminate]. }
  rewrite B.
  assert (T : Js.endsWith (String "/" r ++ "/" ++ name) "/" = false).
  { rewrite <- append_assoc.
    apply endsWith_slash_plain; [exact S | now apply String.eqb_neq]. }
  rewrite T. now rewrite append_empty_r.
Qed.

Lemma join_name_injective (dir a b : string) :
  Path.isAbsolute dir = true -> plainSegment a = true -> plainSegment b = true ->
  Path.join [dir; a] = Path.join [dir; b] -> a = b.
Proof.
  intros A Pa Pb E. rewrite (join_name dir a A Pa), (join_name dir b A Pb) in E.
  apply append_cancel in E. now apply append_cancel in E.
Qed.

Lemma indexPath_metadataPath (env : Env) (pkgName version : string) :
  (metadataPath env pkgName version =? indexPath env pkgName version) = false.
Proof.
  apply String.eqb_neq. intros E.
  apply join_name_injective in E;
    [discriminate | apply outputDir_absolute | reflexivity | reflexivity].
Qed.

Lemma fileAt_written (p : string) (c : content) (w : World) :
  fileAt p (written p c w) = Some c.
Proof.
  unfold fileAt, written. cbn [files]. rewrite rev_app_distr. cbn [rev app find fst].
  now rewrite String.eqb_refl.
Qed.

Lemma fileAt_written_other (p q : string) (c : content) (w : World) :
  (q =? p) = false -> fileAt p (written q c w) = fileAt p w.
Proof.
  intros N. unfold fileAt, written. cbn [files]. rewrite rev_app_distr.
  cbn [rev app find fst]. now rewrite N.
Qed.


(** ** Where the files of the docs folder go *)

Lemma docTarget_plain (env : Env) (pkgName version : string) (e : ZipEntry)
    (segs : list string) :
  plainSegment pkgName = true -> plainSegment version = true ->
  Forall (fun p => plainSegment p = true) segs -> segs <> [] ->
  entryName e = "docs/" ++ Js.join "/" segs ->
  docTarget (outputDir env pkgName version) e
  = outputDir env pkgName version ++ "/docs/" ++ Js.join "/" segs.
Proof.
  intros P V F NE E.
  destruct (outputDir_canonical env pkgName version P V) as (N & FN & NN & C & _).
  unfold docTarget. rewrite E.
  change (Js.substring_from 5 ("docs/" ++ Js.join "/" segs)) with (Js.join "/" segs).
  pose proof (join_plain_nonempty segs NE F) as J. apply String.eqb_neq in J.
  unfold Path.join. cbn [filter].
  assert (O : (outputDir env pkgName version =? "") = false)
    by (rewrite C; reflexivity).
  rewrite O, J. cbn [negb String.eqb].
  change (Js.join "/" [outputDir env pkgName version; "docs"; Js.join "/" segs])
    with (outputDir env pkgName version ++ "/" ++ "docs" ++ "/" ++ Js.join "/" segs).
  destruct segs as [|x segs]; [contradiction|].
  change ("docs" ++ "/" ++ Js.join "/" (x :: segs)) with (Js.join "/" ("docs" :: x :: segs)).
  rewrite C at 1.
  rewrite (normalize_canonical N ("docs" :: x :: segs) FN) by (try discriminate; now constructor).
  rewrite C, join_app_plain, <- (join_trailing N NN).
  now rewrite !append_assoc.
Qed.

Lemma list_ascii_append (a b : string) :
  list_ascii_of_string (a ++ b)
  = (list_ascii_of_string a ++ list_ascii_of_string b)%list.
Proof.
  induction a as [|c a IH]; [reflexivity|]. cbn. now rewrite IH.
Qed.

Lemma dropWhile_all {A : Type} (f : A -> bool) (l r : list A) :
  Forall (fun x => f x = true) l -> Path.dropWhile f (l ++ r) = Path.dropWhile f r.
Proof.
  induction 1 as [|x l H _ IH]; [reflexivity|].
  cbn [app Path.dropWhile]. now rewrite H.
Qed.

Lemma hasChar_Forall (c : ascii) (s : string) :
  hasChar c s = false ->
  Forall (fun x => negb (Ascii.eqb c x) = true) (list_ascii_of_string s).
Proof.
  induction s as [|a s IH]; [constructor|].
  cbn [hasChar list_ascii_of_string]. intros H.
  apply orb_false_iff in H as [C H]. constructor; [|now apply IH].
  rewrite Ascii.eqb_sym, C. reflexivity.
Qed.

(** The parent of a file in a directory other than the root. *)
Lemma dirname_file (r x : string) :
  r <> "" -> hasChar "/" x = false -> x <> "" ->
  Path.dirname (String "/" r ++ "/" ++ x) = String "/" r.
Proof.
  intros R S X. cbn [append Path.dirname].
  change (String "/" x) with ("/" ++ x).
  rewrite !list_ascii_append, !rev_app_distr.
  pose proof (hasChar_Forall "/" x S) as F.
  apply Forall_rev in F.
  assert (D1 : Path.dropWhile (Ascii.eqb "/")
                 (rev (list_ascii_of_string x) ++ rev (list_ascii_of_string "/")
                  ++ rev (list_ascii_of_string r))%list
               = (rev (list_ascii_of_string x) ++ rev (list_ascii_of_string "/")
                  ++ rev (list_ascii_of_string r))%list).
  { destruct (rev (list_ascii_of_string x)) as [|c l] eqn:E.
    - destruct x; [contradiction|]. cbn in E.
      apply (f_equal (@List.length ascii)) in E. rewrite length_app in E.
      cbn in E. lia.
    - inversion F as [|? ? H _]; subst. cbn [app Path.dropWhile].
      apply negb_true_iff in H. now rewrite H. }
  rewrite <- app_assoc, D1.
  rewrite (dropWhile_all (fun c => negb (Ascii.eqb "/" c)) _ _ F).
  cbn [list_ascii_of_string rev app Path.dropWhile Ascii.eqb Bool.eqb negb].
  destruct (rev (list_ascii_of_string r)) as [|c l] eqn:E.
  - destruct r; [contradiction|]. cbn in E.
    apply (f_equal (@List.length ascii)) in E. rewrite length_app in E. cbn in E. lia.
  - rewrite <- E, rev_involutive, string_of_list_ascii_of_string. reflexivity.
Qed.

Lemma docTarget_parent (env : Env) (pkgName version : string) (e : ZipEntry)
    (folders : list string) (name : string) :
  plainSegment pkgName = true -> plainSegment version = true ->
  Forall (fun p => plainSegment p = true) folders -> plainSegment name = true ->
  entryName e = "docs/" ++ Js.join "/" (folders ++ [name]) ->
  Path.dirname (docTarget (outputDir env pkgName version) e)
  = outputDir env pkgName version ++ "/"
    ++ Js.join "/" ("docs" :: folders).
Proof.
  intros P V F Pn E.
  assert (FS : Forall (fun p => plainSegment p = true) (folders ++ [name]))
    by (apply Forall_app; split; [exact F | now constructor]).
  rewrite (docTarget_plain env pkgName version e (folders ++ [name]) P V FS)
    by (trivial; destruct folders; discriminate).
  destruct (outputDir_canonical env pkgName version P V) as (N & FN & NN & C & _).
  rewrite join_snoc.
  assert (K : "/docs/" ++ concatAll (map (fun s => s ++ "/") folders) ++ name
              = "/" ++ (Js.join "/" ("docs" :: folders) ++ "/") ++ name)
    by (rewrite join_trailing by discriminate; reflexivity).
  rewrite K, C.
  pose proof (plainSegment_inv name Pn) as (En & _ & _ & Sn).
  apply String.eqb_neq in En.
  change ("/" ++ Js.join "/" N) with (String "/" (Js.join "/" N)).
  replace (String "/" (Js.join "/" N) ++ "/" ++ (Js.join "/" ("docs" :: folders) ++ "/") ++ name)
    with (String "/" (Js.join "/" N ++ "/" ++ Js.join "/" ("docs" :: folders)) ++ "/" ++ name).
  - rewrite dirname_file; trivial.
    intros Q. pose proof (join_plain_nonempty N NN FN) as J.
      destruct (Js.join "/" N); [contradiction | discriminate].
  - cbn [append]. now rewrite !append_assoc.
Qed.


(** ** The worlds of a run *)

Lemma extends_refl (w : World) : extends w w.
Proof.
  repeat split; [exists [] | trivial | exists []]; now rewrite app_nil_r.
Qed.

Lemma extends_trans (a b c : World) : extends a b -> extends b c -> extends a c.
Proof.
  intros ((f1 & F1) & D1 & (m1 & M1)) ((f2 & F2) & D2 & (m2 & M2)).
  repeat split.
  - exists (f1 ++ f2)%list. now rewrite F2, F1, app_assoc.
  - auto.
  - exists (m1 ++ m2)%list. now rewrite M2, M1, app_assoc.
Qed.

Lemma mkdir_keeps (p : string) (w : World) (d : string) :
  In d (dirs w) -> In d (dirs (mkdir p w)).
Proof.
  unfold mkdir. destruct (existsb _ _); [trivial|].
  cbn [dirs]. intros H. apply in_or_app. now left.
Qed.

Lemma extends_mkdir (p : string) (w : World) : extends w (mkdir p w).
Proof.
  repeat split.
  - exists []. now rewrite mkdir_files, app_nil_r.
  - apply mkdir_keeps.
  - exists []. now rewrite mkdir_console, app_nil_r.
Qed.

Lemma extends_written (p : string) (c : content) (w : World) : extends w (written p c w).
Proof.
  repeat split; [now exists [(p, c)] | trivial | exists []; cbn; now rewrite app_nil_r].
Qed.

Lemma extends_said (m : message) (w : World) : extends w (said m w).
Proof.
  repeat split; [exists []; cbn; now rewrite app_nil_r | trivial | now exists [m]].
Qed.

Lemma copyDocs_extends (out : string) (zipEntries : list ZipEntry) (b : bool)
    (w : World) (o : outcome bool) (w' : World) :
  copyDocs out zipEntries b w = (o, w') -> extends w w'.
Proof.
  revert b w. induction zipEntries as [|e r IH]; intros b w H.
  - injection H as _ <-. apply extends_refl.
  - cbn [copyDocs] in H. destruct (isDocFile e); [|now apply IH in H].
    unfold bind, ensureDir, writeFile in H. apply IH in H.
    eapply extends_trans; [|exact H].
    eapply extends_trans; [apply extends_mkdir | apply extends_written].
Qed.

(** What [finishArchive] does, whatever the descriptor and the manifest
    are: the docs folder is copied first; then the page and the metadata
    are written, or the exception of the rendering leaves. *)
Lemma finishArchive_cases (env : Env) (pkgName : string) (pkgData : PackageRecord)
    (version : string) (versionData : VersionRecord) (zipEntries : list ZipEntry)
    (projectConfig functionsData : value) (w : World) :
  exists w1,
    files w1 = (files w ++ copied (outputDir env pkgName version) zipEntries)%list
    /\ console w1 = console w
    /\ extends w w1
    /\ finishArchive env pkgName pkgData version versionData zipEntries
         projectConfig functionsData w
       = match renderVersion pkgName pkgData version versionData
                 (readReadme zipEntries) projectConfig functionsData
                 (existsb isDocFile zipEntries) with
         | Ok r =>
             (Ok tt,
              written (metadataPath env pkgName version) (MetadataJson (metadata r))
                (written (indexPath env pkgName version) (Bytes (indexMd r)) w1))
         | Throw e => (Throw e, w1)
         end.
Proof.
  destruct (copyDocs_spec (outputDir env pkgName version) zipEntries false w)
    as (w1 & C & F & K).
  exists w1. split; [exact F|]. split; [exact K|].
  split; [exact (copyDocs_extends _ _ _ _ _ _ C)|].
  unfold finishArchive. rewrite (bind_ok _ _ _ _ _ C). cbn [orb].
  unfold bind, lift.
  destruct (renderVersion _ _ _ _ _ _ _ _) as [r|e]; reflexivity.
Qed.

Lemma finishArchive_written (env : Env) (pkgName : string) (pkgData : PackageRecord)
    (version : string) (versionData : VersionRecord) (zipEntries : list ZipEntry)
    (projectConfig functionsData : value) (w w' : World) :
  finishArchive env pkgName pkgData version versionData zipEntries
    projectConfig functionsData w = (Ok tt, w') ->
  exists r,
    renderVersion pkgName pkgData version versionData (readReadme zipEntries)
      projectConfig functionsData (existsb isDocFile zipEntries) = Ok r
    /\ fileAt (indexPath env pkgName version) w' = Some (Bytes (indexMd r))
    /\ fileAt (metadataPath env pkgName version) w'
       = Some (MetadataJson (metadata r)).
Proof.
  intros H.
  destruct (finishArchive_cases env pkgName pkgData version versionData zipEntries
              projectConfig functionsData w) as (w1 & _ & _ & _ & E).
  rewrite E in H. destruct (renderVersion _ _ _ _ _ _ _ _) as [r|e]; [|discriminate].
  injection H as <-. exists r. split; [reflexivity|]. split.
  - rewrite fileAt_written_other by apply indexPath_metadataPath.
    apply fileAt_written.
  - apply fileAt_written.
Qed.

(** The two readers return a value, write nothing and make no directory;
    they warn when the entry is there and its text is not JSON. *)
Lemma readProjectConfig_spec (pkgName version : string) (zipEntries : list ZipEntry)
    (w : World) :
  exists w',
    readProjectConfig pkgName version zipEntries w = (Ok (projectConfigOf zipEntries), w')
    /\ files w' = files w /\ dirs w' = dirs w /\ extends w w'.
Proof.
  unfold readProjectConfig, projectConfigOf.
  destruct (findEntry _ _) as [e|]; [destruct (Json.parse _)|].
  - exists w. repeat split; apply extends_refl.
  - eexists. split; [reflexivity|]. repeat split; apply extends_said.
  - exists w. repeat split; apply extends_refl.
Qed.

Lemma readFunctions_spec (pkgName version : string) (zipEntries : list ZipEntry)
    (w : World) :
  exists w',
    readFunctions pkgName version zipEntries w = (Ok (functionsDataOf zipEntries), w')
    /\ files w' = files w /\ dirs w' = dirs w /\ extends w w'.
Proof.
  unfold readFunctions, functionsDataOf.
  destruct (findEntry _ _) as [e|]; [destruct (Json.parse _)|].
  - exists w. repeat split; apply extends_refl.
  - eexists. split; [reflexivity|]. repeat split; apply extends_said.
  - exists w. repeat split; apply extends_refl.
Qed.

(** An archive that was opened: what is read, and what is done with
    it. *)
Lemma processArchive_cases (env : Env) (pkgName : string) (pkgData : PackageRecord)
    (version : string) (versionData : VersionRecord) (zipEntries : list ZipEntry)
    (w : World) :
  exists w1,
    extends w w1
    /\ files w1 = (files w ++ copied (outputDir env pkgName version) zipEntries)%list
    /\ processArchive env pkgName pkgData version versionData zipEntries w
       = match renderVersion pkgName pkgData version versionData
                 (readReadme zipEntries) (projectConfigOf zipEntries)
                 (functionsDataOf zipEntries) (existsb isDocFile zipEntries) with
         | Ok r =>
             (Ok tt,
              written (metadataPath env pkgName version) (MetadataJson (metadata r))
                (written (indexPath env pkgName version) (Bytes (indexMd r)) w1))
         | Throw e => (Throw e, w1)
         end.
Proof.
  destruct (readProjectConfig_spec pkgName version zipEntries w) as (wa & Ra & Fa & Da & Ea).
  destruct (readFunctions_spec pkgName version zipEntries wa) as (wb & Rb & Fb & Db & Eb).
  destruct (finishArchive_cases env pkgName pkgData version versionData zipEntries
              (projectConfigOf zipEntries) (functionsDataOf zipEntries) wb)
    as (w1 & F1 & _ & X1 & E1).
  exists w1. split; [|split].
  - exact (extends_trans _ _ _ (extends_trans _ _ _ Ea Eb) X1).
  - rewrite F1. congruence.
  - unfold processArchive.
    rewrite (bind_ok _ _ _ _ _ Ra), (bind_ok _ _ _ _ _ Rb). exact E1.
Qed.

(** ** The steps of the loop *)

Lemma processJob_archive (env : Env) (j : Job) (zipEntries : list ZipEntry) (w : World) :
  disk env (gspkgPath env (snd (snd j))) = Some (Archive zipEntries) ->
  processJob env j w
  = processArchive env (fst (fst j)) (snd (fst j)) (fst (snd j)) (snd (snd j))
      zipEntries (mkdir (outputDir env (fst (fst j)) (fst (snd j))) w).
Proof.
  intros D. unfold processJob, processVersion, bind, ensureDir. now rewrite D.
Qed.

Lemma processJob_after_mkdir (env : Env) (j : Job) (w : World) (o : outcome unit)
    (w' : World) :
  processJob env j w = (o, w') ->
  extends (mkdir (outputDir env (fst (fst j)) (fst (snd j))) w) w'.
Proof.
  destruct (disk env (gspkgPath env (snd (snd j)))) as [[zipEntries|]|] eqn:D.
  - rewrite (processJob_archive env j zipEntries w D).
    destruct (processArchive_cases env (fst (fst j)) (snd (fst j)) (fst (snd j))
                (snd (snd j)) zipEntries
                (mkdir (outputDir env (fst (fst j)) (fst (snd j))) w))
      as (w1 & X & _ & E).
    rewrite E. intros H.
    eapply extends_trans; [exact X|].
    destruct (renderVersion _ _ _ _ _ _ _ _); injection H as _ <-.
    + eapply extends_trans; apply extends_written.
    + apply extends_refl.
  - rewrite (processJob_unreadable env j w D). intros H. injection H as _ <-.
    apply extends_refl.
  - rewrite (processJob_missing env j w D). intros H. injection H as _ <-.
    unfold skipped. apply extends_said.
Qed.

Lemma processJob_extends (env : Env) (j : Job) (w : World) (o : outcome unit)
    (w' : World) :
  processJob env j w = (o, w') -> extends w w'.
Proof.
  intros H. eapply extends_trans; [apply extends_mkdir|].
  exact (processJob_after_mkdir env j w o w' H).
Qed.

Lemma forEach_extends (env : Env) (l : list Job) (w : World) (o : outcome unit)
    (w' : World) :
  forEach l (processJob env) w = (o, w') -> extends w w'.
Proof.
  revert w. induction l as [|j l IH]; intros w H.
  - injection H as _ <-. apply extends_refl.
  - cbn [forEach] in H. unfold bind in H.
    destruct (processJob env j w) as [[[]|e] w1] eqn:P.
    + apply (extends_trans _ w1); [exact (processJob_extends _ _ _ _ _ P) | now apply IH].
    + injection H as _ <-. exact (processJob_extends _ _ _ _ _ P).
Qed.

(** A step that throws ends the run: nothing in the loops catches. *)
Lemma forEach_throw (env : Env) (before after : list Job) (j : Job)
    (w w1 w2 : World) (e : exn) :
  forEach before (processJob env) w = (Ok tt, w1) ->
  processJob env j w1 = (Throw e, w2) ->
  forEach (before ++ j :: after)%list (processJob env) w = (Throw e, w2).
Proof.
  intros B P. rewrite forEach_app, B. cbn [forEach].
  now rewrite (bind_throw _ _ _ _ _ P).
Qed.

Lemma extractDocs_loop (env : Env) (registry : Registry) (w : World) :
  indexJson env = Ok registry ->
  extractDocs env w = forEach (jobs registry) (processJob env) (prepared env w).
Proof.
  intros I. unfold extractDocs, bind, lift. rewrite I.
  cbn [ensureDir emptyDir]. fold (prepared env w). apply forEach_jobs.
Qed.

(** A finished loop went through every step. *)
Lemma forEach_ok_split (env : Env) (before after : list Job) (j : Job) (w w' : World) :
  forEach (before ++ j :: after)%list (processJob env) w = (Ok tt, w') ->
  exists w1 w2,
    forEach before (processJob env) w = (Ok tt, w1)
    /\ processJob env j w1 = (Ok tt, w2)
    /\ forEach after (processJob env) w2 = (Ok tt, w').
Proof.
  rewrite forEach_app.
  destruct (forEach before (processJob env) w) as [[[]|e] w1]; [|discriminate].
  cbn [forEach]. unfold bind.
  destruct (processJob env j w1) as [[[]|e] w2] eqn:P; [|discriminate].
  intros H. now exists w1, w2.
Qed.

(** ** Exceptions *)

Lemma get_throws (v : value) (k : string) (e : exn) : get v k = Throw e -> e = TypeError.
Proof. destruct v; cbn; congruence. Qed.

Lemma obind_throws {A B : Type} (o : outcome A) (k : A -> outcome B) :
  (forall e, o = Throw e -> e = TypeError) ->
  (forall a e, k a = Throw e -> e = TypeError) ->
  forall e, obind o k = Throw e -> e = TypeError.
Proof.
  intros Ho Hk e. destruct o as [a|e']; cbn [obind]; [apply Hk|].
  intros H. injection H as <-. now apply Ho.
Qed.

Ltac throws_by known :=
  repeat first
    [ known
    | apply get_throws
    | match goal with |- forall e, Ok _ = Throw e -> _ => discriminate end
    | match goal with |- forall e, (if ?c then _ else _) = Throw e -> _ => destruct c end
    | apply obind_throws; [|intros ?] ].

Ltac throws := throws_by assumption.

Lemma functionParts_throws (funcs : list (string * value)) :
  forall e, functionParts funcs = Throw e -> e = TypeError.
Proof.
  induction funcs as [|[k v] r IH]; [discriminate|].
  cbn [functionParts]. throws.
Qed.

Lemma argumentLines_throws (args : list (string * value)) :
  forall e, argumentLines args = Throw e -> e = TypeError.
Proof.
  induction args as [|[k v] r IH]; [discriminate|].
  cbn [argumentLines argumentLine]. throws.
Qed.

Lemma functionDocs_throws (funcs : list (string * value)) :
  forall e, functionDocs funcs = Throw e -> e = TypeError.
Proof.
  induction funcs as [|[k v] r IH]; [discriminate|].
  cbn [functionDocs functionDoc]. throws_by ltac:(first [assumption | apply argumentLines_throws]).
Qed.

Lemma generateApiDocs_throws (functionsData : value) :
  forall e, generateApiDocs functionsData = Throw e -> e = TypeError.
Proof.
  unfold generateApiDocs. throws_by ltac:(apply functionDocs_throws).
Qed.

Lemma frontmatter_throws pkgName version pkgData versionData projectConfig
    searchIndex isLatest :
  forall e, frontmatter pkgName version pkgData versionData projectConfig
              searchIndex isLatest = Throw e -> e = TypeError.
Proof. unfold frontmatter. throws. Qed.

Lemma buildSearchIndex_throws pkgName pkgData projectConfig functionsData :
  forall e, buildSearchIndex pkgName pkgData projectConfig functionsData = Throw e ->
            e = TypeError.
Proof. unfold buildSearchIndex. throws_by ltac:(apply functionParts_throws). Qed.

Lemma assignKeywords_throws (projectConfig keywords : value) :
  forall e, assignKeywords projectConfig keywords = Throw e -> e = TypeError.
Proof. destruct projectConfig; cbn; congruence. Qed.

Lemma composePage_throws pkgName version pkgData versionData readmeContent
    functionsData projectConfig searchIndex isLatest :
  forall e, composePage pkgName version pkgData versionData readmeContent
              functionsData projectConfig searchIndex isLatest = Throw e ->
            e = TypeError.
Proof.
  unfold composePage, synthesizeReadme. destruct (readmeContent =? "").
  - throws_by ltac:(first [apply frontmatter_throws | apply generateApiDocs_throws]).
  - throws_by ltac:(first [apply frontmatter_throws | apply generateApiDocs_throws]).
Qed.

Lemma renderVersion_throws pkgName pkgData version versionData readmeContent
    projectConfig functionsData hasDocs :
  forall e, renderVersion pkgName pkgData version versionData readmeContent
              projectConfig functionsData hasDocs = Throw e -> e = TypeError.
Proof.
  unfold renderVersion.
  throws_by ltac:(first [apply buildSearchIndex_throws | apply assignKeywords_throws
                        | apply composePage_throws]).
Qed.

(** A descriptor that is [null] or a primitive value cannot be rendered. *)
Lemma renderVersion_notObject pkgName pkgData version versionData readmeContent
    projectConfig functionsData hasDocs :
  notObject projectConfig = true ->
  renderVersion pkgName pkgData version versionData readmeContent
    projectConfig functionsData hasDocs = Throw TypeError.
Proof.
  intros N.
  destruct (renderVersion pkgName pkgData version versionData readmeContent
              projectConfig functionsData hasDocs) as [r|e] eqn:R.
  - exfalso. unfold renderVersion in R.
    destruct (buildSearchIndex _ _ _ _); [|discriminate]. cbn [obind] in R.
    destruct (get projectConfig "keywords"); [|discriminate]. cbn [obind] in R.
    destruct projectConfig; try discriminate.
  - now rewrite (renderVersion_throws _ _ _ _ _ _ _ _ e R).
Qed.

(** A function of the manifest whose definition is [null] cannot be
    rendered either. *)
Lemma functionParts_null (funcs : list (string * value)) (k : string) :
  In (k, Null) funcs -> functionParts funcs = Throw TypeError.
Proof.
  induction funcs as [|[k' v] r IH]; [contradiction|].
  intros [H|H]; cbn [functionParts].
  - injection H as -> ->. reflexivity.
  - rewrite (IH H). destruct (get v "description") as [d|e] eqn:G; [reflexivity|].
    now rewrite (get_throws _ _ _ G).
Qed.

Lemma renderVersion_null_function pkgName pkgData version versionData readmeContent
    projectConfig (funcs : list (string * value)) (k : string) hasDocs :
  In (k, Null) funcs ->
  renderVersion pkgName pkgData version versionData readmeContent
    projectConfig (Obj funcs) hasDocs = Throw TypeError.
Proof.
  intros I. unfold renderVersion, buildSearchIndex.
  destruct (get projectConfig "keywords") as [kw|e] eqn:G; cbn [obind].
  - cbn [truthy entries]. now rewrite (functionParts_null funcs k I).
  - now rewrite (get_throws _ _ _ G).
Qed.

(** ** What a run leaves *)

Lemma extends_files (w w' : World) (f : string * content) :
  extends w w' -> In f (files w) -> In f (files w').
Proof.
  intros ((fs & F) & _) I. rewrite F. apply in_or_app. now left.
Qed.

Lemma extends_dirs (w w' : World) (d : string) :
  extends w w' -> In d (dirs w) -> In d (dirs w').
Proof. intros (_ & D & _). apply D. Qed.

Lemma In_copied (out : string) (zipEntries : list ZipEntry) (e : ZipEntry) :
  In e zipEntries -> isDocFile e = true ->
  In (docTarget out e, Bytes (getData e)) (copied out zipEntries).
Proof.
  intros I D. unfold copied.
  apply (in_map (fun e => (docTarget out e, Bytes (getData e)))).
  apply filter_In. now split.
Qed.

(** What the step of a version leaves when it returns. *)
Lemma processJob_ok (env : Env) (j : Job) (w w' : World) :
  processJob env j w = (Ok tt, w') ->
  In (outputDir env (fst (fst j)) (fst (snd j))) (dirs w')
  /\ disk env (gspkgPath env (snd (snd j))) <> Some Unreadable
  /\ forall zipEntries,
       disk env (gspkgPath env (snd (snd j))) = Some (Archive zipEntries) ->
       exists r,
         renderVersion (fst (fst j)) (snd (fst j)) (fst (snd j)) (snd (snd j))
           (readReadme zipEntries) (projectConfigOf zipEntries)
           (functionsDataOf zipEntries) (existsb isDocFile zipEntries) = Ok r
         /\ In (indexPath env (fst (fst j)) (fst (snd j)), Bytes (indexMd r)) (files w')
         /\ In (metadataPath env (fst (fst j)) (fst (snd j)), MetadataJson (metadata r))
              (files w')
         /\ forall e, In e zipEntries -> isDocFile e = true ->
                      In (docTarget (outputDir env (fst (fst j)) (fst (snd j))) e,
                          Bytes (getData e)) (files w').
Proof.
  intros H. split; [|split].
  - apply (extends_dirs _ _ _ (processJob_after_mkdir env j w _ w' H)), mkdir_In.
  - intros U. rewrite (processJob_unreadable env j w U) in H. discriminate.
  - intros zipEntries D. rewrite (processJob_archive env j zipEntries w D) in H.
    destruct (processArchive_cases env (fst (fst j)) (snd (fst j)) (fst (snd j))
                (snd (snd j)) zipEntries
                (mkdir (outputDir env (fst (fst j)) (fst (snd j))) w))
      as (w1 & _ & F & E).
    rewrite E in H. destruct (renderVersion _ _ _ _ _ _ _ _) as [r|]; [|discriminate].
    injection H as <-. exists r. split; [reflexivity|].
    cbn [written files]. rewrite F. split; [|split].
    + apply in_or_app. left. apply in_or_app. right. now left.
    + apply in_or_app. right. now left.
    + intros e I Dc. apply in_or_app. left. apply in_or_app. left.
      apply in_or_app. right. now apply In_copied.
Qed.

Lemma extractDocs_ok (env : Env) (registry : Registry) (j : Job) (w w' : World) :
  indexJson env = Ok registry ->
  extractDocs env w = (Ok tt, w') ->
  In j (jobs registry) ->
  In (outputDir env (fst (fst j)) (fst (snd j))) (dirs w')
  /\ disk env (gspkgPath env (snd (snd j))) <> Some Unreadable
  /\ forall zipEntries,
       disk env (gspkgPath env (snd (snd j))) = Some (Archive zipEntries) ->
       exists r,
         renderVersion (fst (fst j)) (snd (fst j)) (fst (snd j)) (snd (snd j))
           (readReadme zipEntries) (projectConfigOf zipEntries)
           (functionsDataOf zipEntries) (existsb isDocFile zipEntries) = Ok r
         /\ In (indexPath env (fst (fst j)) (fst (snd j)), Bytes (indexMd r)) (files w')
         /\ In (metadataPath env (fst (fst j)) (fst (snd j)), MetadataJson (metadata r))
              (files w')
         /\ forall e, In e zipEntries -> isDocFile e = true ->
                      In (docTarget (outputDir env (fst (fst j)) (fst (snd j))) e,
                          Bytes (getData e)) (files w').
Proof.
  intros I R J. rewrite (extractDocs_loop env registry w I) in R.
  destruct (in_split _ _ J) as (before & after & S). rewrite S in R.
  destruct (forEach_ok_split env before after j _ _ R) as (w1 & w2 & _ & P & A).
  pose proof (forEach_extends env after w2 _ w' A) as X.
  destruct (processJob_ok env j w1 w2 P) as (D & U & Z).
  split; [exact (extends_dirs _ _ _ X D)|]. split; [exact U|].
  intros zipEntries Dk. destruct (Z zipEntries Dk) as (r & Rr & Ip & Mp & Dc).
  exists r. split; [exact Rr|]. split; [exact (extends_files _ _ _ X Ip)|].
  split; [exact (extends_files _ _ _ X Mp)|].
  intros e Ie De. exact (extends_files _ _ _ X (Dc e Ie De)).
Qed.

(** A run whose registry cannot be read touches nothing. *)
Lemma extractDocs_unread (env : Env) (e : exn) (w : World) :
  indexJson env = Throw e -> extractDocs env w = (Throw e, w).
Proof. intros I. unfold extractDocs, bind, lift. now rewrite I. Qed.

(** ** Writes stay inside the content directory *)

Lemma writesWithin_refl (dir : string) (w : World) : writesWithin dir w w.
Proof. exists []. now rewrite app_nil_r. Qed.

Lemma writesWithin_trans (dir : string) (a b c : World) :
  writesWithin dir a b -> writesWithin dir b c -> writesWithin dir a c.
Proof.
  intros (f1 & F1 & U1) (f2 & F2 & U2). exists (f1 ++ f2)%list. split.
  - now rewrite F2, F1, app_assoc.
  - apply Forall_app. now split.
Qed.

Lemma startsWith_inv (s p : string) :
  Js.startsWith s p = true -> s = p ++ Js.substring_from (String.length p) s.
Proof.
  unfold Js.startsWith. revert s. induction p as [|c p IH]; intros s H.
  - reflexivity.
  - destruct s as [|a s]; [discriminate|]. cbn [String.prefix] in H.
    destruct (ascii_dec c a) as [->|]; [|discriminate].
    cbn [append String.length Js.substring_from]. f_equal. now apply IH.
Qed.

Lemma join_split (s : string) : Js.join "/" (Js.split "/" s) = s.
Proof.
  induction s as [|c r IH]; [reflexivity|].
  cbn [Js.split]. destruct (Ascii.eqb c "/") eqn:C.
  - apply Ascii.eqb_eq in C. subst c.
    pose proof (split_nonempty "/" r) as N.
    destruct (Js.split "/" r) as [|h t]; [contradiction|].
    change (Js.join "/" ("" :: h :: t)) with ("/" ++ Js.join "/" (h :: t)).
    now rewrite IH.
  - pose proof (split_nonempty "/" r) as N.
    destruct (Js.split "/" r) as [|h t]; [contradiction|].
    replace (Js.join "/" (String c h :: t)) with (String c (Js.join "/" (h :: t))).
    + now rewrite IH.
    + destruct t; reflexivity.
Qed.

Lemma safeEntry_target (env : Env) (pkgName version : string) (e : ZipEntry) :
  plainSegment pkgName = true -> plainSegment version = true ->
  isDocFile e = true -> safeEntry e = true ->
  docTarget (outputDir env pkgName version) e
  = outputDir env pkgName version ++ "/docs/" ++ Js.substring_from 5 (entryName e).
Proof.
  intros P V D S. unfold safeEntry in S. rewrite D in S. cbn [negb orb] in S.
  unfold plainPath in S. rewrite forallb_forall in S. apply Forall_forall in S.
  unfold isDocFile in D. apply andb_true_iff in D as [D _].
  apply startsWith_inv in D. cbn [String.length] in D.
  rewrite (docTarget_plain env pkgName version e
             (Js.split "/" (Js.substring_from 5 (entryName e))) P V S
             (split_nonempty _ _)).
  - now rewrite join_split.
  - rewrite join_split. exact D.
Qed.

Lemma copied_within (env : Env) (pkgName version : string) (zipEntries : list ZipEntry) :
  plainSegment pkgName = true -> plainSegment version = true ->
  forallb safeEntry zipEntries = true ->
  Forall (fun f => under (CONTENT_DIR env) (fst f) = true)
    (copied (outputDir env pkgName version) zipEntries).
Proof.
  intros P V S. rewrite forallb_forall in S.
  apply Forall_forall. intros f I. unfold copied in I.
  apply in_map_iff in I as (e & <- & I). apply filter_In in I as [I D].
  cbn [fst]. rewrite (safeEntry_target env pkgName version e P V D (S e I)).
  destruct (outputDir_layout env pkgName version P V) as (O & _).
  rewrite O, !append_assoc. apply under_append.
Qed.

Lemma processJob_within (env : Env) (j : Job) (w : World) (o : outcome unit)
    (w' : World) :
  safeJob env j = true ->
  processJob env j w = (o, w') -> writesWithin (CONTENT_DIR env) w w'.
Proof.
  intros S. unfold safeJob in S.
  apply andb_true_iff in S as [S Z]. apply andb_true_iff in S as [P V].
  destruct (outputDir_layout env _ _ P V) as (_ & _ & _ & _ & Ui & Um).
  destruct (disk env (gspkgPath env (snd (snd j)))) as [[zipEntries|]|] eqn:D.
  - rewrite (processJob_archive env j zipEntries w D).
    destruct (processArchive_cases env (fst (fst j)) (snd (fst j)) (fst (snd j))
                (snd (snd j)) zipEntries
                (mkdir (outputDir env (fst (fst j)) (fst (snd j))) w))
      as (w1 & _ & F & E).
    rewrite E, mkdir_files in *. intros H.
    pose proof (copied_within env _ _ zipEntries P V Z) as C.
    destruct (renderVersion _ _ _ _ _ _ _ _) as [r|]; injection H as _ <-.
    + eexists. cbn [written files]. rewrite F, <- !app_assoc. split; [reflexivity|].
      apply Forall_app. split; [exact C|]. repeat constructor; assumption.
    + eexists. split; [exact F | exact C].
  - rewrite (processJob_unreadable env j w D). intros H. injection H as _ <-.
    exists []. now rewrite mkdir_files, app_nil_r.
  - rewrite (processJob_missing env j w D). intros H. injection H as _ <-.
    exists []. unfold skipped. cbn [said files]. now rewrite mkdir_files, app_nil_r.
Qed.

Lemma forEach_within (env : Env) (l : list Job) (w : World) (o : outcome unit)
    (w' : World) :
  forallb (safeJob env) l = true ->
  forEach l (processJob env) w = (o, w') -> writesWithin (CONTENT_DIR env) w w'.
Proof.
  revert w. induction l as [|j l IH]; intros w S H.
  - injection H as _ <-. apply writesWithin_refl.
  - cbn [forallb] in S. apply andb_true_iff in S as [Sj S].
    cbn [forEach] in H. unfold bind in H.
    destruct (processJob env j w) as [[[]|e] w1] eqn:P.
    + apply (writesWithin_trans _ _ w1);
        [exact (processJob_within _ _ _ _ _ Sj P) | now apply IH].
    + injection H as _ <-. exact (processJob_within _ _ _ _ _ Sj P).
Qed.

Lemma extractDocs_within (env : Env) (registry : Registry) (w : World)
    (o : outcome unit) (w' : World) :
  indexJson env = Ok registry ->
  forallb (safeJob env) (jobs registry) = true ->
  extractDocs env w = (o, w') ->
  exists fs,
    files w'
    = (filter (fun f => negb (under (CONTENT_DIR env) (fst f))) (files w) ++ fs)%list
    /\ Forall (fun f => under (CONTENT_DIR env) (fst f) = true) fs.
Proof.
  intros I S R. rewrite (extractDocs_loop env registry w I) in R.
  destruct (forEach_within env _ _ _ _ S R) as (fs & F & U).
  exists fs. split; [|exact U].
  rewrite F. unfold prepared. cbn [cleared files]. now rewrite mkdir_files.
Qed.

(** ** [JSON.stringify] read back by [JSON.parse] *)

Lemma literalUnits_escapeChar (c : ascii) (t : string) :
  Json.literalUnits (escapeChar c ++ t)
  = match Json.literalUnits t with
    | Some (u, rest) => Some (unitOf c :: u, rest)
    | None => None
    end.
Proof.
  destruct c as [[] [] [] [] [] [] [] []]; reflexivity.
Qed.

Lemma encodeUnits_unitOf (c : ascii) (u : list Json.unit16) :
  Json.encodeUnits (unitOf c :: u) = c :: Json.encodeUnits u.
Proof.
  destruct c as [[] [] [] [] [] [] [] []]; try reflexivity;
    destruct u as [|[|] ?]; reflexivity.
Qed.

Lemma literalUnits_escapeString (s rest : string) :
  Json.literalUnits (escapeString s ++ String dq rest)
  = Some (map unitOf (list_ascii_of_string s), rest).
Proof.
  induction s as [|c s IH]; [reflexivity|].
  cbn [escapeString list_ascii_of_string map].
  now rewrite append_assoc, literalUnits_escapeChar, IH.
Qed.

Lemma encodeUnits_map (l : list ascii) : Json.encodeUnits (map unitOf l) = l.
Proof.
  induction l as [|c l IH]; [reflexivity|].
  cbn [map]. now rewrite encodeUnits_unitOf, IH.
Qed.

(** A string literal written by [JSON.stringify] reads back as the
    string. *)
Lemma parseString_escapeString (s rest : string) :
  Json.parseString (escapeString s ++ String dq rest) = Some (s, rest).
Proof.
  unfold Json.parseString.
  now rewrite literalUnits_escapeString, encodeUnits_map, string_of_list_ascii_of_string.
Qed.

Lemma parseValue_string (fuel : nat) (pre s rest : string) :
  Json.skipWs (pre ++ String dq (escapeString s ++ String dq rest))
  = String dq (escapeString s ++ String dq rest) ->
  (1 <= fuel)%nat ->
  Json.parseValue fuel (pre ++ String dq (escapeString s ++ String dq rest))
  = Some (Str s, rest).
Proof.
  intros W L. destruct fuel as [|fuel]; [lia|].
  cbn [Json.parseValue]. rewrite W.
  assert (E : forall c, c <> dq -> Ascii.eqb dq c = false)
    by (intros c N; apply Ascii.eqb_neq; congruence).
  rewrite !E by discriminate. rewrite Ascii.eqb_refl.
  now rewrite parseString_escapeString.
Qed.

Lemma join_cons (sep x : string) (l : list string) :
  l <> [] -> Js.join sep (x :: l) = x ++ sep ++ Js.join sep l.
Proof. destruct l; [contradiction | reflexivity]. Qed.

(** The elements of an array of string literals, separated by a comma
    and optional white space. *)
Lemma parseElements_strings (sp : string) :
  (forall t, Json.skipWs (sp ++ String dq t) = String dq t) ->
  forall (l : list string) (fuel : nat) (pre rest : string),
    (forall t, Json.skipWs (pre ++ String dq t) = String dq t) ->
    l <> [] -> (List.length l + 1 <= fuel)%nat ->
    Json.parseElements fuel
      (pre ++ Js.join ("," ++ sp)
                (map (fun x => String dq (escapeString x ++ String dq "")) l)
       ++ "]" ++ rest)
    = Some (map Str l, rest).
Proof.
  intros Wsp. induction l as [|x l IH]; intros fuel pre rest Wpre NE L; [contradiction|].
  destruct fuel as [|fuel]; cbn [List.length] in L; try lia.
  destruct l as [|y l].
  - cbn [map Js.join String.concat].
    replace (pre ++ String dq (escapeString x ++ String dq "") ++ "]" ++ rest)
      with (pre ++ String dq (escapeString x ++ String dq ("]" ++ rest)))
      by (cbn [append]; now rewrite !append_assoc).
    cbn [Json.parseElements]. rewrite parseValue_string by (trivial; lia).
    reflexivity.
  - cbn [map]. rewrite join_cons by discriminate.
    replace (pre ++ (String dq (escapeString x ++ String dq "") ++ ("," ++ sp)
                     ++ Js.join ("," ++ sp)
                          (String dq (escapeString y ++ String dq "")
                           :: map (fun x => String dq (escapeString x ++ String dq "")) l))
             ++ "]" ++ rest)
      with (pre ++ String dq (escapeString x ++ String dq
              ("," ++ sp ++ Js.join ("," ++ sp)
                 (map (fun x => String dq (escapeString x ++ String dq "")) (y :: l))
               ++ "]" ++ rest)))
      by (cbn [append map]; rewrite !append_assoc; cbn [append]; now rewrite ?append_assoc).
    cbn [Json.parseElements]. rewrite parseValue_string by (trivial; lia).
    remember (sp ++ Js.join ("," ++ sp)
                (map (fun x => String dq (escapeString x ++ String dq "")) (y :: l))
              ++ "]" ++ rest) as T eqn:ET.
    change (Json.skipWs ("," ++ T)) with (String "," T).
    change (Ascii.eqb "," ",") with true. cbv iota. subst T.
    fold Json.parseElements.
    rewrite (IH fuel sp rest Wsp) by (try discriminate; cbn [List.length] in *; lia).
    reflexivity.
Qed.

Lemma length_append (a b : string) :
  String.length (a ++ b) = (String.length a + String.length b)%nat.
Proof. induction a as [|c a IH]; [reflexivity|]. cbn. now rewrite IH. Qed.

Lemma length_join_quoted (sep : string) (l : list string) :
  (List.length l
   <= String.length
        (Js.join sep (map (fun x => String dq (escapeString x ++ String dq "")) l)))%nat.
Proof.
  induction l as [|x l IH]; [cbn; lia|].
  destruct l as [|y l]; [cbn; lia|].
  cbn [map]. rewrite join_cons by discriminate.
  cbn [map] in IH. rewrite !length_append. cbn [String.length List.length] in *. lia.
Qed.

(** The text of an array of string literals reads back as the array of
    the strings, with or without a space after the commas. *)
Lemma parse_strings (sp : string) (l : list string) :
  (forall t, Json.skipWs (sp ++ String dq t) = String dq t) ->
  Json.parse ("[" ++ Js.join ("," ++ sp)
                       (map (fun x => String dq (escapeString x ++ String dq "")) l)
              ++ "]")
  = Some (Arr (map Str l)).
Proof.
  intros W. destruct l as [|x l]; [reflexivity|].
  unfold Json.parse.
  remember (Js.join ("," ++ sp)
              (map (fun x => String dq (escapeString x ++ String dq "")) (x :: l)))
    as J eqn:EJ.
  assert (L : (List.length (x :: l) <= String.length J)%nat)
    by (subst J; apply length_join_quoted).
  assert (Q : exists t, J = String dq t).
  { subst J. cbn [map]. destruct l as [|y l]; [now eexists|].
    rewrite join_cons by discriminate. now eexists. }
  replace (2 * String.length ("[" ++ J ++ "]") + 2)%nat
    with (S (2 * String.length ("[" ++ J ++ "]") + 1))%nat by lia.
  cbn [Json.parseValue].
  change (Json.skipWs ("[" ++ J ++ "]")) with (String "[" (J ++ "]")).
  cbv iota. change (Ascii.eqb "[" "n") with false. change (Ascii.eqb "[" "t") with false.
  change (Ascii.eqb "[" "f") with false. change (Ascii.eqb "[" dq) with false.
  change (Ascii.eqb "[" "[") with true. cbv iota.
  fold Json.parseElements.
  assert (P : Json.parseElements (2 * String.length ("[" ++ J ++ "]") + 1) (J ++ "]")
              = Some (map Str (x :: l), "")).
  { subst J.
    apply (parseElements_strings sp W (x :: l) _ "" "");
      [reflexivity | discriminate |].
    rewrite !length_append. cbn [String.length]. lia. }
  destruct Q as (t & ->). rewrite P.
  change (Json.skipWs (String dq t ++ "]")) with (String dq (t ++ "]")).
  reflexivity.
Qed.

Lemma parse_stringify (l : list string) :
  Json.parse (stringify l) = Some (Arr (map Str l)).
Proof. exact (parse_strings "" l (fun t => eq_refl)). Qed.

(** ** The encodings of a list of keywords *)

Lemma escapeChar_safe (c : ascii) : safeChar c = true -> escapeChar c = String c "".
Proof.
  destruct c as [[] [] [] [] [] [] [] []]; intros H; try reflexivity; discriminate H.
Qed.

Lemma escapeString_safe (w : string) : safeWord w = true -> escapeString w = w.
Proof.
  induction w as [|c w IH]; [reflexivity|].
  cbn [safeWord escapeString]. intros H. apply andb_true_iff in H as [C W].
  now rewrite (escapeChar_safe c C), (IH W).
Qed.

Lemma safeChar_sq (c : ascii) : safeChar c = true -> Ascii.eqb c sq = false.
Proof.
  unfold safeChar. intros H. apply andb_true_iff in H as [H _].
  apply andb_true_iff in H as [H _]. apply andb_true_iff in H as [_ H].
  now apply negb_true_iff in H.
Qed.

Lemma replaceAll_append (c : ascii) (by_ a b : string) :
  Js.replaceAll c by_ (a ++ b) = Js.replaceAll c by_ a ++ Js.replaceAll c by_ b.
Proof.
  induction a as [|x a IH]; [reflexivity|].
  cbn [append Js.replaceAll]. rewrite IH.
  destruct (Ascii.eqb x c); [now rewrite append_assoc | reflexivity].
Qed.

Lemma replaceAll_safe (by_ w : string) : safeWord w = true -> Js.replaceAll sq by_ w = w.
Proof.
  induction w as [|c w IH]; [reflexivity|].
  cbn [safeWord Js.replaceAll]. intros H. apply andb_true_iff in H as [C W].
  now rewrite (safeChar_sq c C), (IH W).
Qed.

Lemma replaceAll_join (q : ascii) (l : list string) :
  q = sq \/ q = dq ->
  forallb safeWord l = true ->
  Js.replaceAll sq (String dq "")
    (Js.join ", " (map (fun w => String q (w ++ String q "")) l))
  = Js.join ", " (map (fun w => String dq (escapeString w ++ String dq "")) l).
Proof.
  intros Q. induction l as [|x l IH]; [reflexivity|].
  cbn [forallb map]. intros H. apply andb_true_iff in H as [X L].
  assert (E : Js.replaceAll sq (String dq "") (String q (x ++ String q ""))
              = String dq (escapeString x ++ String dq "")).
  { rewrite (escapeString_safe x X).
    destruct Q as [-> | ->]; cbn [Js.replaceAll];
      rewrite replaceAll_append, (replaceAll_safe _ x X); reflexivity. }
  destruct l as [|y l]; [exact E|].
  rewrite !join_cons by discriminate.
  rewrite !replaceAll_append, E. now rewrite (IH L).
Qed.

Lemma replaceAll_listText (q : ascii) (l : list string) :
  q = sq \/ q = dq ->
  forallb safeWord l = true ->
  Js.replaceAll sq (String dq "") (listText q l)
  = "[" ++ Js.join ("," ++ " ")
             (map (fun w => String dq (escapeString w ++ String dq "")) l)
    ++ "]".
Proof.
  intros Q S. unfold listText.
  now rewrite !replaceAll_append, (replaceAll_join q l Q S).
Qed.

Lemma bracketed_listText (q : ascii) (l : list string) : bracketed (listText q l) = true.
Proof.
  unfold bracketed, listText. rewrite <- append_assoc, endsWith_append.
  rewrite append_assoc. now rewrite startsWith_append.
Qed.

(** A list of keywords reads the same whether the descriptor holds it as
    an array, as the text of a JSON array, or as the text of a list in
    single quotes. *)
Lemma normalizeKeywords_listText (q : ascii) (l : list string) :
  q = sq \/ q = dq ->
  forallb safeWord l = true ->
  normalizeKeywords (Str (listText q l)) = Str (Js.join ", " l).
Proof.
  intros Q S. unfold normalizeKeywords.
  assert (T : truthy (Str (listText q l)) = true) by reflexivity.
  rewrite T, bracketed_listText, (replaceAll_listText q l Q S).
  rewrite (parse_strings " " l (fun t => eq_refl)).
  now rewrite joinValues_Str.
Qed.

(** ** The shape of the search index *)

(** Induction along the way [pieces] cuts a text. *)
Lemma pieces_cases (P : string -> Prop) :
  P "" ->
  (forall a r, Js.pieces (String a r) = Js.Space (String a "") :: Js.pieces r ->
               P r -> P (String a r)) ->
  (forall a b r, Js.pieces (String a (String b r))
                 = Js.Space (String a (String b "")) :: Js.pieces r ->
                 P r -> P (String a (String b r))) ->
  (forall a b c r, Js.pieces (String a (String b (String c r)))
                   = Js.Space (String a (String b (String c ""))) :: Js.pieces r ->
                   P r -> P (String a (String b (String c r)))) ->
  (forall a r, Js.space1 a = false ->
               Js.pieces (String a r) = Js.Other a :: Js.pieces r ->
               P r -> P (String a r)) ->
  forall s, P s.
Proof.
  intros H0 H1 H2 H3 H4 s.
  assert (G : forall n s, (String.length s <= n)%nat -> P s).
  { clear s. induction n as [|n IH]; intros s L.
    - destruct s; [exact H0 | cbn in L; lia].
    - destruct s as [|a r]; [exact H0|]. cbn [String.length] in L.
      destruct (Js.space1 a) eqn:S1.
      + apply H1; [cbn [Js.pieces]; now rewrite S1 | apply IH; lia].
      + destruct r as [|b r2].
        * apply H4; [exact S1 | cbn [Js.pieces]; now rewrite S1 | exact H0].
        * cbn [String.length] in L. destruct (Js.space2 a b) eqn:S2.
          -- apply H2; [cbn [Js.pieces]; now rewrite S1, S2 | apply IH; lia].
          -- destruct r2 as [|c r3].
             ++ apply H4; [exact S1 | cbn [Js.pieces]; now rewrite S1, S2 |].
                apply IH. cbn. lia.
             ++ cbn [String.length] in L. destruct (Js.space3 a b c) eqn:S3.
                ** apply H3; [cbn [Js.pieces]; now rewrite S1, S2, S3 | apply IH; lia].
                ** apply H4; [exact S1 | cbn [Js.pieces]; now rewrite S1, S2, S3 |].
                   apply IH. cbn. lia. }
  exact (G (String.length s) s (le_n _)).
Qed.

Lemma unpieces_pieces (s : string) : Js.unpieces (Js.pieces s) = s.
Proof.
  induction s as [| a r E IH | a b r E IH | a b c r E IH | a r _ E IH] using pieces_cases;
    [reflexivity | rewrite E; cbn [Js.unpieces append]; now rewrite IH ..].
Qed.

Lemma pieces_others (s : string) :
  Forall (fun p => match p with
                   | Js.Other c => Js.space1 c = false
                   | Js.Space _ => True
                   end) (Js.pieces s).
Proof.
  induction s as [| a r E IH | a b r E IH | a b c r E IH | a r S E IH] using pieces_cases;
    [constructor | rewrite E; now constructor ..].
Qed.

Lemma space1_space (c : ascii) : Js.space1 c = false -> Ascii.eqb c " " = false.
Proof.
  intros H. destruct (Ascii.eqb c " ") eqn:E; [|reflexivity].
  apply Ascii.eqb_eq in E. subst c. discriminate H.
Qed.

Lemma weakSpaced_collapse (b : bool) (ps : list Js.piece) :
  Forall (fun p => match p with
                   | Js.Other c => Js.space1 c = false
                   | Js.Space _ => True
                   end) ps ->
  weakSpaced b (Js.collapse b ps) = true.
Proof.
  intros F. revert b. induction F as [|[raw|c] ps H _ IH]; intros b; [reflexivity| |].
  - cbn [Js.collapse]. destruct b; [apply IH|].
    cbn [weakSpaced]. change (Ascii.eqb " " " ") with true. cbn [negb andb]. apply IH.
  - cbn [Js.collapse weakSpaced]. now rewrite (space1_space c H), H, IH.
Qed.

Lemma weakSpaced_flag (b : bool) (s : string) :
  weakSpaced b s = true -> weakSpaced false s = true.
Proof.
  destruct s as [|c r]; [trivial|]. cbn [weakSpaced].
  destruct (Ascii.eqb c " "); [|trivial].
  intros H. apply andb_true_iff in H as [_ H]. exact H.
Qed.

Lemma weakSpaced_suffix (b : bool) (x y : string) :
  weakSpaced b (x ++ y) = true -> weakSpaced false y = true.
Proof.
  revert b. induction x as [|c x IH]; intros b; [apply weakSpaced_flag|].
  cbn [append weakSpaced]. destruct (Ascii.eqb c " "); intros H;
    apply andb_true_iff in H as [_ H]; now apply IH in H.
Qed.

Lemma weakSpaced_prefix (b : bool) (x y : string) :
  weakSpaced b (x ++ y) = true -> weakSpaced b x = true.
Proof.
  revert b. induction x as [|c x IH]; intros b; [reflexivity|].
  cbn [append weakSpaced]. destruct (Ascii.eqb c " "); intros H;
    apply andb_true_iff in H as [A H]; rewrite A; now apply IH in H.
Qed.

Lemma singleSpaced_last (b : bool) (u : string) (d : ascii) :
  Js.space1 d = false ->
  weakSpaced b (u ++ String d "") = true ->
  singleSpaced b (u ++ String d "") = true.
Proof.
  intros D. revert b. induction u as [|c u IH]; intros b.
  - cbn [append weakSpaced singleSpaced]. now rewrite (space1_space d D), D.
  - cbn [append weakSpaced singleSpaced]. destruct (Ascii.eqb c " "); intros H;
      apply andb_true_iff in H as [A H]; rewrite A; now apply IH.
Qed.

Lemma unpieces_app (a b : list Js.piece) :
  Js.unpieces (a ++ b) = Js.unpieces a ++ Js.unpieces b.
Proof.
  induction a as [|[raw|c] a IH]; [reflexivity | |]; cbn [app Js.unpieces].
  - now rewrite IH, append_assoc.
  - now rewrite IH.
Qed.

Lemma dropSpaces_split (ps : list Js.piece) :
  exists sp, ps = (sp ++ Js.dropSpaces ps)%list
             /\ (Js.dropSpaces ps = []
                 \/ exists c r, Js.dropSpaces ps = Js.Other c :: r).
Proof.
  induction ps as [|[raw|c] ps (sp & E & H)].
  - exists []. split; [reflexivity | now left].
  - exists (Js.Space raw :: sp). cbn [Js.dropSpaces app]. split; [now rewrite <- E | exact H].
  - exists []. split; [reflexivity | right; now exists c, ps].
Qed.

(** What [trim] leaves of a text: nothing, or the text between two bytes
    that are not white space, cut out of it. *)
Lemma trim_cases (t : string) :
  Js.trim t = ""
  \/ exists before after c d mid u,
       t = before ++ Js.trim t ++ after
       /\ Js.trim t = String c mid
       /\ Js.trim t = u ++ String d ""
       /\ Js.space1 c = false /\ Js.space1 d = false.
Proof.
  unfold Js.trim. pose proof (pieces_others t) as F.
  pose proof (unpieces_pieces t) as U.
  remember (Js.pieces t) as P eqn:EP. clear EP.
  destruct (dropSpaces_split P) as (s1 & E1 & H1).
  remember (Js.dropSpaces P) as Q1 eqn:EQ1. clear EQ1. subst P.
  destruct (dropSpaces_split (rev Q1)) as (s2 & E2 & H2).
  remember (Js.dropSpaces (rev Q1)) as R eqn:ER. clear ER.
  apply (f_equal (@rev Js.piece)) in E2.
  rewrite rev_involutive, rev_app_distr in E2. subst Q1.
  destruct H2 as [-> | (d & r2 & ->)]; [now left | right].
  cbn [rev] in *.
  apply Forall_app in F as [_ F]. apply Forall_app in F as [F _].
  assert (Fd : Js.space1 d = false).
  { apply Forall_app in F as [_ F]. now inversion F. }
  assert (C : exists c mid, Js.unpieces (rev r2 ++ [Js.Other d]) = String c mid
                            /\ Js.space1 c = false).
  { destruct H1 as [H1 | (c & r1 & H1)].
    - destruct (rev r2); discriminate.
    - destruct (rev r2) as [|p q]; cbn [app] in *.
      + injection H1 as <- _. now exists d, "".
      + injection H1 as -> _. exists c. eexists. split; [reflexivity|].
        now inversion F. }
  destruct C as (c & mid & C & Hc).
  exists (Js.unpieces s1), (Js.unpieces (rev s2)), c, d, mid, (Js.unpieces (rev r2)).
  split; [|split; [exact C | split; [|split; trivial]]].
  - rewrite <- U. now rewrite !unpieces_app.
  - now rewrite unpieces_app.
Qed.

(** The text cut out of a text without runs of white space starts and
    ends with a word and has single spaces only. *)
Lemma trim_tidy (t : string) :
  weakSpaced false t = true ->
  Js.trim t = "" \/ singleSpaced true (Js.trim t) = true.
Proof.
  intros W. destruct (trim_cases t) as [E | (before & after & c & d & mid & u & T & C & D & Hc & Hd)];
    [now left | right].
  rewrite T in W. apply weakSpaced_suffix, weakSpaced_prefix in W.
  assert (W' : weakSpaced true (Js.trim t) = true).
  { rewrite C in *. cbn [weakSpaced] in *. now rewrite (space1_space c Hc) in *. }
  rewrite D in *. now apply singleSpaced_last.
Qed.

Lemma searchIndex_tidy (s : string) :
  Js.trim (Js.collapseSpaces s) = ""
  \/ singleSpaced true (Js.trim (Js.collapseSpaces s)) = true.
Proof.
  apply trim_tidy. unfold Js.collapseSpaces.
  apply weakSpaced_collapse, pieces_others.
Qed.

(** ** The page and the metadata agree *)

Lemma lookup_define_keywords (l : list (string * value)) (kw : value) (k : string) :
  lookup k (Json.define l ("keywords", kw))
  = if k =? "keywords" then kw else lookup k l.
Proof.
  unfold Json.define.
  destruct (Json.hasKey "keywords" l) eqn:H.
  - now rewrite lookup_replaceKey, H.
  - assert (A : Json.arrayIndex "keywords" = None) by reflexivity.
    rewrite A, lookup_snoc.
    rewrite (String.eqb_sym "keywords" k).
    destruct (String.eqb_spec k "keywords") as [->|N].
    + now rewrite H.
    + destruct (Json.hasKey k l) eqn:H'; [reflexivity|].
      now rewrite lookup_missing.
Qed.

Lemma indexKey_digit (i : nat) : exists c r, indexKey i = String c r /\ Json.is_digit c = true.
Proof.
  unfold indexKey, Num.decimal.
  destruct (N.to_uint (N.of_nat i)); cbn; eexists; eexists; split; reflexivity.
Qed.

Lemma lookup_indexed {A : Type} (k : string) (l : list value) (i : nat) :
  (forall c r, k = String c r -> Json.is_digit c = false) ->
  lookup k (indexed i l) = Undefined.
Proof.
  intros K. revert i. induction l as [|x l IH]; intros i; [reflexivity|].
  cbn [indexed lookup]. destruct (String.eqb_spec (indexKey i) k) as [E|_]; [|apply IH].
  destruct (indexKey_digit i) as (c & r & E' & D).
  rewrite E' in E. rewrite (K c r (eq_sym E)) in D. discriminate.
Qed.

(** The properties the script reads after the assignment of line 106. *)
Lemma get_assignKeywords (projectConfig keywords pc : value) (k : string) :
  assignKeywords projectConfig keywords = Ok pc ->
  In k ["keywords"; "homepage"; "license"] ->
  exists v, get projectConfig k = Ok v
            /\ get pc k = Ok (if k =? "keywords" then keywords else v).
Proof.
  intros A I. destruct projectConfig; try discriminate; injection A as <-.
  - exists Undefined. split; [reflexivity|].
    change (get (Obj (Json.define (indexed 0 elems) ("keywords", keywords))) k
            = Ok (if k =? "keywords" then keywords else Undefined)).
    cbn [get]. rewrite lookup_define_keywords.
    rewrite (lookup_indexed (A := value)); [reflexivity|].
    intros c r E. destruct I as [<-|[<-|[<-|[]]]]; injection E as <- _; reflexivity.
  - eexists. split; [reflexivity|].
    change (get (Obj (Json.define props ("keywords", keywords))) k
            = Ok (if k =? "keywords" then keywords else lookup k props)).
    cbn [get]. now rewrite lookup_define_keywords.
Qed.

Lemma renderVersion_consistent (pkgName : string) (pkgData : PackageRecord)
    (version : string) (versionData : VersionRecord) (readme : string)
    (projectConfig functionsData : value) (hasDocs : bool) (r : Rendered) :
  renderVersion pkgName pkgData version versionData readme projectConfig
    functionsData hasDocs = Ok r ->
  exists raw homepage license api,
    get projectConfig "keywords" = Ok raw
    /\ get projectConfig "homepage" = Ok homepage
    /\ get projectConfig "license" = Ok license
    /\ generateApiDocs functionsData = Ok api
    /\ m_keywords (metadata r) = normalizeKeywords raw
    /\ m_homepage (metadata r) = homepage
    /\ m_license (metadata r) = license
    /\ m_name (metadata r) = pkgName
    /\ m_version (metadata r) = version
    /\ m_description (metadata r) = description pkgData
    /\ m_owners (metadata r) = owners pkgData
    /\ m_dependencies (metadata r) = dependencies versionData
    /\ m_latest (metadata r) = (latest pkgData =? version)
    /\ m_hasDocs (metadata r) = hasDocs
    /\ m_functions (metadata r) = functionsData
    /\ indexMd r
       = frontBlock pkgName version (description pkgData) (latest pkgData =? version)
           (normalizeKeywords raw) homepage license (m_searchIndex (metadata r))
           (dependencies versionData)
         ++ (if readme =? "" then api ++ nl ++ nl ++ callout
             else if truthy functionsData then readme ++ nl ++ nl ++ api
             else readme).
Proof.
  unfold renderVersion.
  destruct (buildSearchIndex pkgName pkgData projectConfig functionsData)
    as [si|e]; cbn [obind]; [|discriminate].
  destruct (get projectConfig "keywords") as [raw|e] eqn:G; cbn [obind]; [|discriminate].
  destruct (assignKeywords projectConfig (normalizeKeywords raw)) as [pc|e] eqn:A;
    cbn [obind]; [|discriminate].
  destruct (get_assignKeywords _ _ _ "keywords" A) as (v1 & G1 & K); [cbn; tauto|].
  destruct (get_assignKeywords _ _ _ "homepage" A) as (homepage & G2 & H); [cbn; tauto|].
  destruct (get_assignKeywords _ _ _ "license" A) as (license & G3 & L); [cbn; tauto|].
  cbn [String.eqb Ascii.eqb Bool.eqb] in K, H, L.
  unfold composePage, synthesizeReadme, frontmatter. rewrite K, H, L. cbn [obind].
  intros R. exists raw, homepage, license.
  destruct (readme =? "").
  - destruct (generateApiDocs functionsData) as [api|e]; cbn [obind] in R; [|discriminate].
    injection R as <-. exists api. cbn [metadata indexMd].
    repeat split; try reflexivity; assumption.
  - destruct (truthy functionsData) eqn:T.
    + destruct (generateApiDocs functionsData) as [api|e]; cbn [obind] in R; [|discriminate].
      injection R as <-. exists api. cbn [metadata indexMd].
      repeat split; try reflexivity; assumption.
    + injection R as <-. exists "". cbn [metadata indexMd].
      repeat split; try reflexivity; try assumption.
      unfold generateApiDocs. now rewrite T.
Qed.

(** ** The line of the search index in the front matter *)

Lemma quotesEscaped_replaceAll (b : bool) (s : string) :
  quotesEscaped b (Js.replaceAll dq (String backslash (String dq "")) s) = true.
Proof.
  revert b. induction s as [|c s IH]; intros b; [reflexivity|].
  cbn [Js.replaceAll]. destruct (Ascii.eqb c dq) eqn:C.
  - cbn [append quotesEscaped]. rewrite IH. reflexivity.
  - cbn [quotesEscaped]. now rewrite C, IH.
Qed.

Lemma singleSpaced_weak (b : bool) (s : string) :
  singleSpaced b s = true -> weakSpaced b s = true.
Proof.
  revert b. induction s as [|c s IH]; intros b; [reflexivity|].
  cbn [singleSpaced weakSpaced]. destruct (Ascii.eqb c " "); intros H;
    apply andb_true_iff in H as [A H]; rewrite A; now apply IH.
Qed.

Lemma weakSpaced_hasChar (b : bool) (c : ascii) (s : string) :
  Js.space1 c = true -> Ascii.eqb c " " = false ->
  weakSpaced b s = true -> hasChar c s = false.
Proof.
  intros S N. revert b. induction s as [|a s IH]; intros b; [reflexivity|].
  cbn [weakSpaced hasChar]. destruct (Ascii.eqb a c) eqn:E.
  - apply Ascii.eqb_eq in E. subst a. rewrite N, S. discriminate.
  - destruct (Ascii.eqb a " "); intros H; apply andb_true_iff in H as [_ H];
      now apply IH in H.
Qed.

Lemma hasChar_replaceAll (c q : ascii) (by_ s : string) :
  Ascii.eqb q c = false -> hasChar c by_ = false ->
  hasChar c (Js.replaceAll q by_ s) = hasChar c s.
Proof.
  intros N B. induction s as [|a s IH]; [reflexivity|].
  cbn [Js.replaceAll hasChar]. destruct (Ascii.eqb a q) eqn:E.
  - apply Ascii.eqb_eq in E. subst a. rewrite hasChar_append, B, IH, N. reflexivity.
  - cbn [hasChar]. now rewrite IH.
Qed.

Lemma buildSearchIndex_shape (pkgName : string) (pkgData : PackageRecord)
    (projectConfig functionsData : value) (searchIndex : string) :
  buildSearchIndex pkgName pkgData projectConfig functionsData = Ok searchIndex ->
  searchIndex = "" \/ singleSpaced true searchIndex = true.
Proof.
  unfold buildSearchIndex.
  destruct (get projectConfig "keywords"); cbn [obind]; [|discriminate].
  destruct (if truthy functionsData then _ else _); cbn [obind]; [|discriminate].
  intros H. injection H as <-. apply searchIndex_tidy.
Qed.

(** ** An entry of the docs folder that names its parent *)

Lemma normalizeSegments_over (allow : bool) (plain acc rest : list string) :
  Forall (fun p => plainSegment p = true) plain ->
  Path.normalizeSegments allow acc (plain ++ rest)
  = Path.normalizeSegments allow (rev plain ++ acc) rest.
Proof.
  intros F. revert acc. induction F as [|x l H _ IH]; intros acc; [reflexivity|].
  apply plainSegment_inv in H as (E & D1 & D2 & _).
  cbn [app Path.normalizeSegments rev]. rewrite E, D1, D2. cbn [orb].
  now rewrite IH, <- app_assoc.
Qed.

Lemma docTarget_parent_segment (env : Env) (pkgName version : string) (e : ZipEntry)
    (name : string) :
  plainSegment pkgName = true -> plainSegment version = true ->
  plainSegment name = true ->
  entryName e = "docs/../" ++ name ->
  docTarget (outputDir env pkgName version) e
  = outputDir env pkgName version ++ "/" ++ name.
Proof.
  intros P V Pn E.
  destruct (outputDir_canonical env pkgName version P V) as (N & FN & NN & C & _).
  pose proof (plainSegment_inv name Pn) as (En & _ & _ & Sn).
  unfold docTarget. rewrite E.
  change (Js.substring_from 5 ("docs/../" ++ name)) with ("../" ++ name).
  unfold Path.join. cbn [filter].
  assert (O : (outputDir env pkgName version =? "") = false)
    by (rewrite C; reflexivity).
  rewrite O. cbn [negb String.eqb append Ascii.eqb Bool.eqb].
  change (Js.join "/" [outputDir env pkgName version; "docs"; String "." (String "." (String "/" name))])
    with (outputDir env pkgName version ++ "/" ++ "docs/.." ++ "/" ++ name).
  rewrite C.
  unfold Path.normalize.
  assert (A : Path.isAbsolute (("/" ++ Js.join "/" N) ++ "/" ++ "docs/.." ++ "/" ++ name) = true)
    by apply isAbsolute_slash.
  rewrite A. cbn [negb].
  assert (Z : ((("/" ++ Js.join "/" N) ++ "/" ++ "docs/.." ++ "/" ++ name) =? "") = false)
    by reflexivity.
  rewrite Z.
  assert (S : Js.split "/" (("/" ++ Js.join "/" N) ++ "/" ++ "docs/.." ++ "/" ++ name)
              = ("" :: N ++ ["docs"; ".."; name])%list).
  { rewrite split_append.
    change ("/" ++ Js.join "/" N) with ("" ++ "/" ++ Js.join "/" N).
    rewrite split_append, (split_join N NN (plain_slashfree _ FN)).
    change ("docs/.." ++ "/" ++ name) with ("docs" ++ "/" ++ ".." ++ "/" ++ name).
    rewrite !split_append, (split_plain name Sn). cbn [Js.split Ascii.eqb Bool.eqb app].
    reflexivity. }
  rewrite S. cbn [Path.normalizeSegments String.eqb orb].
  rewrite (normalizeSegments_over false N [] _ FN).
  cbn [Path.normalizeSegments String.eqb Ascii.eqb Bool.eqb orb app].
  rewrite En. destruct (name =? ".") eqn:D1; [apply plainSegment_inv in Pn; intuition congruence|].
  destruct (name =? "..") eqn:D2; [apply plainSegment_inv in Pn; intuition congruence|].
  cbn [orb]. rewrite app_nil_r.
  change (rev (name :: rev N)) with (rev (rev N) ++ [name])%list.
  rewrite rev_involutive, join_snoc.
  assert (B : (concatAll (map (fun s => s ++ "/") N) ++ name =? "") = false).
  { apply String.eqb_neq. intros Q. apply String.eqb_neq in En.
    destruct (concatAll _); [cbn in Q; contradiction | discriminate]. }
  rewrite B.
  assert (T : Js.endsWith (("/" ++ Js.join "/" N) ++ "/" ++ "docs/.." ++ "/" ++ name) "/"
              = false).
  { replace (("/" ++ Js.join "/" N) ++ "/" ++ "docs/.." ++ "/" ++ name)
      with ((("/" ++ Js.join "/" N) ++ "/" ++ "docs/.." ++ "/") ++ name)
      by now rewrite !append_assoc.
    apply endsWith_slash_plain; [exact Sn | now apply String.eqb_neq]. }
  rewrite T, append_empty_r, <- (join_trailing N NN).
  now rewrite !append_assoc.
Qed.

Lemma under_docs_sibling (out name : string) :
  plainSegment name = true -> under (out ++ "/docs") (out ++ "/" ++ name) = false.
Proof.
  intros Pn. unfold under. destruct (Js.startsWith _ _) eqn:S; [|reflexivity].
  apply startsWith_inv in S. rewrite !append_assoc in S.
  apply append_cancel in S. cbn [append] in S. injection S as S.
  apply plainSegment_inv in Pn as (_ & _ & _ & H).
  rewrite S in H. cbn in H. discriminate.
Qed.

(** ** A second run *)

Lemma oblivious_ret {A : Type} (a : A) : oblivious (ret a).
Proof.
  exists (Ok a), [], []. intros w. exists w. now rewrite !app_nil_r.
Qed.

Lemma oblivious_lift {A : Type} (o : outcome A) : oblivious (lift o).
Proof.
  exists o, [], []. intros w. exists w. now rewrite !app_nil_r.
Qed.

Lemma oblivious_bind {A B : Type} (m : M A) (k : A -> M B) :
  oblivious m -> (forall a, oblivious (k a)) -> oblivious (bind m k).
Proof.
  intros ([a|e] & fs & ms & Hm) Hk.
  - destruct (Hk a) as (o' & fs' & ms' & Hk').
    exists o', (fs ++ fs')%list, (ms ++ ms')%list. intros w.
    destruct (Hm w) as (w1 & E1 & F1 & C1). destruct (Hk' w1) as (w2 & E2 & F2 & C2).
    exists w2. unfold bind. rewrite E1, E2, F2, F1, C2, C1, !app_assoc. auto.
  - exists (Throw e), fs, ms. intros w. destruct (Hm w) as (w1 & E1 & F1 & C1).
    exists w1. unfold bind. now rewrite E1.
Qed.

Lemma oblivious_ensureDir (p : string) : oblivious (ensureDir p).
Proof.
  exists (Ok tt), [], []. intros w. eexists. split; [reflexivity|].
  now rewrite mkdir_files, mkdir_console, !app_nil_r.
Qed.

Lemma oblivious_writeFile (p : string) (c : content) : oblivious (writeFile p c).
Proof.
  exists (Ok tt), [(p, c)], []. intros w. eexists. split; [reflexivity|].
  cbn. now rewrite app_nil_r.
Qed.

Lemma oblivious_say (m : message) : oblivious (say m).
Proof.
  exists (Ok tt), [], [m]. intros w. eexists. split; [reflexivity|].
  cbn. now rewrite app_nil_r.
Qed.

Lemma oblivious_copyDocs (out : string) (zipEntries : list ZipEntry) (b : bool) :
  oblivious (copyDocs out zipEntries b).
Proof.
  revert b. induction zipEntries as [|e r IH]; intros b; [apply oblivious_ret|].
  cbn [copyDocs]. destruct (isDocFile e); [|apply IH].
  apply oblivious_bind; [apply oblivious_ensureDir | intros _].
  apply oblivious_bind; [apply oblivious_writeFile | intros _; apply IH].
Qed.

Lemma oblivious_readProjectConfig (pkgName version : string) (zipEntries : list ZipEntry) :
  oblivious (readProjectConfig pkgName version zipEntries).
Proof.
  unfold readProjectConfig.
  destruct (findEntry _ _); [destruct (Json.parse _)|]; try apply oblivious_ret.
  apply oblivious_bind; [apply oblivious_say | intros _; apply oblivious_ret].
Qed.

Lemma oblivious_readFunctions (pkgName version : string) (zipEntries : list ZipEntry) :
  oblivious (readFunctions pkgName version zipEntries).
Proof.
  unfold readFunctions.
  destruct (findEntry _ _); [destruct (Json.parse _)|]; try apply oblivious_ret.
  apply oblivious_bind; [apply oblivious_say | intros _; apply oblivious_ret].
Qed.

Lemma oblivious_processJob (env : Env) (j : Job) : oblivious (processJob env j).
Proof.
  unfold processJob, processVersion.
  apply oblivious_bind; [apply oblivious_ensureDir | intros _].
  destruct (disk env _) as [[zipEntries|]|];
    [|apply oblivious_lift | apply oblivious_say].
  unfold processArchive.
  apply oblivious_bind; [apply oblivious_readProjectConfig | intros pc].
  apply oblivious_bind; [apply oblivious_readFunctions | intros fd].
  unfold finishArchive.
  apply oblivious_bind; [apply oblivious_copyDocs | intros b].
  apply oblivious_bind; [apply oblivious_lift | intros r].
  apply oblivious_bind; [apply oblivious_writeFile | intros _; apply oblivious_writeFile].
Qed.

Lemma oblivious_forEach (env : Env) (l : list Job) : oblivious (forEach l (processJob env)).
Proof.
  induction l as [|j l IH]; [apply oblivious_ret|].
  cbn [forEach]. apply oblivious_bind; [apply oblivious_processJob | intros _; exact IH].
Qed.

Lemma extractDocs_oblivious (env : Env) (registry : Registry) :
  indexJson env = Ok registry ->
  exists (o : outcome unit) (fs : list (string * content)) (ms : list message),
    forall w, exists w',
      extractDocs env w = (o, w')
      /\ files w'
         = (filter (fun f => negb (under (CONTENT_DIR env) (fst f))) (files w) ++ fs)%list
      /\ console w' = (console w ++ ms)%list.
Proof.
  intros I.
  destruct (oblivious_forEach env (jobs registry)) as (o & fs & ms & H).
  exists o, fs, ms. intros w. rewrite (extractDocs_loop env registry w I).
  destruct (H (prepared env w)) as (w' & E & F & C). exists w'.
  split; [exact E|]. rewrite F, C. unfold prepared. cbn [cleared files console].
  now rewrite mkdir_files, mkdir_console.
Qed.

Lemma filter_outside_inside (dir : string) (fs : list (string * content)) :
  Forall (fun f => under dir (fst f) = true) fs ->
  filter (fun f => negb (under dir (fst f))) fs = [].
Proof.
  induction 1 as [|f fs H _ IH]; [reflexivity|].
  cbn [filter]. now rewrite H.
Qed.

Lemma filter_twice {A : Type} (p : A -> bool) (l : list A) :
  filter p (filter p l) = filter p l.
Proof.
  induction l as [|x l IH]; [reflexivity|].
  cbn [filter]. destruct (p x) eqn:E; [|exact IH].
  cbn [filter]. now rewrite E, IH.
Qed.

Lemma main_files (env : Env) (w : World) : files (main env w) = files (snd (extractDocs env w)).
Proof.
  unfold main. destruct (extractDocs env w) as [[[]|e] w']; reflexivity.
Qed.

Lemma main_twice (env : Env) (registry : Registry) (w : World) :
  indexJson env = Ok registry ->
  forallb (safeJob env) (jobs registry) = true ->
  files (main env (main env w)) = files (main env w).
Proof.
  intros I S.
  destruct (extractDocs_oblivious env registry I) as (o & fs & ms & H).
  destruct (H w) as (w1 & E1 & F1 & _).
  destruct (H (main env w)) as (w2 & E2 & F2 & _).
  destruct (extractDocs_within env registry w o w1 I S E1) as (fs' & F1' & U).
  rewrite F1 in F1'. apply app_inv_head in F1'. subst fs'.
  rewrite (main_files env (main env w)), E2. cbn [snd]. rewrite F2.
  rewrite (main_files env w), E1. cbn [snd]. rewrite F1.
  rewrite filter_app, filter_twice, (filter_outside_inside _ fs U).
  now rewrite app_nil_r.
Qed.

(** ** The fallback of the normaliser *)

Lemma name_char_plain (a : ascii) :
  is_name_char a = true ->
  Js.space1 a = false
  /\ (forall b, Js.space2 a b = false)
  /\ (forall b c, Js.space3 a b c = false)
  /\ Js.is_quote a = false /\ Ascii.eqb a "," = false /\ Ascii.eqb a sq = false.
Proof.
  destruct a as [[] [] [] [] [] [] [] []]; intros H; try discriminate H;
    repeat split; reflexivity.
Qed.

Lemma pieces_name (a : ascii) (r : string) :
  is_name_char a = true -> Js.pieces (String a r) = Js.Other a :: Js.pieces r.
Proof.
  intros H. destruct (name_char_plain a H) as (S1 & S2 & S3 & _).
  cbn [Js.pieces]. rewrite S1.
  destruct r as [|b [|c r3]]; [reflexivity | now rewrite S2 | now rewrite S2, S3].
Qed.

Lemma pieces_word (w : string) :
  nameChars w = true -> Js.pieces w = map Js.Other (list_ascii_of_string w).
Proof.
  unfold nameChars. induction w as [|a w IH]; [reflexivity|].
  cbn [list_ascii_of_string forallb map]. intros H. apply andb_true_iff in H as [A W].
  now rewrite (pieces_name a w A), (IH W).
Qed.

Lemma unpieces_others (l : list ascii) :
  Js.unpieces (map Js.Other l) = string_of_list_ascii l.
Proof. induction l as [|a l IH]; [reflexivity|]. cbn. now rewrite IH. Qed.

Lemma dropSpaces_others (l : list ascii) :
  Js.dropSpaces (rev (map Js.Other l)) = rev (map Js.Other l).
Proof.
  rewrite <- map_rev. destruct (rev l); reflexivity.
Qed.

Lemma trim_word (sp w : string) :
  sp = "" \/ sp = " " -> nameChars w = true -> Js.trim (sp ++ w) = w.
Proof.
  intros S W. unfold Js.trim.
  assert (D : Js.dropSpaces (Js.pieces (sp ++ w)) = map Js.Other (list_ascii_of_string w)).
  { destruct S as [-> | ->].
    - cbn [append]. rewrite (pieces_word w W).
      destruct (list_ascii_of_string w); reflexivity.
    - change (" " ++ w) with (String " " w). cbn [Js.pieces].
      change (Js.space1 " ") with true. cbv iota. cbn [Js.dropSpaces].
      rewrite (pieces_word w W). destruct (list_ascii_of_string w); reflexivity. }
  rewrite D, dropSpaces_others, rev_involutive, unpieces_others.
  apply string_of_list_ascii_of_string.
Qed.

Lemma stripTrailingQuote_word (w : string) :
  nameChars w = true -> Js.stripTrailingQuote w = w.
Proof.
  unfold nameChars. induction w as [|a w IH]; [reflexivity|].
  cbn [list_ascii_of_string forallb]. intros H. apply andb_true_iff in H as [A W].
  destruct (name_char_plain a A) as (_ & _ & _ & Q & _).
  cbn [Js.stripTrailingQuote]. rewrite Q. destruct w; [reflexivity|].
  now rewrite (IH W).
Qed.

Lemma stripQuotes_word (w : string) : nameChars w = true -> Js.stripQuotes w = w.
Proof.
  intros W. unfold Js.stripQuotes. destruct w as [|a w]; [reflexivity|].
  assert (A : is_name_char a = true).
  { unfold nameChars in W. cbn in W. now apply andb_true_iff in W as [A _]. }
  destruct (name_char_plain a A) as (_ & _ & _ & Q & _). rewrite Q.
  now apply stripTrailingQuote_word.
Qed.

Lemma hasChar_word (c : ascii) (w : string) :
  is_name_char c = false -> nameChars w = true -> hasChar c w = false.
Proof.
  intros C. unfold nameChars. induction w as [|a w IH]; [reflexivity|].
  cbn [list_ascii_of_string forallb hasChar]. intros H. apply andb_true_iff in H as [A W].
  rewrite (IH W), orb_false_r. apply Ascii.eqb_neq. intros ->. congruence.
Qed.

Lemma split_comma (a b : string) :
  hasChar "," a = false -> Js.split "," (a ++ "," ++ b) = a :: Js.split "," b.
Proof.
  induction a as [|c a IH]; [reflexivity|].
  cbn [hasChar append Js.split]. intros H. apply orb_false_iff in H as [C H].
  rewrite C. change ("," ++ b) with (String "," b) in IH. cbn [append] in IH.
  now rewrite (IH H).
Qed.

Lemma split_comma_free (a : string) : hasChar "," a = false -> Js.split "," a = [a].
Proof.
  induction a as [|c a IH]; [reflexivity|].
  cbn [hasChar Js.split]. intros H. apply orb_false_iff in H as [C H].
  now rewrite C, (IH H).
Qed.

(** The tokens of a list of words separated by a comma and [sp]. *)
Lemma tokens_words (sp : string) (l : list string) (pre : string) :
  hasChar "," sp = false -> hasChar "," pre = false ->
  forallb nameChars l = true -> l <> [] ->
  map (fun k => Js.stripQuotes (Js.trim k))
    (Js.split "," (pre ++ Js.join ("," ++ sp) l))
  = match l with
    | [] => []
    | x :: r => Js.stripQuotes (Js.trim (pre ++ x))
                :: map (fun w => Js.stripQuotes (Js.trim (sp ++ w))) r
    end.
Proof.
  intros Hsp. revert pre. induction l as [|x l IH]; intros pre Hp F NE; [contradiction|].
  cbn [forallb] in F. apply andb_true_iff in F as [X F].
  assert (Cx : hasChar "," x = false) by (apply hasChar_word; [reflexivity | exact X]).
  destruct l as [|y l].
  - cbn [Js.join String.concat map]. rewrite split_comma_free; [reflexivity|].
    now rewrite hasChar_append, Hp, Cx.
  - rewrite join_cons by discriminate.
    replace (pre ++ x ++ ("," ++ sp) ++ Js.join ("," ++ sp) (y :: l))
      with ((pre ++ x) ++ "," ++ (sp ++ Js.join ("," ++ sp) (y :: l)))
      by (cbn [append]; rewrite !append_assoc; reflexivity).
    rewrite split_comma by now rewrite hasChar_append, Hp, Cx.
    cbn [map]. f_equal.
    rewrite (IH sp Hsp F) by discriminate. reflexivity.
Qed.

Lemma dropLast_append (a : string) (c : ascii) : Js.dropLast (a ++ String c "") = a.
Proof.
  induction a as [|x a IH]; [reflexivity|].
  cbn [append Js.dropLast]. rewrite IH.
  destruct (a ++ String c "") eqn:E; [destruct a; discriminate | reflexivity].
Qed.

Lemma replaceAll_word (c : ascii) (by_ w : string) :
  is_name_char c = false -> nameChars w = true -> Js.replaceAll c by_ w = w.
Proof.
  intros C. unfold nameChars. induction w as [|a w IH]; [reflexivity|].
  cbn [list_ascii_of_string forallb Js.replaceAll]. intros H.
  apply andb_true_iff in H as [A W]. rewrite (IH W).
  assert (N : Ascii.eqb a c = false) by (apply Ascii.eqb_neq; intros ->; congruence).
  now rewrite N.
Qed.

Lemma replaceAll_words (c : ascii) (by_ sep : string) (l : list string) :
  is_name_char c = false -> hasChar c sep = false ->
  forallb nameChars l = true ->
  Js.replaceAll c by_ (Js.join sep l) = Js.join sep l.
Proof.
  intros C S. induction l as [|x l IH]; [reflexivity|].
  cbn [forallb]. intros H. apply andb_true_iff in H as [X L].
  destruct l as [|y l]; [now apply replaceAll_word|].
  rewrite join_cons by discriminate.
  rewrite !replaceAll_append, (replaceAll_word c by_ x C X), (IH L).
  f_equal. f_equal. clear -S. induction sep as [|a sep IH]; [reflexivity|].
  cbn [hasChar] in S. apply orb_false_iff in S as [A S].
  cbn [Js.replaceAll]. now rewrite A, (IH S).
Qed.

Lemma normalizeKeywords_fallback (sp : string) (l : list string) :
  sp = "" \/ sp = " " ->
  forallb nameChars l = true -> l <> [] ->
  Json.parse ("[" ++ Js.join ("," ++ sp) l ++ "]") = None ->
  normalizeKeywords (Str ("[" ++ Js.join ("," ++ sp) l ++ "]")) = Str (Js.join ", " l).
Proof.
  intros S F NE P. unfold normalizeKeywords.
  assert (T : truthy (Str ("[" ++ Js.join ("," ++ sp) l ++ "]")) = true) by reflexivity.
  rewrite T.
  assert (B : bracketed ("[" ++ Js.join ("," ++ sp) l ++ "]") = true).
  { unfold bracketed. rewrite <- append_assoc, endsWith_append.
    rewrite append_assoc. now rewrite startsWith_append. }
  rewrite B.
  assert (Hsp : hasChar sq ("," ++ sp) = false /\ hasChar "," sp = false)
    by (destruct S as [-> | ->]; split; reflexivity).
  destruct Hsp as [Hq Hc].
  assert (R : Js.replaceAll sq (String dq "") ("[" ++ Js.join ("," ++ sp) l ++ "]")
              = "[" ++ Js.join ("," ++ sp) l ++ "]").
  { rewrite !replaceAll_append, (replaceAll_words sq _ _ l); trivial. }
  rewrite R, P. f_equal. unfold splitKeywords, Js.slice_1_m1.
  change (Js.substring_from 1 ("[" ++ Js.join ("," ++ sp) l ++ "]"))
    with (Js.join ("," ++ sp) l ++ "]").
  rewrite dropLast_append.
  pose proof (tokens_words sp l "" Hc eq_refl F NE) as K.
  change ("" ++ Js.join ("," ++ sp) l) with (Js.join ("," ++ sp) l) in K.
  rewrite K. clear K R P B T.
  destruct l as [|x r]; [contradiction|].
  cbn [forallb] in F. apply andb_true_iff in F as [X F].
  pose proof (trim_word "" x (or_introl eq_refl) X) as Tx.
  rewrite Tx, (stripQuotes_word x X).
  f_equal. f_equal. clear -S F. induction r as [|y r IH]; [reflexivity|].
  cbn [forallb] in F. apply andb_true_iff in F as [Y F].
  cbn [map]. now rewrite (trim_word sp y S Y), (stripQuotes_word y Y), (IH F).
Qed.

(** ** The package name in the search index *)

Lemma pieces_word_append (w rest : string) :
  nameChars w = true ->
  Js.pieces (w ++ rest) = (map Js.Other (list_ascii_of_string w) ++ Js.pieces rest)%list.
Proof.
  unfold nameChars. induction w as [|a w IH]; [reflexivity|].
  cbn [list_ascii_of_string forallb map append app]. intros H.
  apply andb_true_iff in H as [A W].
  now rewrite (pieces_name a (w ++ rest) A), (IH W).
Qed.

Lemma collapse_others (l : list ascii) (b : bool) (ps : list Js.piece) :
  Js.collapse b (map Js.Other l ++ ps)
  = string_of_list_ascii l
    ++ Js.collapse (match l with [] => b | _ => false end) ps.
Proof.
  revert b. induction l as [|a l IH]; intros b; [reflexivity|].
  cbn [map app Js.collapse string_of_list_ascii append]. rewrite IH.
  destruct l; reflexivity.
Qed.

Lemma dropSpaces_app (x y : list Js.piece) (c : ascii) (r : list Js.piece) :
  y = Js.Other c :: r -> Js.dropSpaces (x ++ y) = (Js.dropSpaces x ++ y)%list.
Proof.
  intros ->. induction x as [|[raw|d] x IH]; [reflexivity | exact IH | reflexivity].
Qed.

Lemma trim_others (l : list ascii) (ps : list Js.piece) :
  l <> [] ->
  rev (Js.dropSpaces (rev (Js.dropSpaces (map Js.Other l ++ ps))))
  = (map Js.Other l ++ rev (Js.dropSpaces (rev ps)))%list.
Proof.
  intros N.
  assert (D : Js.dropSpaces (map Js.Other l ++ ps) = (map Js.Other l ++ ps)%list)
    by (destruct l; [contradiction | reflexivity]).
  rewrite D, rev_app_distr.
  destruct (exists_last N) as (l' & z & ->).
  rewrite map_app, (rev_app_distr (map Js.Other l')). cbn [map rev app].
  rewrite (dropSpaces_app (rev ps) _ z (rev (map Js.Other l')) eq_refl).
  rewrite rev_app_distr. cbn [rev]. rewrite rev_involutive. reflexivity.
Qed.

(** A text that starts with a word keeps the word at its start when it
    is trimmed. *)
Lemma trim_starts_with_word (w rest : string) :
  w <> "" -> nameChars w = true -> Js.startsWith (Js.trim (w ++ rest)) w = true.
Proof.
  intros N W. unfold Js.trim. rewrite (pieces_word_append w rest W).
  rewrite trim_others by (destruct w; [contradiction | discriminate]).
  rewrite unpieces_app, unpieces_others, string_of_list_ascii_of_string.
  apply startsWith_append.
Qed.

Lemma buildSearchIndex_name (pkgName : string) (pkgData : PackageRecord)
    (projectConfig functionsData : value) (searchIndex : string) :
  pkgName <> "" -> nameChars pkgName = true ->
  buildSearchIndex pkgName pkgData projectConfig functionsData = Ok searchIndex ->
  Js.startsWith searchIndex pkgName = true.
Proof.
  intros N W. unfold buildSearchIndex.
  destruct (get projectConfig "keywords") as [kw|]; cbn [obind]; [|discriminate].
  destruct (if truthy functionsData then _ else _) as [funcs|]; cbn [obind]; [|discriminate].
  intros H. injection H as <-.
  unfold joinValues. cbn [app map elemToString toString].
  rewrite join_cons by discriminate.
  unfold Js.collapseSpaces.
  rewrite (pieces_word_append pkgName _ W), collapse_others.
  rewrite string_of_list_ascii_of_string.
  apply trim_starts_with_word; trivial.
Qed.

(** ** The declared order of the members of an object *)

(** The value of a text that denotes an object is the object defined
    from the members the text declares, in their order. *)
Lemma parse_declared (text : string) (v : value) (members : list (string * value)) :
  Json.parse text = Some v ->
  declaredMembers text = Some members ->
  v = Json.object members.
Proof.
  unfold Json.parse, declaredMembers.
  replace (2 * String.length text + 2)%nat with (S (2 * String.length text + 1))%nat by lia.
  cbn [Json.parseValue].
  destruct (Json.skipWs text) as [|c r]; [discriminate|].
  destruct (Ascii.eqb c "{") eqn:C; [|discriminate].
  apply Ascii.eqb_eq in C. subst c.
  change (Ascii.eqb "{" "n") with false. change (Ascii.eqb "{" "t") with false.
  change (Ascii.eqb "{" "f") with false. change (Ascii.eqb "{" dq) with false.
  change (Ascii.eqb "{" "[") with false. change (Ascii.eqb "{" "{") with true.
  cbv iota.
  destruct (Json.skipWs r) as [|d r'].
  - destruct (Json.parseMembers _ r) as [[l rest]|]; [|discriminate].
    cbn [option_map fst]. intros P D. injection D as <-.
    destruct (Json.skipWs rest); [|discriminate]. now injection P as <-.
  - destruct d as [[] [] [] [] [] [] [] []]; cbv beta iota;
      try (destruct (Json.parseMembers _ r) as [[l rest]|]; [|discriminate];
           cbn [option_map fst]; intros P D; injection D as <-;
           destruct (Json.skipWs rest); [|discriminate]; now injection P as <-).
    intros P D. injection D as <-.
    destruct (Json.skipWs r'); [|discriminate]. now injection P as <-.
Qed.

Lemma object_plain (members : list (string * value)) :
  plainKeys [] members = true -> Json.object members = Obj members.
Proof.
  intros P. unfold Json.object. now rewrite (define_plain [] members P).
Qed.

Lemma traverse_names (fvs : list (string * value)) (funcs : Manifest) :
  traverse asFunction fvs = Some funcs -> map funcName funcs = map fst fvs.
Proof.
  revert funcs. induction fvs as [|kv r IH]; intros funcs H.
  - injection H as <-. reflexivity.
  - cbn [traverse] in H. destruct (asFunction kv) as [f|] eqn:F; [|discriminate].
    destruct (traverse asFunction r) as [fs|]; [|discriminate].
    injection H as <-. cbn [map]. rewrite (IH fs eq_refl). f_equal.
    unfold asFunction in F. destruct (snd kv); try discriminate.
    destruct (asText _); [|discriminate]. destruct (asArguments _); [|discriminate].
    now injection F as <-.
Qed.

(** The functions of a manifest whose text declares distinct names, none
    an array index, are the members of the text, in their order. *)
Lemma manifest_declared (text : string) (functionsData : value)
    (members : list (string * value)) (m : option Manifest) :
  Json.parse text = Some functionsData ->
  declaredMembers text = Some members ->
  plainKeys [] members = true ->
  asManifest functionsData = Some m ->
  functionsData = Obj members
  /\ exists funcs, m = Some funcs
                   /\ traverse asFunction members = Some funcs
                   /\ map funcName funcs = map fst members.
Proof.
  intros P D K A. pose proof (parse_declared text functionsData members P D) as E.
  rewrite (object_plain members K) in E. subst functionsData. split; [reflexivity|].
  cbn [asManifest] in A. destruct (traverse asFunction members) as [funcs|] eqn:T;
    [|discriminate].
  injection A as <-. exists funcs. split; [reflexivity|]. split; [reflexivity|].
  now apply traverse_names.
Qed.

(** ** A file system that refuses *)

Lemma under_trans (a b c : string) : under a b = true -> under b c = true -> under a c = true.
Proof.
  unfold under. intros A B. apply startsWith_inv in A. apply startsWith_inv in B.
  remember (Js.substring_from (String.length (a ++ "/")) b) as x eqn:Ex.
  remember (Js.substring_from (String.length (b ++ "/")) c) as y eqn:Ey.
  clear Ex Ey. subst c b.
  rewrite (append_assoc ((a ++ "/") ++ x)), (append_assoc (a ++ "/")).
  apply startsWith_append.
Qed.

Lemma clashFree_In (paths : list string) (p q : string) :
  clashFree paths = true -> In p paths -> In q paths -> under q p = false.
Proof.
  unfold clashFree. intros C P Q. rewrite forallb_forall in C.
  specialize (C p P). rewrite forallb_forall in C.
  specialize (C q Q). now apply negb_true_iff in C.
Qed.

Lemma vacant_In (w : World) (paths : list string) (p : string) :
  vacant w paths = true -> In p paths ->
  isFolder p w = false /\ fileAbove p w = false.
Proof.
  unfold vacant. intros V P. rewrite forallb_forall in V.
  specialize (V p P). apply negb_true_iff, orb_false_iff in V. exact V.
Qed.

(** A folder can be made for a file of the list: nothing is at it or
    above it. *)
Lemma ensureDirStrict_parent (w : World) (paths : list string) (d name : string) :
  vacant w paths = true -> In (d ++ "/" ++ name) paths ->
  ensureDirStrict d w = (Ok tt, mkdir d w).
Proof.
  intros V I. destruct (vacant_In w paths _ V I) as [_ A].
  unfold ensureDirStrict.
  assert (F : isFileAt d w || fileAbove d w = false).
  { destruct (isFileAt d w || fileAbove d w) eqn:E; [|reflexivity].
    exfalso. unfold fileAbove in A.
    assert (X : existsb (fun f => under (fst f) (d ++ "/" ++ name)) (files w) = true).
    { apply orb_true_iff in E as [E|E]; apply existsb_exists in E as (f & If & Hf);
        apply existsb_exists; exists f; (split; [exact If|]).
      - apply String.eqb_eq in Hf. rewrite Hf. apply under_append.
      - apply (under_trans _ d); [exact Hf | apply under_append]. }
    congruence. }
  now rewrite F.
Qed.

Lemma vacant_mkdir (w : World) (paths : list string) (d name : string) :
  clashFree paths = true -> vacant w paths = true ->
  In (d ++ "/" ++ name) paths ->
  vacant (mkdir d w) paths = true.
Proof.
  intros C V I. unfold vacant. apply forallb_forall. intros p P.
  destruct (vacant_In w paths p V P) as [Fo A].
  apply negb_true_iff, orb_false_iff. split.
  - unfold isFolder in *. rewrite mkdir_files.
    apply orb_false_iff in Fo as [Fd Ff]. rewrite Ff, orb_false_r.
    unfold mkdir. destruct (existsb (String.eqb d) (dirs w)); [exact Fd|].
    cbn [dirs]. rewrite existsb_app, Fd. cbn [existsb orb].
    rewrite orb_false_r.
    pose proof (clashFree_In paths _ p C I P) as N.
    apply orb_false_iff. split.
    + apply String.eqb_neq. intros ->.
      now rewrite under_append in N.
    + destruct (under p d) eqn:U; [|reflexivity].
      rewrite (under_trans p d _ U (under_append d name)) in N. discriminate.
  - unfold fileAbove in *. now rewrite mkdir_files.
Qed.

Lemma writeFileStrict_vacant (w : World) (paths : list string) (p : string) (c : content) :
  vacant w paths = true -> In p paths ->
  writeFileStrict p c w = (Ok tt, written p c w).
Proof.
  intros V P. destruct (vacant_In w paths p V P) as [Fo A].
  unfold writeFileStrict. now rewrite Fo, A.
Qed.

Lemma vacant_written (w : World) (paths : list string) (p : string) (c : content) :
  clashFree paths = true -> vacant w paths = true -> In p paths ->
  vacant (written p c w) paths = true.
Proof.
  intros C V P. unfold vacant. apply forallb_forall. intros q Q.
  destruct (vacant_In w paths q V Q) as [Fo A].
  apply negb_true_iff, orb_false_iff. split.
  - unfold isFolder in *. cbn [written dirs files].
    apply orb_false_iff in Fo as [Fd Ff]. rewrite Fd. cbn [orb].
    rewrite existsb_app, Ff. cbn [existsb fst orb].
    now rewrite (clashFree_In paths p q C P Q).
  - unfold fileAbove in *. cbn [written files].
    rewrite existsb_app, A. cbn [existsb fst orb].
    now rewrite (clashFree_In paths q p C Q P).
Qed.

(** The target of an entry with plain segments is a name in its
    parent. *)
Lemma docTarget_in_parent (env : Env) (pkgName version : string) (e : ZipEntry) :
  plainSegment pkgName = true -> plainSegment version = true ->
  isDocFile e = true -> safeEntry e = true ->
  exists name,
    docTarget (outputDir env pkgName version) e
    = Path.dirname (docTarget (outputDir env pkgName version) e) ++ "/" ++ name.
Proof.
  intros P V D S.
  assert (S' := S). unfold safeEntry in S'. rewrite D in S'. cbn [negb orb] in S'.
  unfold plainPath in S'. rewrite forallb_forall in S'. apply Forall_forall in S'.
  destruct (exists_last (split_nonempty "/" (Js.substring_from 5 (entryName e))))
    as (folders & name & E).
  rewrite E in S'. apply Forall_app in S' as [Ff Fn]. inversion Fn as [|? ? Pn _]; subst.
  assert (N : entryName e = "docs/" ++ Js.join "/" (folders ++ [name])).
  { rewrite <- E, join_split. unfold isDocFile in D. apply andb_true_iff in D as [D _].
    exact (startsWith_inv _ _ D). }
  exists name.
  rewrite (docTarget_parent env pkgName version e folders name P V Ff Pn N).
  assert (FS : Forall (fun p => plainSegment p = true) (folders ++ [name]))
    by (apply Forall_app; split; [exact Ff | now constructor]).
  assert (NE : (folders ++ [name])%list <> []) by (destruct folders; discriminate).
  rewrite (docTarget_plain env pkgName version e (folders ++ [name]) P V FS NE N).
  rewrite join_snoc.
  assert (K : "/docs/" ++ concatAll (map (fun s => s ++ "/") folders) ++ name
              = "/" ++ (Js.join "/" ("docs" :: folders) ++ "/") ++ name)
    by (rewrite join_trailing by discriminate; reflexivity).
  rewrite K. now rewrite !append_assoc.
Qed.

(** With paths that do not clash and a world in which nothing stands in
    their way, no call is refused: the copy does what [copyDocs] does. *)
Lemma copyDocsStrict_accepts (env : Env) (pkgName version : string)
    (paths : list string) (zipEntries : list ZipEntry) (b : bool) (w : World) :
  plainSegment pkgName = true -> plainSegment version = true ->
  forallb safeEntry zipEntries = true ->
  clashFree paths = true -> vacant w paths = true ->
  (forall e, In e zipEntries -> isDocFile e = true ->
             In (docTarget (outputDir env pkgName version) e) paths) ->
  copyDocsStrict (outputDir env pkgName version) zipEntries b w
  = copyDocs (outputDir env pkgName version) zipEntries b w
  /\ vacant (snd (copyDocs (outputDir env pkgName version) zipEntries b w)) paths = true.
Proof.
  intros P V S C. revert b w. induction zipEntries as [|e r IH]; intros b w Va I.
  - split; [reflexivity | exact Va].
  - cbn [forallb] in S. apply andb_true_iff in S as [Se Sr].
    assert (Ir : forall x, In x r -> isDocFile x = true ->
                           In (docTarget (outputDir env pkgName version) x) paths)
      by (intros x Hx; apply I; now right).
    cbn [copyDocsStrict copyDocs]. destruct (isDocFile e) eqn:D; [|now apply IH].
    destruct (docTarget_in_parent env pkgName version e P V D Se) as (name & T).
    pose proof (I e (or_introl eq_refl) D) as It.
    remember (docTarget (outputDir env pkgName version) e) as t eqn:Et.
    remember (Path.dirname t) as d eqn:Ed.
    rewrite T in It.
    pose proof (ensureDirStrict_parent w paths d name Va It) as E1.
    pose proof (vacant_mkdir w paths d name C Va It) as V1.
    rewrite <- T in It.
    pose proof (writeFileStrict_vacant (mkdir d w) paths t (Bytes (getData e)) V1 It) as E2.
    pose proof (vacant_written (mkdir d w) paths t (Bytes (getData e)) C V1 It) as V2.
    rewrite (bind_ok _ _ _ _ _ E1), (bind_ok _ _ _ _ _ E2).
    rewrite !(bind_ok (ensureDir d) _ w (mkdir d w) tt eq_refl).
    rewrite !(bind_ok (writeFile t (Bytes (getData e))) _ (mkdir d w)
                (written t (Bytes (getData e)) (mkdir d w)) tt eq_refl).
    exact (IH Sr true _ V2 Ir).
Qed.

Lemma versionTargets_docs (env : Env) (pkgName version : string)
    (zipEntries : list ZipEntry) (e : ZipEntry) :
  In e zipEntries -> isDocFile e = true ->
  In (docTarget (outputDir env pkgName version) e)
    (versionTargets env pkgName version zipEntries).
Proof.
  intros I D. unfold versionTargets. apply in_or_app. left.
  apply (in_map fst _ _ (In_copied _ zipEntries e I D)).
Qed.

Lemma finishArchiveStrict_accepts (env : Env) (pkgName : string)
    (pkgData : PackageRecord) (version : string) (versionData : VersionRecord)
    (zipEntries : list ZipEntry) (projectConfig functionsData : value) (w : World) :
  plainSegment pkgName = true -> plainSegment version = true ->
  forallb safeEntry zipEntries = true ->
  clashFree (versionTargets env pkgName version zipEntries) = true ->
  vacant w (versionTargets env pkgName version zipEntries) = true ->
  finishArchiveStrict env pkgName pkgData version versionData zipEntries
    projectConfig functionsData w
  = finishArchive env pkgName pkgData version versionData zipEntries
      projectConfig functionsData w.
Proof.
  intros P V S C Va.
  destruct (copyDocsStrict_accepts env pkgName version
              (versionTargets env pkgName version zipEntries) zipEntries false w
              P V S C Va (versionTargets_docs env pkgName version zipEntries))
    as (E & V1).
  destruct (copyDocs_spec (outputDir env pkgName version) zipEntries false w)
    as (w1 & Cd & _).
  rewrite Cd in E, V1. cbn [snd] in V1.
  unfold finishArchiveStrict, finishArchive.
  rewrite (bind_ok _ _ _ _ _ E), (bind_ok _ _ _ _ _ Cd).
  destruct (renderVersion _ _ _ _ _ _ _ _) as [r|e]; [|reflexivity].
  rewrite !(bind_ok (lift (Ok r)) _ w1 w1 r eq_refl).
  assert (Ii : In (indexPath env pkgName version)
                 (versionTargets env pkgName version zipEntries))
    by (unfold versionTargets; apply in_or_app; right; now left).
  assert (Im : In (metadataPath env pkgName version)
                 (versionTargets env pkgName version zipEntries))
    by (unfold versionTargets; apply in_or_app; right; right; now left).
  fold (indexPath env pkgName version). fold (metadataPath env pkgName version).
  rewrite (bind_ok _ _ _ _ _
             (writeFileStrict_vacant w1 _ _ (Bytes (indexMd r)) V1 Ii)).
  rewrite (writeFileStrict_vacant _ _ _ (MetadataJson (metadata r))
             (vacant_written w1 _ _ (Bytes (indexMd r)) C V1 Ii) Im).
  reflexivity.
Qed.

(** What the copy leaves when no call was refused. *)
Lemma copyDocsStrict_ok (out : string) (zipEntries : list ZipEntry) (b b' : bool)
    (w w' : World) :
  copyDocsStrict out zipEntries b w = (Ok b', w') ->
  b' = b || existsb isDocFile zipEntries
  /\ files w' = (files w ++ copied out zipEntries)%list.
Proof.
  revert b w. induction zipEntries as [|e r IH]; intros b w H.
  - injection H as <- <-. now rewrite orb_false_r, app_nil_r.
  - cbn [copyDocsStrict] in H. unfold copied. cbn [existsb filter].
    destruct (isDocFile e) eqn:D.
    + unfold bind, ensureDirStrict, writeFileStrict in H.
      destruct (isFileAt _ w || fileAbove _ w); [discriminate|].
      destruct (isFolder _ _ || fileAbove _ _); [discriminate|].
      apply IH in H as [-> F]. split; [now rewrite orb_true_r|].
      rewrite F. cbn [written files map]. rewrite mkdir_files, <- app_assoc. reflexivity.
    + cbn [orb]. now apply IH in H.
Qed.

Lemma finishArchiveStrict_ok (env : Env) (pkgName : string)
    (pkgData : PackageRecord) (version : string) (versionData : VersionRecord)
    (zipEntries : list ZipEntry) (projectConfig functionsData : value) (w w' : World) :
  finishArchiveStrict env pkgName pkgData version versionData zipEntries
    projectConfig functionsData w = (Ok tt, w') ->
  exists r,
    renderVersion pkgName pkgData version versionData (readReadme zipEntries)
      projectConfig functionsData (existsb isDocFile zipEntries) = Ok r
    /\ files w'
       = (files w ++ copied (outputDir env pkgName version) zipEntries
          ++ [(indexPath env pkgName version, Bytes (indexMd r));
              (metadataPath env pkgName version, MetadataJson (metadata r))])%list.
Proof.
  unfold finishArchiveStrict. unfold bind at 1.
  destruct (copyDocsStrict _ zipEntries false w) as [[b|e] w1] eqn:E; [|discriminate].
  apply copyDocsStrict_ok in E as [-> F]. cbn [orb].
  unfold bind at 1. unfold lift.
  destruct (renderVersion _ _ _ _ _ _ _ _) as [r|e]; [|discriminate].
  unfold bind, writeFileStrict.
  destruct (isFolder _ w1 || fileAbove _ w1); [discriminate|].
  destruct (isFolder _ _ || fileAbove _ _); [discriminate|].
  intros H. injection H as <-. exists r. split; [reflexivity|].
  cbn [written files]. rewrite F, <- !app_assoc. reflexivity.
Qed.

(** A file of the docs folder and a file inside a folder of its name:
    the second call for the folder is refused, after the first file was
    written. *)
Lemma clashing_docs_entries_refused :
  copyDocsStrict (outputDir sampleEnv "prime" "0.1.0") clashingEntries false emptyWorld
  = (Throw WriteError,
     {| dirs := ["/repo/site/src/content/packages/prime/0.1.0/docs"];
        files := [("/repo/site/src/content/packages/prime/0.1.0/docs/a", Bytes "a file")];
        console := [] |})
  /\ clashFree (versionTargets sampleEnv "prime" "0.1.0" clashingEntries) = false.
Proof. split; vm_compute; reflexivity. Qed.

(** * The claims *)

(** ** The API reference *)

(** C7, as stated, fails: a manifest whose text declares the function
    [b] before the functions [2] and [1] is enumerated with the array
    indices first, in ascending order; the reference lists [1], [2], [b],
    not the functions in the order the manifest declares them. *)
Lemma apiReference_declared_order_counterexample :
  declaredMembers indexedFunctions = Some (map functionValue indexedDeclared)
  /\ map funcName indexedDeclared = ["b"; "2"; "1"]
  /\ asManifest (parsed indexedFunctions) = Some (Some (rev indexedDeclared))
  /\ generateApiDocs (parsed indexedFunctions) = Ok (apiReference (Some (rev indexedDeclared)))
  /\ generateApiDocs (parsed indexedFunctions) <> Ok (apiReference (Some indexedDeclared)).
Proof.
  split; [vm_compute; reflexivity|]. split; [reflexivity|].
  split; [vm_compute; reflexivity|]. split; [vm_compute; reflexivity|].
  vm_compute. discriminate.
Qed.

(** C7, amended: [generateApiDocs] returns the empty string for an absent
    manifest; otherwise it returns the heading of the API reference
    followed, for each function in the order in which the runtime
    enumerates the manifest, by a heading with the name as inline code,
    the description or the fallback text when it is missing or empty, and,
    only when the function declares at least one argument, the arguments
    label and one bullet per argument in the order in which the runtime
    enumerates them, with its name as inline code and its description or
    nothing.  The order of enumeration of an object is the order in which
    its text declares the members whenever their names are distinct and
    none is an array index; for a manifest of such a text the sections
    are those of the declared functions, in the declared order. *)
Theorem generateApiDocs_follows_manifest (functionsData : value) (m : option Manifest) :
  asManifest functionsData = Some m ->
  generateApiDocs functionsData = Ok (apiReference m)
  /\ generateApiDocs Null = Ok ""
  /\ (forall before after : Manifest,
        m = Some (before ++ after)%list ->
        generateApiDocs functionsData
        = Ok (apiReference (Some before) ++ concatAll (map functionSection after)))
  /\ (forall members : list (string * value),
        plainKeys [] members = true ->
        entries (Json.object members) = members)
  /\ (forall (text : string) (members : list (string * value)),
        Json.parse text = Some functionsData ->
        declaredMembers text = Some members ->
        plainKeys [] members = true ->
        exists funcs,
          traverse asFunction members = Some funcs
          /\ map funcName funcs = map fst members
          /\ generateApiDocs functionsData = Ok (apiReference (Some funcs))).
Proof.
  intros H. pose proof (generateApiDocs_spec functionsData m H) as G.
  split; [exact G|]. split; [reflexivity|]. split; [|split].
  - intros before after ->. rewrite G. f_equal.
    unfold apiReference.
    now rewrite map_app, concatAll_app, !append_assoc.
  - intros members P. unfold Json.object. cbn [entries].
    now rewrite (define_plain [] members P).
  - intros text members P D K.
    destruct (manifest_declared text functionsData members m P D K H)
      as (_ & funcs & -> & T & N).
    exists funcs. split; [exact T|]. split; [exact N | exact G].
Qed.

(** The reference of the page of [error] 0.2.0, from its manifest, whose
    text declares plain names: the functions are those of the text, in
    its order. *)
Lemma generateApiDocs_follows_manifest_witness :
  generateApiDocs (parsed errorFunctions) = Ok errorApi
  /\ exists funcs,
       map funcName funcs = ["ERRORSTR"; "THROW"]
       /\ generateApiDocs (parsed errorFunctions) = Ok (apiReference (Some funcs)).
Proof.
  destruct (generateApiDocs_follows_manifest (parsed errorFunctions)
              (Some errorManifest) eq_refl) as (G & _ & _ & _ & D).
  split; [exact G|].
  destruct (D errorFunctions (entries (parsed errorFunctions)))
    as (funcs & _ & N & A).
  - vm_compute. reflexivity.
  - vm_compute. reflexivity.
  - vm_compute. reflexivity.
  - exists funcs. split; [exact N | exact A].
Defined.

(** ** The search index *)

(** C1, as stated, fails: for the descriptor of [prime], whose keywords
    are the text of a bracketed list, the search index holds that text as
    it is, not the normalised keywords. *)
Lemma searchIndex_normalized_keywords_counterexample :
  buildSearchIndex "prime" primePkg (parsed primeProject) (parsed primeFunctions)
  = Ok "prime A small library for prime number utilities. ['prime numbers'] ISPRIME Checks whether the provided value is a prime. PRIMEVECTOR Generates a vector of prime numbers."
  /\ get (parsed primeProject) "keywords" = Ok (Str "['prime numbers']")
  /\ normalizeKeywords (Str "['prime numbers']") = Str "prime numbers"
  /\ asManifest (parsed primeFunctions) = Some (Some primeManifest)
  /\ buildSearchIndex "prime" primePkg (parsed primeProject) (parsed primeFunctions)
     <> Ok (searchIndexOf "prime" (description primePkg)
              (normalizedKeywordsText (Str "['prime numbers']")) (Some primeManifest)).
Proof.
  repeat split; try reflexivity.
  vm_compute. discriminate.
Qed.

(** C1, amended: the search index is the package name, the package
    description, the keywords of the descriptor as they are when truthy (a
    non-empty string as it is, a list as its elements separated by commas;
    not the normalised keywords) and, when there is a manifest, the name of
    each function followed by its description when not empty, in the order
    in which the runtime enumerates the manifest; joined by spaces, with
    every run of white space collapsed to one space and the ends trimmed.
    The order of enumeration is the order in which the text of the
    manifest declares the functions whenever their names are distinct and
    none is an array index. *)
Theorem searchIndex_from_raw_keywords (pkgName : string) (pkgData : PackageRecord)
    (version : string) (versionData : VersionRecord) (readme : string)
    (props : list (string * value)) (functionsData : value)
    (m : option Manifest) (hasDocs : bool) :
  asManifest functionsData = Some m ->
  buildSearchIndex pkgName pkgData (Obj props) functionsData
  = Ok (Js.trim (Js.collapseSpaces
                   (Js.join " "
                      ([pkgName; description pkgData]
                       ++ rawKeywordsText (lookup "keywords" props)
                       ++ manifestText m)%list)))
  /\ (exists r,
        renderVersion pkgName pkgData version versionData readme (Obj props)
          functionsData hasDocs = Ok r
        /\ buildSearchIndex pkgName pkgData (Obj props) functionsData
           = Ok (m_searchIndex (metadata r)))
  /\ (forall k : Keywords,
        lookup "keywords" props = keywordsValue k ->
        rawKeywordsText (lookup "keywords" props)
        = match k with
          | KAbsent => []
          | KText s => if s =? "" then [] else [s]
          | KList l => [Js.join "," l]
          end)
  /\ (forall (text : string) (members : list (string * value)),
        Json.parse text = Some functionsData ->
        declaredMembers text = Some members ->
        plainKeys [] members = true ->
        exists funcs,
          traverse asFunction members = Some funcs
          /\ map funcName funcs = map fst members
          /\ manifestText m = flat_map functionText funcs).
Proof.
  intros H.
  split; [apply buildSearchIndex_spec, H|].
  split; [|split].
  - eexists. split; [apply renderVersion_spec, H|].
    apply buildSearchIndex_spec, H.
  - intros k ->. apply rawKeywordsText_cases.
  - intros text members P D K.
    destruct (manifest_declared text functionsData members m P D K H)
      as (_ & funcs & -> & T & N).
    exists funcs. split; [exact T|]. split; [exact N | reflexivity].
Qed.

(** The example of the specification, with the keywords as a plain
    string, and the same package with the keywords as a list. *)
Lemma searchIndex_from_raw_keywords_witness :
  buildSearchIndex "prime" primePkg
    (Obj [("keywords", Str "prime numbers")]) (parsed primeFunctions)
  = Ok "prime A small library for prime number utilities. prime numbers ISPRIME Checks whether the provided value is a prime. PRIMEVECTOR Generates a vector of prime numbers."
  /\ buildSearchIndex "prime" primePkg
       (Obj [("keywords", Arr [Str "prime"; Str "numbers"])]) (parsed primeFunctions)
     = Ok "prime A small library for prime number utilities. prime,numbers ISPRIME Checks whether the provided value is a prime. PRIMEVECTOR Generates a vector of prime numbers.".
Proof.
  split.
  - exact (proj1 (searchIndex_from_raw_keywords "prime" primePkg "0.1.0" primeVersion ""
                    [("keywords", Str "prime numbers")]
                    (parsed primeFunctions) (Some primeManifest) false eq_refl)).
  - exact (proj1 (searchIndex_from_raw_keywords "prime" primePkg "0.1.0" primeVersion ""
                    [("keywords", Arr [Str "prime"; Str "numbers"])]
                    (parsed primeFunctions) (Some primeManifest) false eq_refl)).
Defined.

(** ** The keywords *)

(** C2, as stated, fails: a list whose only keyword is written between
    brackets is normalised to a bracketed string, which a second
    normalisation changes; so does the text of such a list. *)
Lemma normalize_bracketed_keyword_counterexample :
  ~ idempotentBracketFree (KList ["[beta]"])
  /\ ~ idempotentBracketFree (KText "['[beta]']").
Proof.
  split; intros [H _]; vm_compute in H; discriminate.
Qed.

(** C2, amended: for every representation of the keywords the result of the
    normalisation is a string; normalising it again leaves it unchanged
    unless it both starts with an opening bracket and ends with a closing
    bracket.  Absent keywords give the empty string; a string that is not
    bracketed is kept as it is; a list, and a bracketed string that parses
    (once its single quotes are made double) to a list of strings, give
    the elements joined by a comma and a space, which has no bracket at
    either end and is left unchanged by a second normalisation when no
    element holds a bracket; a bracketed string that does not parse gives
    its tokens, trimmed and unquoted, joined in the same way. *)
Theorem normalizeKeywords_idempotent_unless_bracketed (k : Keywords) :
  exists s,
    normalizeKeywords (keywordsValue k) = Str s
    /\ (bracketed s = false ->
        normalizeKeywords (normalizeKeywords (keywordsValue k))
        = normalizeKeywords (keywordsValue k))
    /\ match k with
       | KAbsent => s = ""
       | KText t =>
           (bracketed t = false -> s = t)
           /\ (forall l, bracketed t = true ->
                 Json.parse (Js.replaceAll sq (String dq "") t) = Some (Arr (map Str l)) ->
                 s = Js.join ", " l)
           /\ (bracketed t = true ->
               Json.parse (Js.replaceAll sq (String dq "") t) = None ->
               s = splitKeywords t)
       | KList l => s = Js.join ", " l
       end
    /\ (forall l, s = Js.join ", " l -> forallb bracketFree l = true ->
          Js.startsWith s "[" = false /\ Js.endsWith s "]" = false
          /\ normalizeKeywords (Str s) = Str s).
Proof.
  destruct (normalizeKeywords_string k) as [s E].
  exists s. split; [exact E|]. split; [|split].
  - intros B. rewrite E. now apply normalizeKeywords_plain.
  - destruct k as [|t|l].
    + cbn in E. congruence.
    + cbn [keywordsValue] in E. split; [|split].
      * intros B. rewrite (normalizeKeywords_plain t B) in E. congruence.
      * intros l B P. unfold normalizeKeywords in E. cbn [truthy] in E.
        destruct (String.eqb_spec t "") as [->|_]; [discriminate B|].
        cbn [negb] in E. rewrite B, P, joinValues_Str in E. congruence.
      * intros B P. unfold normalizeKeywords in E. cbn [truthy] in E.
        destruct (String.eqb_spec t "") as [->|_]; [discriminate B|].
        cbn [negb] in E. rewrite B, P in E. congruence.
    + rewrite normalizeKeywords_list in E. congruence.
  - intros l -> F. apply bracketFree_join, bracketFree_ends in F as [S1 S2].
    repeat split; [exact S1 | exact S2 |].
    apply normalizeKeywords_plain. unfold bracketed. now rewrite S1.
Qed.

(** The keywords of the packages of the registry, in their three forms,
    are normalised once and for all. *)
Lemma normalizeKeywords_idempotent_unless_bracketed_witness :
  normalizeKeywords (normalizeKeywords (keywordsValue (KText "['functional', 'oop']")))
  = normalizeKeywords (keywordsValue (KText "['functional', 'oop']"))
  /\ normalizeKeywords (keywordsValue (KText "['functional', 'oop']"))
     = Str "functional, oop"
  /\ normalizeKeywords (keywordsValue (KList ["functional"; "oop"]))
     = Str "functional, oop"
  /\ normalizeKeywords (Str "functional, oop") = Str "functional, oop".
Proof.
  destruct (normalizeKeywords_idempotent_unless_bracketed
              (KText "['functional', 'oop']")) as (s & E & I & (_ & P & _) & F).
  destruct (normalizeKeywords_idempotent_unless_bracketed
              (KList ["functional"; "oop"])) as (s' & E' & _ & L & _).
  pose proof (P ["functional"; "oop"] eq_refl eq_refl) as Q.
  destruct (F ["functional"; "oop"] Q eq_refl) as (_ & _ & N).
  rewrite E', L. rewrite E in *. rewrite Q in *.
  split; [exact N|]. split; [reflexivity|]. split; [reflexivity | exact N].
Defined.

(** ** The page *)

(** C3, as stated, fails: an archive whose readme entry is empty has a
    readme entry, and its page is the synthesised one, ending in the
    callout, not the front matter followed by the (empty) text of the
    entry. *)
Lemma empty_readme_entry_counterexample :
  findEntry "readme.md" [entry "README.md" ""] = Some (entry "README.md" "")
  /\ exists r,
       renderVersion "error" errorPkg "0.2.0" errorVersion
         (readReadme [entry "README.md" ""]) emptyObject Null false = Ok r
       /\ indexMd r
          <> pageByEntry
               (frontBlock "error" "0.2.0" (description errorPkg) true
                  (m_keywords (metadata r)) (m_homepage (metadata r))
                  (m_license (metadata r)) (m_searchIndex (metadata r)) [])
               [entry "README.md" ""] None
       /\ Js.endsWith (indexMd r) callout = true.
Proof.
  split; [reflexivity|].
  eexists. split; [reflexivity|].
  split; [vm_compute; discriminate | reflexivity].
Qed.

(** C3, amended: the synthesiser runs if and only if the text recovered
    for the readme is empty, that is when the archive has no readme entry
    or when the first one is empty.  When that text is not empty the
    emitted [index.md] is the front matter, the text as it is and, only if
    there is a manifest, the API reference; when it is empty the emitted
    [index.md] is the front matter, the API reference and the callout,
    which ends it. *)
Theorem page_follows_readme_text (env : Env) (pkgName : string)
    (pkgData : PackageRecord) (version : string) (versionData : VersionRecord)
    (zipEntries : list ZipEntry) (props : list (string * value))
    (functionsData : value) (m : option Manifest) (w : World) :
  asManifest functionsData = Some m ->
  exists w' r,
    finishArchive env pkgName pkgData version versionData zipEntries
      (Obj props) functionsData w = (Ok tt, w')
    /\ In (indexPath env pkgName version, Bytes (indexMd r)) (files w')
    /\ (let front :=
          frontBlock pkgName version (description pkgData) (m_latest (metadata r))
            (m_keywords (metadata r)) (m_homepage (metadata r))
            (m_license (metadata r)) (m_searchIndex (metadata r))
            (dependencies versionData) in
        (readReadme zipEntries <> "" ->
         indexMd r
         = front ++ readReadme zipEntries
           ++ match m with
              | Some _ => nl ++ nl ++ apiReference m
              | None => ""
              end)
        /\ (readReadme zipEntries = "" ->
            indexMd r = front ++ apiReference m ++ nl ++ nl ++ callout
            /\ Js.endsWith (indexMd r) callout = true))
    /\ (readReadme zipEntries = ""
        <-> findEntry "readme.md" zipEntries = None
            \/ exists e, findEntry "readme.md" zipEntries = Some e /\ getData e = "").
Proof.
  intros H.
  destruct (finishArchive_spec env pkgName pkgData version versionData zipEntries
              props functionsData m w H) as (w' & E & F & _).
  exists w'.
  exists (renderedOf pkgName pkgData version versionData (readReadme zipEntries)
            props functionsData m (existsb isDocFile zipEntries)).
  split; [exact E|]. split.
  { rewrite F. apply in_or_app; right. apply in_or_app; right. now left. }
  split; [|apply readReadme_empty].
  cbn [renderedOf indexMd metadata m_latest m_keywords m_homepage m_license
       m_searchIndex].
  unfold pageOf. split.
  - intros N. apply String.eqb_neq in N. rewrite N.
    destruct m; [reflexivity | now rewrite append_empty_r].
  - intros Z. rewrite Z. cbn [String.eqb]. split; [reflexivity|].
    rewrite <- !append_assoc. apply endsWith_append.
Qed.

(** The archive of [prime] has a readme: its page is the front matter,
    the readme and the API reference. *)
Lemma page_follows_readme_text_witness :
  exists w' r,
    finishArchive sampleEnv "prime" primePkg "0.1.0" primeVersion primeEntries
      (parsed primeProject) (parsed primeFunctions) emptyWorld = (Ok tt, w')
    /\ indexMd r
       = frontBlock "prime" "0.1.0" (description primePkg) (m_latest (metadata r))
           (m_keywords (metadata r)) (m_homepage (metadata r))
           (m_license (metadata r)) (m_searchIndex (metadata r))
           (dependencies primeVersion)
         ++ "# prime" ++ nl ++ nl ++ apiReference (Some primeManifest).
Proof.
  destruct (page_follows_readme_text sampleEnv "prime" primePkg "0.1.0"
              primeVersion primeEntries
              [("keywords", Str "['prime numbers']"); ("license", Str "MIT")]
              (parsed primeFunctions) (Some primeManifest) emptyWorld eq_refl)
    as (w' & r & E & _ & (P & _) & _).
  exists w', r. split; [exact E|].
  apply P. vm_compute. discriminate.
Defined.

(** ** The docs folder *)

(** C4, as stated, fails: an archive whose only entry under the docs
    prefix is the directory entry of the folder has such an entry, yet
    nothing is copied and the metadata say that there are no docs. *)
Lemma docs_directory_entry_counterexample :
  existsb hasDocsPrefix [folder "docs/"] = true
  /\ exists page meta,
       finishArchive sampleEnv "error" errorPkg "0.2.0" errorVersion
         [folder "docs/"] emptyObject Null emptyWorld
       = (Ok tt,
          {| dirs := [];
             files := [(indexPath sampleEnv "error" "0.2.0", Bytes page);
                       (metadataPath sampleEnv "error" "0.2.0", MetadataJson meta)];
             console := [] |})
       /\ m_hasDocs meta = false.
Proof.
  split; [reflexivity|].
  do 2 eexists. split; [vm_compute; reflexivity | reflexivity].
Qed.

(** C4, amended: for a package name and a version that are plain
    segments and an archive whose entries under the docs prefix that are
    not directories have names made of plain segments below the prefix,
    every such entry is written, with its bytes as they are, to the same
    relative path inside the docs folder of the output directory of the
    version, which lies under that directory, provided that no path
    written for the version lies inside another and nothing of the world
    stands in their way (a path that has to be a file and a folder at once
    makes a call of the file system fail); these, the page and the
    metadata are all that is written for the version.  And whenever the
    copy, the page and the metadata of an archive are written, [hasDocs]
    in the metadata is true if and only if the archive has an entry under
    the prefix that is not a directory. *)
Theorem docs_files_copied_and_flagged (env : Env) (pkgName : string)
    (pkgData : PackageRecord) (version : string) (versionData : VersionRecord)
    (zipEntries : list ZipEntry) (props : list (string * value))
    (functionsData : value) (m : option Manifest) (w : World) :
  asManifest functionsData = Some m ->
  (plainSegment pkgName = true -> plainSegment version = true ->
   forallb safeEntry zipEntries = true ->
   clashFree (versionTargets env pkgName version zipEntries) = true ->
   vacant w (versionTargets env pkgName version zipEntries) = true ->
   exists w' page meta,
     finishArchiveStrict env pkgName pkgData version versionData zipEntries
       (Obj props) functionsData w = (Ok tt, w')
     /\ files w'
        = (files w
           ++ map (fun e =>
                     ((outputDir env pkgName version ++ "/docs/"
                       ++ Js.substring_from 5 (entryName e))%string,
                      Bytes (getData e)))
                (filter isDocFile zipEntries)
           ++ [(indexPath env pkgName version, Bytes page);
               (metadataPath env pkgName version, MetadataJson meta)])%list
     /\ (forall e, In e zipEntries ->
                   Js.startsWith (entryName e) "docs/" = true ->
                   isDirectory e = false ->
                   In (outputDir env pkgName version ++ "/docs/"
                       ++ Js.substring_from 5 (entryName e),
                       Bytes (getData e)) (files w')
                   /\ under (outputDir env pkgName version)
                        (outputDir env pkgName version ++ "/docs/"
                         ++ Js.substring_from 5 (entryName e)) = true)
     /\ (m_hasDocs meta = true
         <-> exists e, In e zipEntries
                       /\ Js.startsWith (entryName e) "docs/" = true
                       /\ isDirectory e = false))
  /\ (forall w',
        finishArchiveStrict env pkgName pkgData version versionData zipEntries
          (Obj props) functionsData w = (Ok tt, w') ->
        exists meta,
          In (metadataPath env pkgName version, MetadataJson meta) (files w')
          /\ (m_hasDocs meta = true
              <-> exists e, In e zipEntries
                            /\ Js.startsWith (entryName e) "docs/" = true
                            /\ isDirectory e = false)).
Proof.
  intros H. split.
  - intros P V S C Va.
    destruct (finishArchive_spec env pkgName pkgData version versionData zipEntries
                props functionsData m w H) as (w' & E & F & _).
    rewrite <- (finishArchiveStrict_accepts env pkgName pkgData version versionData
                  zipEntries (Obj props) functionsData w P V S C Va) in E.
    assert (T : copied (outputDir env pkgName version) zipEntries
                = map (fun e =>
                         (outputDir env pkgName version ++ "/docs/"
                          ++ Js.substring_from 5 (entryName e),
                          Bytes (getData e)))
                    (filter isDocFile zipEntries)).
    { unfold copied. apply map_ext_in. intros e I.
      apply filter_In in I as [I D]. f_equal.
      apply safeEntry_target; trivial.
      rewrite forallb_forall in S. now apply S. }
    rewrite T in F.
    exists w'. do 2 eexists.
    split; [exact E|]. split; [exact F|]. split.
    + intros e I Sd D. split.
      * rewrite F. apply in_or_app; right. apply in_or_app; left.
        apply (in_map (fun e => (outputDir env pkgName version ++ "/docs/"
                                 ++ Js.substring_from 5 (entryName e),
                                 Bytes (getData e)))).
        apply filter_In. split; [exact I|].
        unfold isDocFile. now rewrite Sd, D.
      * apply (under_append (outputDir env pkgName version)).
    + cbn [renderedOf metadata m_hasDocs]. apply existsb_isDocFile.
  - intros w' E.
    destruct (finishArchiveStrict_ok env pkgName pkgData version versionData zipEntries
                (Obj props) functionsData w w' E) as (r & R & F).
    rewrite (renderVersion_spec _ _ _ _ _ _ _ _ _ H) in R. injection R as <-.
    eexists. split.
    + rewrite F. apply in_or_app; right. apply in_or_app; right. right. now left.
    + cbn [renderedOf metadata m_hasDocs]. apply existsb_isDocFile.
Qed.

(** The guide of [prime] is copied next to its page, inside the output
    directory. *)
Lemma docs_files_copied_and_flagged_witness :
  exists w',
    finishArchiveStrict sampleEnv "prime" primePkg "0.1.0" primeVersion primeEntries
      (parsed primeProject) (parsed primeFunctions) emptyWorld = (Ok tt, w')
    /\ In ("/repo/site/src/content/packages/prime/0.1.0/docs/guide.md",
           Bytes "How to use prime.") (files w')
    /\ under (outputDir sampleEnv "prime" "0.1.0")
         "/repo/site/src/content/packages/prime/0.1.0/docs/guide.md" = true.
Proof.
  destruct (proj1 (docs_files_copied_and_flagged sampleEnv "prime" primePkg "0.1.0"
                     primeVersion primeEntries
                     [("keywords", Str "['prime numbers']"); ("license", Str "MIT")]
                     (parsed primeFunctions) (Some primeManifest) emptyWorld eq_refl)
              eq_refl eq_refl)
    as (w' & page & meta & E & _ & C & _).
  - vm_compute. reflexivity.
  - vm_compute. reflexivity.
  - vm_compute. reflexivity.
  - exists w'. split; [exact E|].
    exact (C (entry "docs/guide.md" "How to use prime.")
             (or_intror (or_intror (or_intror (or_intror (or_introl eq_refl)))))
             eq_refl eq_refl).
Defined.

(** ** Failures that stay local *)



(** ** A failure that stops the run *)

(** C9: when the archive of a version exists and is not a readable zip
    container, opening it throws, nothing catches the exception inside the
    loops, and the run ends there: the world is the one left by the
    versions before it, with the output directory of the version and the
    error sent to the console, whatever versions and packages follow; a
    missing archive, in the same place, lets the run go on (C5). *)
Theorem unreadable_archive_stops_the_run (env : Env) (registry : Registry)
    (before after : list Job) (j : Job) (w w1 : World) :
  indexJson env = Ok registry ->
  jobs registry = (before ++ j :: after)%list ->
  forEach before (processJob env) (prepared env w) = (Ok tt, w1) ->
  disk env (gspkgPath env (snd (snd j))) = Some Unreadable ->
  processJob env j w1
  = (Throw InvalidZip, mkdir (outputDir env (fst (fst j)) (fst (snd j))) w1)
  /\ extractDocs env w
     = (Throw InvalidZip, mkdir (outputDir env (fst (fst j)) (fst (snd j))) w1)
  /\ main env w
     = said (Error InvalidZip) (mkdir (outputDir env (fst (fst j)) (fst (snd j))) w1)
  /\ files (main env w) = files w1.
Proof.
  intros I J B U.
  pose proof (processJob_unreadable env j w1 U) as P.
  assert (X : extractDocs env w
              = (Throw InvalidZip,
                 mkdir (outputDir env (fst (fst j)) (fst (snd j))) w1)).
  { unfold extractDocs, bind, lift. rewrite I.
    cbn [ensureDir emptyDir]. fold (prepared env w).
    rewrite forEach_jobs, J, forEach_app, B. cbn [forEach].
    now rewrite (bind_throw _ _ _ _ _ P). }
  split; [exact P|]. split; [exact X|].
  unfold main. rewrite X. split; [reflexivity|].
  cbn [said files]. apply mkdir_files.
Qed.

(** In the damaged checkout the second archive is not a zip container:
    the version of [prime] that follows is not processed, and no file is
    written at all. *)
Lemma unreadable_archive_stops_the_run_witness :
  files (main damagedEnv emptyWorld) = []
  /\ console (main damagedEnv emptyWorld)
     = [Warn "Warning: /repo/packages/error/0.1.0/error-0.1.0.gspkg not found.";
        Error InvalidZip].
Proof.
  destruct (unreadable_archive_stops_the_run damagedEnv sampleRegistry
              [(("error", errorPkg),
                ("0.1.0", {| path := "packages/error/0.1.0/error-0.1.0.gspkg";
                             dependencies := [] |}))]
              [(("prime", primePkg), ("0.1.0", primeVersion))]
              (("error", errorPkg), ("0.2.0", errorVersion))
              emptyWorld
              (skipped damagedEnv
                 (("error", errorPkg),
                  ("0.1.0", {| path := "packages/error/0.1.0/error-0.1.0.gspkg";
                               dependencies := [] |}))
                 (prepared damagedEnv emptyWorld))
              eq_refl eq_refl eq_refl eq_refl) as (_ & _ & M & F).
  split.
  - rewrite F. reflexivity.
  - rewrite M. reflexivity.
Defined.

(** ** The lookups of the entries *)



(** ** Determinism of the search index *)

(** C8: the search index is a function of the package name, the package
    description, the keywords of the descriptor and the function manifest
    alone: two renderings that agree on these, whatever the version, the
    dependencies, the readme, the rest of the descriptor, the owners and
    the docs, give the same search index, byte for byte. *)
Theorem searchIndex_deterministic (pkgName : string) (pd1 pd2 : PackageRecord)
    (v1 v2 : string) (vd1 vd2 : VersionRecord) (readme1 readme2 : string)
    (pc1 pc2 functionsData : value) (hasDocs1 hasDocs2 : bool) (r1 r2 : Rendered) :
  description pd1 = description pd2 ->
  get pc1 "keywords" = get pc2 "keywords" ->
  renderVersion pkgName pd1 v1 vd1 readme1 pc1 functionsData hasDocs1 = Ok r1 ->
  renderVersion pkgName pd2 v2 vd2 readme2 pc2 functionsData hasDocs2 = Ok r2 ->
  m_searchIndex (metadata r1) = m_searchIndex (metadata r2).
Proof.
  intros D K R1 R2.
  apply renderVersion_searchIndex in R1, R2.
  rewrite (buildSearchIndex_inputs pkgName pd1 pd2 pc1 pc2 functionsData D K) in R1.
  congruence.
Qed.

(** Two versions of [error], one without readme and one with a readme
    and a licence: the same search index. *)
Lemma searchIndex_deterministic_witness :
  m_searchIndex
    (metadata
       (renderedOf "error" errorPkg "0.1.0"
          {| path := "packages/error/0.1.0/error-0.1.0.gspkg"; dependencies := [] |}
          "" [("keywords", Str "error")] (parsed errorFunctions)
          (Some errorManifest) false))
  = m_searchIndex
      (metadata
         (renderedOf "error" errorPkg "0.2.0" errorVersion "# error"
            [("license", Str "MIT"); ("keywords", Str "error")]
            (parsed errorFunctions) (Some errorManifest) true)).
Proof.
  apply (searchIndex_deterministic "error" errorPkg errorPkg "0.1.0" "0.2.0"
           {| path := "packages/error/0.1.0/error-0.1.0.gspkg"; dependencies := [] |}
           errorVersion "" "# error"
           (Obj [("keywords", Str "error")])
           (Obj [("license", Str "MIT"); ("keywords", Str "error")])
           (parsed errorFunctions) false true).
  - reflexivity.
  - reflexivity.
  - now apply renderVersion_spec.
  - now apply renderVersion_spec.
Defined.

(** ** The dependency text *)

(** C6: the script computes the text the claim describes (the fixed text
    for an empty list, a link per dependency otherwise), but
    [synthesizeReadme] never puts it in the page it returns.  For [error]
    0.2.0, which has no readme and no dependencies, the run writes the
    page the repository holds, and the fixed text is not in it; for two
    dependencies the links are not in the synthesised page either. *)
Theorem synthesized_page_omits_dependency_text :
  fileAt (indexPath sampleEnv "error" "0.2.0") (main sampleEnv emptyWorld)
  = Some (Bytes errorPage)
  /\ dependencyText (dependencies errorVersion) = "_No dependencies_"
  /\ includes errorPage "_No dependencies_" = false
  /\ dependencyText ["pkg>=1.2.0"; "pkg@2.0.0"]
     = "- [pkg>=1.2.0](/packages/pkg)" ++ nl ++ "- [pkg@2.0.0](/packages/pkg)"
  /\ exists page,
       synthesizeReadme "prime" "0.1.0" primePkg
         {| path := "packages/prime/0.1.0/prime-0.1.0.gspkg";
            dependencies := ["pkg>=1.2.0"; "pkg@2.0.0"] |}
         Null emptyObject "prime" true = Ok page
       /\ includes page "/packages/pkg" = false.
Proof.
  split; [vm_compute; reflexivity|].
  split; [reflexivity|].
  split; [vm_compute; reflexivity|].
  split; [reflexivity|].
  eexists. split; [reflexivity | vm_compute; reflexivity].
Qed.

(** * Further properties of the script *)

(** ** The layout of the content directory *)

(** X1: for a package name and a version that are plain path segments
    (not empty, no slash, neither a dot nor two dots) the output directory
    of the version is the content directory followed by the name and the
    version, the page is [index.md] and the metadata [metadata.json] right
    inside it, and all three lie inside the content directory, the one
    place the run empties. *)
Theorem content_directory_layout (env : Env) (pkgName version : string) :
  plainSegment pkgName = true -> plainSegment version = true ->
  outputDir env pkgName version
  = CONTENT_DIR env ++ "/" ++ pkgName ++ "/" ++ version
  /\ indexPath env pkgName version
     = outputDir env pkgName version ++ "/index.md"
  /\ metadataPath env pkgName version
     = outputDir env pkgName version ++ "/metadata.json"
  /\ under (CONTENT_DIR env) (outputDir env pkgName version) = true
  /\ under (CONTENT_DIR env) (indexPath env pkgName version) = true
  /\ under (CONTENT_DIR env) (metadataPath env pkgName version) = true.
Proof. exact (outputDir_layout env pkgName version). Qed.

Lemma content_directory_layout_witness :
  outputDir sampleEnv "prime" "0.1.0"
  = CONTENT_DIR sampleEnv ++ "/" ++ "prime" ++ "/" ++ "0.1.0"
  /\ indexPath sampleEnv "prime" "0.1.0"
     = outputDir sampleEnv "prime" "0.1.0" ++ "/index.md"
  /\ metadataPath sampleEnv "prime" "0.1.0"
     = outputDir sampleEnv "prime" "0.1.0" ++ "/metadata.json"
  /\ under (CONTENT_DIR sampleEnv) (outputDir sampleEnv "prime" "0.1.0") = true
  /\ under (CONTENT_DIR sampleEnv) (indexPath sampleEnv "prime" "0.1.0") = true
  /\ under (CONTENT_DIR sampleEnv) (metadataPath sampleEnv "prime" "0.1.0") = true.
Proof.
  exact (content_directory_layout sampleEnv "prime" "0.1.0" eq_refl eq_refl).
Defined.



(** ** The files of the docs folder *)



(** X4: the name of an entry is joined to the docs folder as it is.  An
    entry named [docs/../name] is therefore written right inside the
    output directory, outside its [docs] folder; with the name [index.md]
    it is written where the page goes. *)
Theorem docs_entry_naming_its_parent_leaves_docs (env : Env) (pkgName version : string)
    (e : ZipEntry) (name : string) :
  plainSegment pkgName = true -> plainSegment version = true ->
  plainSegment name = true ->
  entryName e = "docs/../" ++ name ->
  docTarget (outputDir env pkgName version) e
  = outputDir env pkgName version ++ "/" ++ name
  /\ under (outputDir env pkgName version ++ "/docs")
       (docTarget (outputDir env pkgName version) e) = false
  /\ (name = "index.md" ->
      docTarget (outputDir env pkgName version) e = indexPath env pkgName version).
Proof.
  intros P V Pn E.
  pose proof (docTarget_parent_segment env pkgName version e name P V Pn E) as T.
  split; [exact T|]. split.
  - rewrite T. now apply under_docs_sibling.
  - intros ->. rewrite T.
    destruct (outputDir_layout env pkgName version P V) as (_ & I & _).
    now rewrite I.
Qed.

Lemma docs_entry_naming_its_parent_leaves_docs_witness :
  docTarget (outputDir sampleEnv "prime" "0.1.0") (entry "docs/../index.md" "not the page")
  = indexPath sampleEnv "prime" "0.1.0".
Proof.
  exact (proj2 (proj2 (docs_entry_naming_its_parent_leaves_docs sampleEnv "prime" "0.1.0"
                          (entry "docs/../index.md" "not the page") "index.md"
                          eq_refl eq_refl eq_refl eq_refl)) eq_refl).
Defined.

(** X5: the page and the metadata are written after the docs folder is
    copied.  When the processing of an archive returns, the last content
    written at the path of the page is the page and the last content
    written at the path of the metadata is the metadata, whatever entries
    were copied, and the two paths differ, whatever the names are. *)
Theorem page_and_metadata_written_last (env : Env) (pkgName : string)
    (pkgData : PackageRecord) (version : string) (versionData : VersionRecord)
    (zipEntries : list ZipEntry) (projectConfig functionsData : value) (w w' : World) :
  finishArchive env pkgName pkgData version versionData zipEntries
    projectConfig functionsData w = (Ok tt, w') ->
  exists r,
    renderVersion pkgName pkgData version versionData (readReadme zipEntries)
      projectConfig functionsData (existsb isDocFile zipEntries) = Ok r
    /\ fileAt (indexPath env pkgName version) w' = Some (Bytes (indexMd r))
    /\ fileAt (metadataPath env pkgName version) w' = Some (MetadataJson (metadata r))
    /\ (metadataPath env pkgName version =? indexPath env pkgName version) = false.
Proof.
  intros H.
  destruct (finishArchive_written env pkgName pkgData version versionData zipEntries
              projectConfig functionsData w w' H) as (r & R & I & M).
  exists r. repeat split; trivial. apply indexPath_metadataPath.
Qed.

(** The archive with an entry that lands on the path of the page: the
    page is what is left there. *)
Lemma page_and_metadata_written_last_witness :
  exists r,
    renderVersion "prime" primePkg "0.1.0" primeVersion (readReadme climbingEntries)
      emptyObject Null (existsb isDocFile climbingEntries) = Ok r
    /\ fileAt (indexPath sampleEnv "prime" "0.1.0")
         (snd (finishArchive sampleEnv "prime" primePkg "0.1.0" primeVersion
                 climbingEntries emptyObject Null emptyWorld))
       = Some (Bytes (indexMd r))
    /\ fileAt (metadataPath sampleEnv "prime" "0.1.0")
         (snd (finishArchive sampleEnv "prime" primePkg "0.1.0" primeVersion
                 climbingEntries emptyObject Null emptyWorld))
       = Some (MetadataJson (metadata r))
    /\ (metadataPath sampleEnv "prime" "0.1.0" =? indexPath sampleEnv "prime" "0.1.0")
       = false.
Proof.
  apply (page_and_metadata_written_last sampleEnv "prime" primePkg "0.1.0" primeVersion
           climbingEntries emptyObject Null emptyWorld).
  vm_compute. reflexivity.
Defined.

(** ** What a run writes, and where *)



(** X7: when a run returns, every version of every package of the
    registry has its output directory; none of the archives was
    unreadable; and for every version whose archive was found the
    rendering of what the archive holds succeeded, and the page, the
    metadata and every file of the docs folder of the archive were
    written. *)
Theorem finished_run_covers_every_version (env : Env) (registry : Registry)
    (j : Job) (w w' : World) :
  indexJson env = Ok registry ->
  extractDocs env w = (Ok tt, w') ->
  In j (jobs registry) ->
  In (outputDir env (fst (fst j)) (fst (snd j))) (dirs w')
  /\ disk env (gspkgPath env (snd (snd j))) <> Some Unreadable
  /\ forall zipEntries,
       disk env (gspkgPath env (snd (snd j))) = Some (Archive zipEntries) ->
       exists r,
         renderVersion (fst (fst j)) (snd (fst j)) (fst (snd j)) (snd (snd j))
           (readReadme zipEntries) (projectConfigOf zipEntries)
           (functionsDataOf zipEntries) (existsb isDocFile zipEntries) = Ok r
         /\ In (indexPath env (fst (fst j)) (fst (snd j)), Bytes (indexMd r)) (files w')
         /\ In (metadataPath env (fst (fst j)) (fst (snd j)), MetadataJson (metadata r))
              (files w')
         /\ forall e, In e zipEntries -> isDocFile e = true ->
                      In (docTarget (outputDir env (fst (fst j)) (fst (snd j))) e,
                          Bytes (getData e)) (files w').
Proof. exact (extractDocs_ok env registry j w w'). Qed.

(** The version of [prime] in the sample checkout. *)
Lemma finished_run_covers_every_version_witness :
  In (outputDir sampleEnv "prime" "0.1.0") (dirs (snd (extractDocs sampleEnv emptyWorld)))
  /\ exists r,
       renderVersion "prime" primePkg "0.1.0" primeVersion (readReadme primeEntries)
         (projectConfigOf primeEntries) (functionsDataOf primeEntries)
         (existsb isDocFile primeEntries) = Ok r
       /\ In (indexPath sampleEnv "prime" "0.1.0", Bytes (indexMd r))
            (files (snd (extractDocs sampleEnv emptyWorld)))
       /\ In (metadataPath sampleEnv "prime" "0.1.0", MetadataJson (metadata r))
            (files (snd (extractDocs sampleEnv emptyWorld))).
Proof.
  destruct (finished_run_covers_every_version sampleEnv sampleRegistry
              (("prime", primePkg), ("0.1.0", primeVersion)) emptyWorld
              (snd (extractDocs sampleEnv emptyWorld)) eq_refl)
    as (D & _ & A).
  - vm_compute. reflexivity.
  - right. right. left. reflexivity.
  - split; [exact D|].
    destruct (A primeEntries eq_refl) as (r & R & I & M & _).
    exists r. split; [exact R|]. split; [exact I | exact M].
Defined.

(** X8: the registry is read before the content directory is made and
    emptied.  When [index.json] cannot be read the run throws at once: no
    directory is made, nothing is removed, nothing is written, and the
    only trace is the error on the console. *)
Theorem unreadable_registry_touches_nothing (env : Env) (e : exn) (w : World) :
  indexJson env = Throw e ->
  extractDocs env w = (Throw e, w)
  /\ main env w = said (Error e) w
  /\ files (main env w) = files w
  /\ dirs (main env w) = dirs w
  /\ console (main env w) = (console w ++ [Error e])%list.
Proof.
  intros I. pose proof (extractDocs_unread env e w I) as X.
  split; [exact X|]. unfold main. rewrite X. repeat split.
Qed.

Lemma unreadable_registry_touches_nothing_witness :
  extractDocs lostEnv oldWorld = (Throw ReadError, oldWorld)
  /\ main lostEnv oldWorld = said (Error ReadError) oldWorld
  /\ files (main lostEnv oldWorld) = files oldWorld
  /\ dirs (main lostEnv oldWorld) = dirs oldWorld
  /\ console (main lostEnv oldWorld) = (console oldWorld ++ [Error ReadError])%list.
Proof.
  exact (unreadable_registry_touches_nothing lostEnv ReadError oldWorld eq_refl).
Defined.

(** ** Exceptions *)

(** X9: a descriptor is any JSON text, and one that parses to [null], a
    number, a string or a boolean is not replaced by the empty object: the
    script reads and sets its properties as if it were an object, which
    throws a [TypeError].  Nothing catches it: the files of the docs folder
    of the archive are written, the page and the metadata are not, the
    versions that follow are not processed, and the run ends with the
    error on the console. *)
Theorem primitive_descriptor_stops_the_run (env : Env) (registry : Registry)
    (before after : list Job) (j : Job) (zipEntries : list ZipEntry)
    (projectEntry : ZipEntry) (v : value) (w w1 : World) :
  indexJson env = Ok registry ->
  jobs registry = (before ++ j :: after)%list ->
  forEach before (processJob env) (prepared env w) = (Ok tt, w1) ->
  disk env (gspkgPath env (snd (snd j))) = Some (Archive zipEntries) ->
  findEntry "__gsproject__.json" zipEntries = Some projectEntry ->
  Json.parse (getData projectEntry) = Some v ->
  notObject v = true ->
  exists w2,
    extractDocs env w = (Throw TypeError, w2)
    /\ main env w = said (Error TypeError) w2
    /\ files w2
       = (files w1 ++ copied (outputDir env (fst (fst j)) (fst (snd j))) zipEntries)%list.
Proof.
  intros I J B D F P N.
  assert (C : projectConfigOf zipEntries = v)
    by (unfold projectConfigOf; now rewrite F, P).
  destruct (processArchive_cases env (fst (fst j)) (snd (fst j)) (fst (snd j))
              (snd (snd j)) zipEntries
              (mkdir (outputDir env (fst (fst j)) (fst (snd j))) w1))
    as (w2 & _ & Fs & E).
  rewrite C, renderVersion_notObject in E by exact N.
  rewrite <- (processJob_archive env j zipEntries w1 D) in E.
  assert (X : extractDocs env w = (Throw TypeError, w2)).
  { rewrite (extractDocs_loop env registry w I), J.
    exact (forEach_throw env before after j _ w1 w2 TypeError B E). }
  exists w2. split; [exact X|]. split; [unfold main; now rewrite X|].
  now rewrite Fs, mkdir_files.
Qed.

(** The checkout in which the descriptor of [error] 0.2.0 is the text
    [null]: the guide of its docs folder is the only file written, and
    [prime] is not processed. *)
Lemma primitive_descriptor_stops_the_run_witness :
  exists w2,
    extractDocs primitiveEnv emptyWorld = (Throw TypeError, w2)
    /\ main primitiveEnv emptyWorld = said (Error TypeError) w2
    /\ files w2
       = ([] ++ copied (outputDir primitiveEnv "error" "0.2.0") primitiveEntries)%list.
Proof.
  exact (primitive_descriptor_stops_the_run primitiveEnv sampleRegistry
           [(("error", errorPkg),
             ("0.1.0", {| path := "packages/error/0.1.0/error-0.1.0.gspkg";
                          dependencies := [] |}))]
           [(("prime", primePkg), ("0.1.0", primeVersion))]
           (("error", errorPkg), ("0.2.0", errorVersion))
           primitiveEntries (entry "__GSPROJECT__.json" "null") Null emptyWorld
           (skipped primitiveEnv
              (("error", errorPkg),
               ("0.1.0", {| path := "packages/error/0.1.0/error-0.1.0.gspkg";
                            dependencies := [] |}))
              (prepared primitiveEnv emptyWorld))
           eq_refl eq_refl eq_refl eq_refl eq_refl eq_refl eq_refl).
Defined.

(** X10: what the step of a version does with an exception.  A missing
    archive never throws.  An archive that cannot be opened throws before
    anything is written.  The rendering of what an archive holds throws
    nothing but a [TypeError], and when it does for an archive that was
    opened, whose entries were read and whose files of the docs folder
    were written, the step throws it before the page and the metadata,
    which are not written. *)
Theorem exceptions_of_a_version (env : Env) (j : Job) (w : World) :
  (disk env (gspkgPath env (snd (snd j))) = None ->
   processJob env j w = (Ok tt, skipped env j w))
  /\ (disk env (gspkgPath env (snd (snd j))) = Some Unreadable ->
      exists w', processJob env j w = (Throw InvalidZip, w') /\ files w' = files w)
  /\ (forall pkgName pkgData version versionData readme projectConfig functionsData
             hasDocs e,
        renderVersion pkgName pkgData version versionData readme projectConfig
          functionsData hasDocs = Throw e ->
        e = TypeError)
  /\ (forall zipEntries e,
        disk env (gspkgPath env (snd (snd j))) = Some (Archive zipEntries) ->
        renderVersion (fst (fst j)) (snd (fst j)) (fst (snd j)) (snd (snd j))
          (readReadme zipEntries) (projectConfigOf zipEntries)
          (functionsDataOf zipEntries) (existsb isDocFile zipEntries) = Throw e ->
        exists w',
          processJob env j w = (Throw TypeError, w')
          /\ files w'
             = (files w
                ++ copied (outputDir env (fst (fst j)) (fst (snd j))) zipEntries)%list).
Proof.
  split; [apply processJob_missing|]. split; [|split].
  - intros D. rewrite (processJob_unreadable env j w D).
    eexists. split; [reflexivity | apply mkdir_files].
  - intros pkgName pkgData version versionData readme projectConfig functionsData
      hasDocs e. apply renderVersion_throws.
  - intros zipEntries e D R.
    pose proof (renderVersion_throws _ _ _ _ _ _ _ _ e R) as ->.
    rewrite (processJob_archive env j zipEntries w D).
    destruct (processArchive_cases env (fst (fst j)) (snd (fst j)) (fst (snd j))
                (snd (snd j)) zipEntries
                (mkdir (outputDir env (fst (fst j)) (fst (snd j))) w))
      as (w1 & _ & F & E).
    rewrite E, R. exists w1. split; [reflexivity|]. now rewrite F, mkdir_files.
Qed.

(** The archive of the damaged checkout, which cannot be opened, and
    the archive whose descriptor is [null]. *)
Lemma exceptions_of_a_version_witness :
  (exists w',
     processJob damagedEnv (("error", errorPkg), ("0.2.0", errorVersion)) emptyWorld
     = (Throw InvalidZip, w') /\ files w' = files emptyWorld)
  /\ (exists w',
        processJob primitiveEnv (("error", errorPkg), ("0.2.0", errorVersion)) emptyWorld
        = (Throw TypeError, w')
        /\ files w'
           = (files emptyWorld
              ++ copied (outputDir primitiveEnv "error" "0.2.0") primitiveEntries)%list).
Proof.
  split.
  - exact (proj1 (proj2 (exceptions_of_a_version damagedEnv
                           (("error", errorPkg), ("0.2.0", errorVersion)) emptyWorld))
             eq_refl).
  - exact (proj2 (proj2 (proj2 (exceptions_of_a_version primitiveEnv
                                  (("error", errorPkg), ("0.2.0", errorVersion))
                                  emptyWorld)))
             primitiveEntries TypeError eq_refl eq_refl).
Defined.

(** X11: a manifest in which the definition of a function is [null]
    cannot be rendered: reading the description of the function throws a
    [TypeError], whatever the descriptor, the readme and the other
    functions are. *)
Theorem null_function_definition_throws (pkgName : string) (pkgData : PackageRecord)
    (version : string) (versionData : VersionRecord) (readmeContent : string)
    (projectConfig : value) (funcs : list (string * value)) (funcName : string)
    (hasDocs : bool) :
  In (funcName, Null) funcs ->
  functionParts funcs = Throw TypeError
  /\ renderVersion pkgName pkgData version versionData readmeContent
       projectConfig (Obj funcs) hasDocs = Throw TypeError.
Proof.
  intros I. split; [exact (functionParts_null funcs funcName I)|].
  exact (renderVersion_null_function pkgName pkgData version versionData readmeContent
           projectConfig funcs funcName hasDocs I).
Qed.

Lemma null_function_definition_throws_witness :
  functionParts [("ISPRIME", Obj [("description", Str "A test.")]); ("NEXT", Null)]
  = Throw TypeError
  /\ renderVersion "prime" primePkg "0.1.0" primeVersion "# prime" emptyObject
       (Obj [("ISPRIME", Obj [("description", Str "A test.")]); ("NEXT", Null)]) false
     = Throw TypeError.
Proof.
  exact (null_function_definition_throws "prime" primePkg "0.1.0" primeVersion "# prime"
           emptyObject [("ISPRIME", Obj [("description", Str "A test.")]); ("NEXT", Null)]
           "NEXT" false (or_intror (or_introl eq_refl))).
Defined.

(** ** The front matter *)

(** X12: the list of dependencies is written in the front matter with
    [JSON.stringify]; read back with [JSON.parse] the line gives the list
    again, whatever characters the dependencies hold (quotes, backslashes
    and control characters are escaped). *)
Theorem dependencies_line_reads_back (deps : list string) :
  Json.parse (stringify deps) = Some (Arr (map Str deps)).
Proof. exact (parse_stringify deps). Qed.

(** X13: the search index is a single line of words: it is empty, or
    it has no TAB, LF, VT, FF or CR, no two spaces in a row and no space
    at either end; and in the line of the front matter every double quote
    of it comes right after a backslash and no line break is added. *)
Theorem search_index_is_a_single_line (pkgName : string) (pkgData : PackageRecord)
    (projectConfig functionsData : value) (searchIndex : string) :
  buildSearchIndex pkgName pkgData projectConfig functionsData = Ok searchIndex ->
  (searchIndex = "" \/ singleSpaced true searchIndex = true)
  /\ (forall c, Js.space1 c = true -> Ascii.eqb c " " = false ->
                hasChar c searchIndex = false)
  /\ quotesEscaped false
       (Js.replaceAll dq (String backslash (String dq "")) searchIndex) = true
  /\ hasChar "010"
       (Js.replaceAll dq (String backslash (String dq "")) searchIndex) = false
  /\ hasChar "013"
       (Js.replaceAll dq (String backslash (String dq "")) searchIndex) = false.
Proof.
  intros H. pose proof (buildSearchIndex_shape _ _ _ _ _ H) as S.
  assert (N : forall c, Js.space1 c = true -> Ascii.eqb c " " = false ->
                        hasChar c searchIndex = false).
  { intros c C Nc. destruct S as [-> | S]; [reflexivity|].
    exact (weakSpaced_hasChar true c searchIndex C Nc (singleSpaced_weak _ _ S)). }
  split; [exact S|]. split; [exact N|].
  split; [apply quotesEscaped_replaceAll|].
  split; rewrite hasChar_replaceAll by reflexivity; now apply N.
Qed.

(** A description over two lines, with a tab and a quoted word. *)
Lemma search_index_is_a_single_line_witness :
  buildSearchIndex "prime"
    {| description := String "009" ("Primes," ++ nl ++ "  the " ++ String dq ("fast" ++ String dq " way. "));
       owners := []; versions := []; latest := "0.1.0" |}
    emptyObject Null
  = Ok ("prime Primes, the " ++ String dq ("fast" ++ String dq " way."))
  /\ quotesEscaped false
       (Js.replaceAll dq (String backslash (String dq ""))
          ("prime Primes, the " ++ String dq ("fast" ++ String dq " way."))) = true.
Proof.
  split; [reflexivity|].
  exact (proj1 (proj2 (proj2
           (search_index_is_a_single_line "prime"
              {| description := String "009" ("Primes," ++ nl ++ "  the " ++ String dq ("fast" ++ String dq " way. "));
                 owners := []; versions := []; latest := "0.1.0" |}
              emptyObject Null
              ("prime Primes, the " ++ String dq ("fast" ++ String dq " way."))
              eq_refl)))).
Defined.

(** ** The keywords *)

(** X14: a list of keywords is normalised to the same text, the keywords
    joined by a comma and a space, whether the descriptor holds it as an
    array of strings, as the text of a JSON array, or as the text of a
    list in single quotes (the form the registry uses).  The keywords
    hold no quote, no backslash and no control character. *)
Theorem keyword_list_encodings_agree (l : list string) :
  forallb safeWord l = true ->
  normalizeKeywords (Arr (map Str l)) = Str (Js.join ", " l)
  /\ normalizeKeywords (Str (listText dq l)) = Str (Js.join ", " l)
  /\ normalizeKeywords (Str (listText sq l)) = Str (Js.join ", " l).
Proof.
  intros S. split; [exact (normalizeKeywords_list l)|].
  split; apply normalizeKeywords_listText; auto.
Qed.

Lemma keyword_list_encodings_agree_witness :
  normalizeKeywords (Arr (map Str ["prime numbers"; "math"])) = Str "prime numbers, math"
  /\ normalizeKeywords (Str (listText dq ["prime numbers"; "math"]))
     = Str "prime numbers, math"
  /\ normalizeKeywords (Str (listText sq ["prime numbers"; "math"]))
     = Str "prime numbers, math".
Proof.
  exact (keyword_list_encodings_agree ["prime numbers"; "math"] eq_refl).
Defined.

(** X15: a bracketed list of bare words (letters, digits and hyphens,
    without quotes) that is not JSON takes the fallback of the normaliser,
    which gives the words joined by a comma and a space, with or without a
    space after the commas of the text. *)
Theorem unquoted_keyword_list_falls_back (sp : string) (l : list string) :
  sp = "" \/ sp = " " ->
  forallb nameChars l = true -> l <> [] ->
  Json.parse ("[" ++ Js.join ("," ++ sp) l ++ "]") = None ->
  normalizeKeywords (Str ("[" ++ Js.join ("," ++ sp) l ++ "]")) = Str (Js.join ", " l).
Proof. exact (normalizeKeywords_fallback sp l). Qed.

Lemma unquoted_keyword_list_falls_back_witness :
  normalizeKeywords (Str "[math,number-theory,primes]") = Str "math, number-theory, primes".
Proof.
  apply (unquoted_keyword_list_falls_back "" ["math"; "number-theory"; "primes"]).
  - left. reflexivity.
  - reflexivity.
  - discriminate.
  - vm_compute. reflexivity.
Defined.

(** ** The page and the metadata *)

(** X16: whenever a version is rendered, the page and the metadata say
    the same: the page starts with the front matter made of the very
    values the metadata holds (name, version, description, latest flag,
    keywords, homepage, license, search index, dependencies), the keywords
    of both are the normalised keywords of the descriptor, the homepage
    and the license are those of the descriptor, and the front matter is
    followed by the API reference and the callout when there is no readme
    text, by the readme and the API reference when there is a manifest, by
    the readme alone otherwise. *)
Theorem page_and_metadata_agree (pkgName : string) (pkgData : PackageRecord)
    (version : string) (versionData : VersionRecord) (readme : string)
    (projectConfig functionsData : value) (hasDocs : bool) (r : Rendered) :
  renderVersion pkgName pkgData version versionData readme projectConfig
    functionsData hasDocs = Ok r ->
  exists raw api,
    get projectConfig "keywords" = Ok raw
    /\ generateApiDocs functionsData = Ok api
    /\ m_keywords (metadata r) = normalizeKeywords raw
    /\ get projectConfig "homepage" = Ok (m_homepage (metadata r))
    /\ get projectConfig "license" = Ok (m_license (metadata r))
    /\ m_name (metadata r) = pkgName
    /\ m_version (metadata r) = version
    /\ m_description (metadata r) = description pkgData
    /\ m_owners (metadata r) = owners pkgData
    /\ m_latest (metadata r) = (latest pkgData =? version)
    /\ m_hasDocs (metadata r) = hasDocs
    /\ m_functions (metadata r) = functionsData
    /\ indexMd r
       = frontBlock (m_name (metadata r)) (m_version (metadata r))
           (m_description (metadata r)) (m_latest (metadata r))
           (m_keywords (metadata r)) (m_homepage (metadata r))
           (m_license (metadata r)) (m_searchIndex (metadata r))
           (m_dependencies (metadata r))
         ++ (if readme =? "" then api ++ nl ++ nl ++ callout
             else if truthy functionsData then readme ++ nl ++ nl ++ api
             else readme).
Proof.
  intros H.
  destruct (renderVersion_consistent _ _ _ _ _ _ _ _ _ H)
    as (raw & homepage & license & api & G1 & G2 & G3 & A & K & Hh & Hl & Hn & Hv
        & Hd & Ho & Hdeps & Hlat & Hdocs & Hf & P).
  exists raw, api.
  rewrite K, Hh, Hl, Hn, Hv, Hd, Ho, Hdeps, Hlat, Hdocs, Hf.
  repeat split; trivial.
Qed.

(** The page of [error] 0.2.0. *)
Lemma page_and_metadata_agree_witness :
  exists raw api,
    get (parsed errorProject) "keywords" = Ok raw
    /\ generateApiDocs (parsed errorFunctions) = Ok api
    /\ m_keywords
         (metadata (renderedOf "error" errorPkg "0.2.0" errorVersion ""
                      (entries (parsed errorProject)) (parsed errorFunctions)
                      (Some errorManifest) false))
       = normalizeKeywords raw.
Proof.
  destruct (page_and_metadata_agree "error" errorPkg "0.2.0" errorVersion ""
              (parsed errorProject) (parsed errorFunctions) false
              (renderedOf "error" errorPkg "0.2.0" errorVersion ""
                 (entries (parsed errorProject)) (parsed errorFunctions)
                 (Some errorManifest) false))
    as (raw & api & G & A & K & _).
  - vm_compute. reflexivity.
  - exists raw, api. split; [exact G|]. split; [exact A | exact K].
Defined.

(** ** The names of the dependencies *)

(** X17: the package name the script reads out of a dependency specifier
    (the text before a version constraint) is the specifier itself when it
    is a bare name, and the name before the constraint when one follows,
    introduced by an at sign or by the two characters greater-than and
    equals. *)
Theorem dependency_name_of_a_specifier (name op rest : string) :
  name <> "" ->
  nameChars name = true ->
  Js.hasLineTerminator rest = false ->
  op = "@" \/ op = ">=" ->
  depName name = name
  /\ depName (name ++ op ++ rest) = name
  /\ dependencyLink (name ++ op ++ rest)
     = "- [" ++ (name ++ op ++ rest) ++ "](/packages/" ++ name ++ ")".
Proof.
  intros N C L O.
  destruct (depName_of_specifier name op rest N C L O) as [A B].
  split; [exact A|]. split; [exact B|]. unfold dependencyLink. now rewrite B.
Qed.

Lemma dependency_name_of_a_specifier_witness :
  depName "error" = "error"
  /\ depName ("error" ++ ">=" ++ "0.2.0") = "error"
  /\ dependencyLink ("error" ++ ">=" ++ "0.2.0")
     = "- [" ++ ("error" ++ ">=" ++ "0.2.0") ++ "](/packages/" ++ "error" ++ ")".
Proof.
  apply (dependency_name_of_a_specifier "error" ">=" "0.2.0").
  - discriminate.
  - reflexivity.
  - reflexivity.
  - right. reflexivity.
Defined.

(** ** Running the script again *)

(** X18: the script rebuilds the content directory from what the
    registry and the archives hold, and from nothing else: on a checkout
    with plain package names, versions and docs entries, a second run
    right after the first leaves the same files, those outside the
    content directory untouched and those inside written anew.  (The
    registry and the archives are read-only inputs of the model: they lie
    outside the content directory.) *)
Theorem second_run_leaves_the_same_files (env : Env) (registry : Registry) (w : World) :
  indexJson env = Ok registry ->
  forallb (safeJob env) (jobs registry) = true ->
  files (main env (main env w)) = files (main env w).
Proof. exact (main_twice env registry w). Qed.

Lemma second_run_leaves_the_same_files_witness :
  files (main sampleEnv (main sampleEnv oldWorld)) = files (main sampleEnv oldWorld).
Proof.
  apply (second_run_leaves_the_same_files sampleEnv sampleRegistry oldWorld).
  - reflexivity.
  - vm_compute. reflexivity.
Defined.

(** ** Searching by name *)

(** X19: the search index of a package whose name is made of letters,
    digits and hyphens starts with the name, whatever the description,
    the keywords and the manifest are. *)
Theorem search_index_starts_with_the_package_name (pkgName : string)
    (pkgData : PackageRecord) (projectConfig functionsData : value)
    (searchIndex : string) :
  pkgName <> "" -> nameChars pkgName = true ->
  buildSearchIndex pkgName pkgData projectConfig functionsData = Ok searchIndex ->
  Js.startsWith searchIndex pkgName = true.
Proof. exact (buildSearchIndex_name pkgName pkgData projectConfig functionsData searchIndex). Qed.

Lemma search_index_starts_with_the_package_name_witness :
  Js.startsWith "prime A small library for prime number utilities." "prime" = true.
Proof.
  apply (search_index_starts_with_the_package_name "prime" primePkg emptyObject Null).
  - discriminate.
  - reflexivity.
  - reflexivity.
Defined.
